(** * MesaFS host tools: on-disk format, formatter, injector and lister

    A shallow embedding of the three host-side tools that lay out and
    populate a MesaFS volume:

    - [mesafs-format.c] (the volume initializer),
    - [inject-file.c]   (the file injector),
    - [mesafs-list.c]   (the volume inspector).

    Integers of the C code are [Z] values with their wrap-around written
    out ([wrap32], [wrap8]); bytes are [Z] values in a [list Z] buffer; the
    packed structs are records with explicit little-endian encoders (the
    tools copy structs with [memcpy], so the layout is the host's; the
    model fixes the little-endian x86 host the boot-record code assumes).

    The disk image is a list of 4096-byte extents.  All three tools seek
    to [part_offset + block_num * 4096] computed in 32-bit unsigned
    arithmetic, so every access of one session lands on a byte position
    congruent to [part_offset] modulo 4096; the list holds the extents
    that start at those positions, in order.  The bytes before the first
    such position (the boot record, when the partition is not 4096-byte
    aligned) are not part of the model: the partition entry is an input
    ([part_lba], [part_sectors]) of every operation.  A read past the end
    of the image is a short read; a write past the end grows the image,
    the gap reading back as zeros.

    [long] is 64 bits wide, as on the LP64 hosts the tools are built on;
    the source file is the list of its bytes, already in memory (opening
    and reading it, like [malloc], are taken to succeed). *)

From Stdlib Require Import ZArith Lia String Ascii.
From stdpp Require Import base list.

Local Open Scope Z_scope.

(** ** Constants of the three tools *)

Definition SECTOR_SIZE : Z := 512.
Definition MESAFS_MAGIC : Z := 0x4D455341.
Definition MESAFS_VERSION : Z := 1.
Definition MESAFS_BLOCK_SIZE : Z := 4096.
Definition MESAFS_TYPE_FILE : Z := 1.
Definition MESAFS_TYPE_DIR : Z := 2.
Definition MESAFS_FLAG_USED : Z := 1.
Definition MESAFS_MAX_FILENAME : nat := 56.
Definition MESAFS_DIRECT_BLOCKS : Z := 10.

Definition MESAFS_BLOCK_BITMAP_BLOCK : Z := 0.
Definition MESAFS_INODE_BITMAP_BLOCK : Z := 1.
Definition MESAFS_INODE_TABLE_START : Z := 2.
Definition MESAFS_INODE_TABLE_BLOCKS : Z := 8.
Definition MESAFS_DATA_START : Z := 10.

(** [sizeof] of the three packed structs.  The inode struct is commented
    as 128 bytes in the sources, but its packed fields add up to
    4+1+1+2+4+4+40+4+8+8+36 = 112 bytes, and that is the stride of
    [inodes[i]] in every tool. *)
Definition SIZEOF_SUPERBLOCK : nat := 512.
Definition SIZEOF_INODE : nat := 112.
Definition SIZEOF_DIRENT : nat := 64.
Definition DIRENT_NAME_SIZE : nat := 58.

(** ** Machine integers *)

Definition wrap8 (z : Z) : Z := z mod 2 ^ 8.
Definition wrap16 (z : Z) : Z := z mod 2 ^ 16.
Definition wrap32 (z : Z) : Z := z mod 2 ^ 32.

(** ** Byte buffers *)

Definition byte_at (buf : list Z) (i : nat) : Z := default 0 (buf !! i).

Definition get_u32 (buf : list Z) (off : nat) : Z :=
  byte_at buf off
  + 2 ^ 8 * byte_at buf (off + 1)
  + 2 ^ 16 * byte_at buf (off + 2)
  + 2 ^ 24 * byte_at buf (off + 3).

Definition encode_u16 (v : Z) : list Z :=
  [v mod 256; (v / 2 ^ 8) mod 256].

Definition encode_u32 (v : Z) : list Z :=
  [v mod 256; (v / 2 ^ 8) mod 256; (v / 2 ^ 16) mod 256; (v / 2 ^ 24) mod 256].

Definition encode_u64 (v : Z) : list Z :=
  encode_u32 v ++ encode_u32 (v / 2 ^ 32).

(** [memcpy (buf + off, src, length src)] into a buffer. *)
Definition overlay (buf : list Z) (off : nat) (src : list Z) : list Z :=
  take off buf ++ src ++ drop (off + length src) buf.

(** C strings are the bytes in front of the first NUL. *)
Fixpoint c_string (bytes : list Z) : list Z :=
  match bytes with
  | [] => []
  | c :: rest => if c =? 0 then [] else c :: c_string rest
  end.

Definition strlen (s : list Z) : Z := Z.of_nat (length (c_string s)).

(** [strncpy (dst, src, n)]: the first [n] bytes of [src], NUL-padded. *)
Definition strncpy (n : nat) (src : list Z) : list Z :=
  take n (c_string src ++ replicate n 0).

(** What [printf ("%s", buf + off)] prints; [None] when no NUL ends the
    string inside the buffer (the read then runs off the array). *)
Definition c_string_at (buf : list Z) (off : nat) : option (list Z) :=
  let s := c_string (drop off buf) in
  if decide (length s < length (drop off buf))%nat then Some s else None.

(** ** Bitmaps *)

Definition bitmap_set (bitmap : list Z) (bit : Z) : list Z :=
  alter (fun b => wrap8 (Z.lor b (Z.shiftl 1 (bit mod 8))))
        (Z.to_nat (bit / 8)) bitmap.

(** [None] is a read outside the array the bitmap lives in. *)
Definition bitmap_test (bitmap : list Z) (bit : Z) : option bool :=
  (fun b => negb (Z.land b (Z.shiftl 1 (bit mod 8)) =? 0))
    <$> bitmap !! Z.to_nat (bit / 8).

(** ** On-disk records *)

Record mesafs_superblock_t := {
  sb_magic : Z;
  sb_version : Z;
  sb_block_size : Z;
  sb_total_blocks : Z;
  sb_free_blocks : Z;
  sb_total_inodes : Z;
  sb_free_inodes : Z;
  sb_root_inode : Z;
  sb_first_data_block : Z;
  sb_reserved : list Z
}.

Definition encode_superblock (sb : mesafs_superblock_t) : list Z :=
  encode_u32 (sb_magic sb) ++ encode_u32 (sb_version sb)
  ++ encode_u32 (sb_block_size sb) ++ encode_u32 (sb_total_blocks sb)
  ++ encode_u32 (sb_free_blocks sb) ++ encode_u32 (sb_total_inodes sb)
  ++ encode_u32 (sb_free_inodes sb) ++ encode_u32 (sb_root_inode sb)
  ++ encode_u32 (sb_first_data_block sb) ++ sb_reserved sb.

(** [*(mesafs_superblock_t * ) buf] *)
Definition decode_superblock (buf : list Z) : mesafs_superblock_t :=
  {| sb_magic := get_u32 buf 0;
     sb_version := get_u32 buf 4;
     sb_block_size := get_u32 buf 8;
     sb_total_blocks := get_u32 buf 12;
     sb_free_blocks := get_u32 buf 16;
     sb_total_inodes := get_u32 buf 20;
     sb_free_inodes := get_u32 buf 24;
     sb_root_inode := get_u32 buf 28;
     sb_first_data_block := get_u32 buf 32;
     sb_reserved := take 476 (drop 36 buf) |}.

Definition dec_free_inodes (sb : mesafs_superblock_t) : mesafs_superblock_t :=
  {| sb_magic := sb_magic sb; sb_version := sb_version sb;
     sb_block_size := sb_block_size sb; sb_total_blocks := sb_total_blocks sb;
     sb_free_blocks := sb_free_blocks sb; sb_total_inodes := sb_total_inodes sb;
     sb_free_inodes := wrap32 (sb_free_inodes sb - 1);
     sb_root_inode := sb_root_inode sb;
     sb_first_data_block := sb_first_data_block sb;
     sb_reserved := sb_reserved sb |}.

Definition dec_free_blocks (sb : mesafs_superblock_t) : mesafs_superblock_t :=
  {| sb_magic := sb_magic sb; sb_version := sb_version sb;
     sb_block_size := sb_block_size sb; sb_total_blocks := sb_total_blocks sb;
     sb_free_blocks := wrap32 (sb_free_blocks sb - 1);
     sb_total_inodes := sb_total_inodes sb;
     sb_free_inodes := sb_free_inodes sb;
     sb_root_inode := sb_root_inode sb;
     sb_first_data_block := sb_first_data_block sb;
     sb_reserved := sb_reserved sb |}.

Record mesafs_inode_t := {
  ino_inode_num : Z;
  ino_type : Z;
  ino_flags : Z;
  ino_links : Z;
  ino_size : Z;
  ino_blocks_used : Z;
  ino_direct_blocks : list Z;
  ino_indirect_block : Z;
  ino_created : Z;
  ino_modified : Z
}.

(** The ten direct-block slots of a record; slots past the list are the
    zeros [memset] left there. *)
Definition direct_slots (blocks : list Z) : list Z :=
  take 10 (blocks ++ replicate 10 0).

Definition encode_inode (ino : mesafs_inode_t) : list Z :=
  encode_u32 (ino_inode_num ino)
  ++ [wrap8 (ino_type ino)] ++ [wrap8 (ino_flags ino)]
  ++ encode_u16 (ino_links ino)
  ++ encode_u32 (ino_size ino) ++ encode_u32 (ino_blocks_used ino)
  ++ flat_map encode_u32 (direct_slots (ino_direct_blocks ino))
  ++ encode_u32 (ino_indirect_block ino)
  ++ encode_u64 (ino_created ino) ++ encode_u64 (ino_modified ino)
  ++ replicate 36 0.

(** [((mesafs_inode_t * ) buf)[idx]] *)
Definition decode_inode (buf : list Z) (idx : nat) : mesafs_inode_t :=
  let o := (idx * SIZEOF_INODE)%nat in
  {| ino_inode_num := get_u32 buf o;
     ino_type := byte_at buf (o + 4);
     ino_flags := byte_at buf (o + 5);
     ino_links := byte_at buf (o + 6) + 2 ^ 8 * byte_at buf (o + 7);
     ino_size := get_u32 buf (o + 8);
     ino_blocks_used := get_u32 buf (o + 12);
     ino_direct_blocks :=
       map (fun k => get_u32 buf (o + 16 + 4 * k)) (seq 0 10);
     ino_indirect_block := get_u32 buf (o + 56);
     ino_created := get_u32 buf (o + 60) + 2 ^ 32 * get_u32 buf (o + 64);
     ino_modified := get_u32 buf (o + 68) + 2 ^ 32 * get_u32 buf (o + 72) |}.

Record mesafs_dirent_t := {
  de_inode : Z;
  de_type : Z;
  de_name_len : Z;
  de_name : list Z
}.

(** [((mesafs_dirent_t * ) buf)[idx]], the name as its 58 raw bytes. *)
Definition decode_dirent (buf : list Z) (idx : nat) : mesafs_dirent_t :=
  let o := (idx * SIZEOF_DIRENT)%nat in
  {| de_inode := get_u32 buf o;
     de_type := byte_at buf (o + 4);
     de_name_len := byte_at buf (o + 5);
     de_name := take DIRENT_NAME_SIZE (drop (o + 6) buf) |}.

(** ** The disk image *)

Definition zero_block : list Z := replicate (Z.to_nat MESAFS_BLOCK_SIZE) 0.

(** Index of the extent that starts at byte position [pos]. *)
Definition extent_of (pos : Z) : nat := Z.to_nat (pos / MESAFS_BLOCK_SIZE).

(** The image grown with zero extents so that extent [k] exists.  An
    extent that is already there keeps its length: where the image ends
    inside an extent, that short extent stays short (and unreadable) in
    the model, while a real write beyond it would fill it up with zeros.
    The theorems below speak of blocks that are read or written in
    full. *)
Definition grow (d : list (list Z)) (k : nat) : list (list Z) :=
  d ++ replicate (S k - length d) zero_block.

(** [fseek (pos); fread (buf, 1, 4096)]: [None] is a short read. *)
Definition pread (d : list (list Z)) (pos : Z) : option (list Z) :=
  match d !! extent_of pos with
  | Some b =>
      if decide (Z.of_nat (length b) = MESAFS_BLOCK_SIZE) then Some b else None
  | None => None
  end.

(** [fseek (pos); fwrite (buf, 1, 4096)] *)
Definition pwrite (d : list (list Z)) (pos : Z) (buf : list Z) : list (list Z) :=
  <[extent_of pos := buf]> (grow d (extent_of pos)).

(** [fseek (pos); fwrite (sector, 1, 512)]: the first 512 bytes of the
    extent.  (When the extent lies past the end of the image the model
    completes it with zeros; the formatter rewrites the whole extent in
    its next step.) *)
Definition pwrite_sector (d : list (list Z)) (pos : Z) (sector : list Z) : list (list Z) :=
  let k := extent_of pos in
  <[k := overlay (default zero_block (grow d k !! k)) 0 sector]> (grow d k).

(** The byte position [read_block] and [write_block] seek to: the sum and
    the product are [uint32_t]. *)
Definition block_pos (part_offset block_num : Z) : Z :=
  wrap32 (part_offset + wrap32 (block_num * MESAFS_BLOCK_SIZE)).

Definition read_block (d : list (list Z)) (part_offset block_num : Z) : option (list Z) :=
  pread d (block_pos part_offset block_num).

Definition write_block (d : list (list Z)) (part_offset block_num : Z) (buf : list Z) : list (list Z) :=
  pwrite d (block_pos part_offset block_num) buf.

(** ** Outcomes *)

Inductive error :=
| NoPartitionFound
| StorageIOError
| InvalidMagic
| InsufficientInodes
| InsufficientBlocks
| FileTooLarge
| DirectoryFull.

(** [Exit0] and [Exit1] carry the image as the process leaves it.
    [Unspecified] stands for the runs whose result depends on memory the
    program never initialised or does not own: a block buffer used after
    a read whose failure went unchecked, or a bitmap probed past the end
    of its 4096-byte array. *)
Inductive outcome (A : Type) : Type :=
| Exit0 (out : A) (d : list (list Z))
| Exit1 (e : error) (d : list (list Z))
| Unspecified.

Arguments Exit0 {A} out d.
Arguments Exit1 {A} e d.
Arguments Unspecified {A}.

Notation "'let?' x := e 'in' k" :=
  (match e with Some x => k | None => Unspecified end)
  (at level 10, x pattern, e at level 100, k at level 200, only parsing).

(** ** mesafs-format.c *)

(** The position the formatter seeks to for block [k]: [part_offset] is
    [uint32_t], the product [k * MESAFS_BLOCK_SIZE] an [int]. *)
Definition format_pos (part_offset k : Z) : Z :=
  wrap32 (part_offset + k * MESAFS_BLOCK_SIZE).

Definition format_superblock (total_blocks total_inodes : Z) : mesafs_superblock_t :=
  {| sb_magic := MESAFS_MAGIC;
     sb_version := MESAFS_VERSION;
     sb_block_size := MESAFS_BLOCK_SIZE;
     sb_total_blocks := total_blocks;
     sb_free_blocks := wrap32 (total_blocks - MESAFS_DATA_START - 1);
     sb_total_inodes := total_inodes;
     sb_free_inodes := wrap32 (total_inodes - 2);
     sb_root_inode := 1;
     sb_first_data_block := MESAFS_DATA_START;
     sb_reserved := replicate 476 0 |}.

(** Block 0 as the formatter builds it: bits 0..9 and bit 10 are set in a
    zeroed block, and then the superblock is copied over the first 512
    bytes of that same block. *)
Definition format_block0 (sb : mesafs_superblock_t) : list Z :=
  let block := zero_block in
  let block := foldl bitmap_set block (seqZ 0 MESAFS_DATA_START) in
  let block := bitmap_set block MESAFS_DATA_START in
  overlay block 0 (encode_superblock sb).

Definition format_inode_bitmap : list Z :=
  bitmap_set (bitmap_set zero_block 0) 1.

Definition root_inode_record : mesafs_inode_t :=
  {| ino_inode_num := 1;
     ino_type := MESAFS_TYPE_DIR;
     ino_flags := MESAFS_FLAG_USED;
     ino_links := 1;
     ino_size := 0;
     ino_blocks_used := 1;
     ino_direct_blocks := [MESAFS_DATA_START];
     ino_indirect_block := 0;
     ino_created := 0;
     ino_modified := 0 |}.

Definition format_inode_table0 : list Z :=
  overlay zero_block (1 * SIZEOF_INODE) (encode_inode root_inode_record).

Definition format (d : list (list Z)) (part_lba part_sectors : Z) : outcome unit :=
  if part_lba =? 0 then Exit1 NoPartitionFound d else
  let part_offset := wrap32 (part_lba * SECTOR_SIZE) in
  let total_blocks := part_sectors / 8 in
  let total_inodes := 256 in
  let sb := format_superblock total_blocks total_inodes in
  let sector := overlay (replicate 512 0) 0 (encode_superblock sb) in
  let d := pwrite_sector d part_offset sector in
  let d := pwrite d (format_pos part_offset MESAFS_BLOCK_BITMAP_BLOCK)
             (format_block0 sb) in
  let d := pwrite d (format_pos part_offset MESAFS_INODE_BITMAP_BLOCK)
             format_inode_bitmap in
  let d := pwrite d (format_pos part_offset MESAFS_INODE_TABLE_START)
             format_inode_table0 in
  let d := foldl (fun d b =>
                    pwrite d (format_pos part_offset (MESAFS_INODE_TABLE_START + b))
                           zero_block)
             d (seqZ 1 (MESAFS_INODE_TABLE_BLOCKS - 1)) in
  let d := pwrite d (format_pos part_offset MESAFS_DATA_START) zero_block in
  Exit0 tt d.

(** ** inject-file.c *)

(** [filename = dest_path; if (dest_path[0] == '/') filename++;] *)
Definition filename_of (dest_path : list Z) : list Z :=
  match dest_path with
  | c :: rest => if c =? 47 then rest else dest_path
  | [] => dest_path
  end.

(** [file_size] is a [long]; the quotient is narrowed to [uint32_t]. *)
Definition blocks_needed_of (file_size : Z) : Z :=
  let blocks_needed :=
    wrap32 ((file_size + MESAFS_BLOCK_SIZE - 1) / MESAFS_BLOCK_SIZE) in
  if blocks_needed =? 0 then 1 else blocks_needed.

(** The inode scan, [n] iterations from [i]; the first component is
    [new_inode], 0 when the loop ran to its end. *)
Fixpoint alloc_inode_loop (n : nat) (i : Z) (inode_bitmap : list Z)
    (sb_copy : mesafs_superblock_t)
    : option (Z * list Z * mesafs_superblock_t) :=
  match n with
  | O => Some (0, inode_bitmap, sb_copy)
  | S n' =>
      match bitmap_test inode_bitmap i with
      | None => None
      | Some false =>
          Some (i, bitmap_set inode_bitmap i, dec_free_inodes sb_copy)
      | Some true => alloc_inode_loop n' (i + 1) inode_bitmap sb_copy
      end
  end.

Definition alloc_inode (inode_bitmap : list Z) (sb_copy : mesafs_superblock_t)
    : option (Z * list Z * mesafs_superblock_t) :=
  alloc_inode_loop (Z.to_nat (sb_total_inodes sb_copy - 2)) 2 inode_bitmap sb_copy.

(** The data-block scan, [n] iterations from [i].  [data_blocks] holds
    the first [blocks_allocated] entries of the C array. *)
Fixpoint alloc_blocks_loop (n : nat) (i : Z) (blocks_needed : Z)
    (block_bitmap : list Z) (sb_copy : mesafs_superblock_t) (data_blocks : list Z)
    : option (list Z * list Z * mesafs_superblock_t) :=
  match n with
  | O => Some (data_blocks, block_bitmap, sb_copy)
  | S n' =>
      if Z.of_nat (length data_blocks) <? blocks_needed then
        match bitmap_test block_bitmap i with
        | None => None
        | Some false =>
            alloc_blocks_loop n' (i + 1) blocks_needed
              (bitmap_set block_bitmap i) (dec_free_blocks sb_copy)
              (data_blocks ++ [i])
        | Some true =>
            alloc_blocks_loop n' (i + 1) blocks_needed
              block_bitmap sb_copy data_blocks
        end
      else Some (data_blocks, block_bitmap, sb_copy)
  end.

Definition alloc_blocks (blocks_needed : Z) (block_bitmap : list Z)
    (sb_copy : mesafs_superblock_t)
    : option (list Z * list Z * mesafs_superblock_t) :=
  alloc_blocks_loop (Z.to_nat (sb_total_blocks sb_copy - (MESAFS_DATA_START + 1)))
    (MESAFS_DATA_START + 1) blocks_needed block_bitmap sb_copy [].

(** One payload block: [chunk] bytes of the file from [offset], the rest
    of the block zero. *)
Definition payload_chunk (file_size offset : Z) : Z :=
  if MESAFS_BLOCK_SIZE <? file_size - offset
  then MESAFS_BLOCK_SIZE else file_size - offset.

Definition payload_block (file_data : list Z) (offset chunk : Z) : list Z :=
  overlay zero_block 0 (take (Z.to_nat chunk) (drop (Z.to_nat offset) file_data)).

Fixpoint write_payload (d : list (list Z)) (part_offset : Z) (file_data : list Z)
    (offset : Z) (data_blocks : list Z) : list (list Z) :=
  match data_blocks with
  | [] => d
  | b :: rest =>
      let chunk := payload_chunk (Z.of_nat (length file_data)) offset in
      let d := write_block d part_offset b (payload_block file_data offset chunk) in
      write_payload d part_offset file_data (wrap32 (offset + chunk)) rest
  end.

Definition file_inode_record (new_inode file_size : Z) (data_blocks : list Z)
    : mesafs_inode_t :=
  {| ino_inode_num := new_inode;
     ino_type := MESAFS_TYPE_FILE;
     ino_flags := MESAFS_FLAG_USED;
     ino_links := 1;
     ino_size := wrap32 file_size;
     ino_blocks_used := Z.of_nat (length data_blocks);
     ino_direct_blocks := data_blocks;
     ino_indirect_block := 0;
     ino_created := 0;
     ino_modified := 0 |}.

(** Where the injector keeps inode [n]: table block and index in it. *)
Definition locate (inode_number : Z) : Z * Z :=
  (wrap32 (MESAFS_INODE_TABLE_START + inode_number / 32), inode_number mod 32).

(** The free-slot scan; [None] is [free_slot = -1]. *)
Fixpoint find_free_slot_loop (n i : nat) (dir_block : list Z) : option nat :=
  match n with
  | O => None
  | S n' =>
      if get_u32 dir_block (i * SIZEOF_DIRENT) =? 0 then Some i
      else find_free_slot_loop n' (S i) dir_block
  end.

Definition max_entries : nat := Z.to_nat (MESAFS_BLOCK_SIZE / Z.of_nat SIZEOF_DIRENT).

Definition find_free_slot (dir_block : list Z) : option nat :=
  find_free_slot_loop max_entries 0 dir_block.

(** The four stores into [entries[free_slot]]. *)
Definition insert_entry (dir_block : list Z) (free_slot : nat)
    (new_inode : Z) (filename : list Z) : list Z :=
  let o := (free_slot * SIZEOF_DIRENT)%nat in
  let dir_block := overlay dir_block o (encode_u32 new_inode) in
  let dir_block := overlay dir_block (o + 4) [wrap8 MESAFS_TYPE_FILE] in
  let dir_block := overlay dir_block (o + 5) [wrap8 (strlen filename)] in
  overlay dir_block (o + 6) (strncpy MESAFS_MAX_FILENAME filename).

(** What the injector prints when it succeeds. *)
Record inject_report := {
  rp_inode : Z;
  rp_blocks : Z;
  rp_size : Z
}.

(** Steps from the inode record to the end; [block], [sb_copy] and
    [inode_bitmap] are the in-memory copies after both allocations. *)
Definition inject_commit (d : list (list Z)) (part_offset : Z)
    (file_size : Z) (filename : list Z)
    (block : list Z) (sb_copy : mesafs_superblock_t) (inode_bitmap : list Z)
    (new_inode : Z) (data_blocks : list Z) : outcome inject_report :=
  let inode_block_num := fst (locate new_inode) in
  let inode_index := Z.to_nat (snd (locate new_inode)) in
  let? inode_block := read_block d part_offset inode_block_num in
  let inode_block :=
    overlay inode_block (inode_index * SIZEOF_INODE)
      (encode_inode (file_inode_record new_inode file_size data_blocks)) in
  let d := write_block d part_offset inode_block_num inode_block in
  let? root_inode_block := read_block d part_offset MESAFS_INODE_TABLE_START in
  let root_dir_block := get_u32 root_inode_block (1 * SIZEOF_INODE + 16) in
  let? dir_block := read_block d part_offset root_dir_block in
  match find_free_slot dir_block with
  | None => Exit1 DirectoryFull d
  | Some free_slot =>
      let dir_block := insert_entry dir_block free_slot new_inode filename in
      let d := write_block d part_offset root_dir_block dir_block in
      let block := overlay block 0 (encode_superblock sb_copy) in
      let d := write_block d part_offset 0 block in
      let d := write_block d part_offset MESAFS_INODE_BITMAP_BLOCK inode_bitmap in
      Exit0 {| rp_inode := new_inode;
               rp_blocks := Z.of_nat (length data_blocks);
               rp_size := file_size |} d
  end.

(** Steps from the inode allocation on, the size check passed. *)
Definition inject_alloc (d : list (list Z)) (part_offset : Z)
    (file_data filename : list Z) (blocks_needed : Z)
    (block : list Z) (sb_copy : mesafs_superblock_t) (inode_bitmap : list Z)
    : outcome inject_report :=
  let? (new_inode, inode_bitmap, sb_copy) := alloc_inode inode_bitmap sb_copy in
  if new_inode =? 0 then Exit1 InsufficientInodes d else
  let? (data_blocks, block, sb_copy) := alloc_blocks blocks_needed block sb_copy in
  if Z.of_nat (length data_blocks) <? blocks_needed
  then Exit1 InsufficientBlocks d else
  let d := write_payload d part_offset file_data 0 data_blocks in
  inject_commit d part_offset (Z.of_nat (length file_data)) filename
    block sb_copy inode_bitmap new_inode data_blocks.

Definition inject (d : list (list Z)) (part_lba : Z)
    (file_data dest_path : list Z) : outcome inject_report :=
  if part_lba =? 0 then Exit1 NoPartitionFound d else
  let part_offset := wrap32 (part_lba * SECTOR_SIZE) in
  match read_block d part_offset 0 with
  | None => Exit1 StorageIOError d
  | Some block =>
      if negb (get_u32 block 0 =? MESAFS_MAGIC) then Exit1 InvalidMagic d else
      let sb_copy := decode_superblock block in
      match read_block d part_offset MESAFS_INODE_BITMAP_BLOCK with
      | None => Exit1 StorageIOError d
      | Some inode_bitmap =>
          let file_size := Z.of_nat (length file_data) in
          let filename := filename_of dest_path in
          let blocks_needed := blocks_needed_of file_size in
          if MESAFS_DIRECT_BLOCKS <? blocks_needed then Exit1 FileTooLarge d else
          inject_alloc d part_offset file_data filename blocks_needed
            block sb_copy inode_bitmap
      end
  end.

(** ** mesafs-list.c *)

Record dir_line := {
  ln_slot : nat;
  ln_inode : Z;
  ln_type : Z;
  ln_name : list Z
}.

Record listing := {
  ls_superblock : mesafs_superblock_t;
  ls_root_number : Z;
  ls_root : mesafs_inode_t;
  ls_lines : list dir_line
}.

(** The enumeration loop, [n] iterations from slot [i]. *)
Fixpoint list_entries (n i : nat) (block : list Z) : option (list dir_line) :=
  match n with
  | O => Some []
  | S n' =>
      let e := decode_dirent block i in
      if de_inode e =? 0 then list_entries n' (S i) block
      else
        name ← c_string_at block (i * SIZEOF_DIRENT + 6);
        rest ← list_entries n' (S i) block;
        Some ({| ln_slot := i; ln_inode := de_inode e;
                 ln_type := de_type e; ln_name := name |} :: rest)
  end.

(** The lister has one 4096-byte buffer.  [sb] points into it and stays
    in use after the inode-table block has been read into the same
    buffer: [sb->root_inode] in [&inodes[sb->root_inode]] is read from
    bytes 28..31 of the inode-table block. *)
Definition mesafs_list (d : list (list Z)) (part_lba : Z) : outcome listing :=
  if part_lba =? 0 then Exit1 NoPartitionFound d else
  let part_offset := wrap32 (part_lba * SECTOR_SIZE) in
  let? block := pread d part_offset in
  let printed_sb := decode_superblock block in
  if negb (get_u32 block 0 =? MESAFS_MAGIC) then Exit1 InvalidMagic d else
  let? block := pread d (format_pos part_offset MESAFS_INODE_TABLE_START) in
  let root_inode := sb_root_inode (decode_superblock block) in
  if negb (Z.of_nat SIZEOF_INODE * (root_inode + 1) <=? MESAFS_BLOCK_SIZE)
  then Unspecified else
  let root := decode_inode block (Z.to_nat root_inode) in
  let first_block := nth 0 (ino_direct_blocks root) 0 in
  let? block := pread d (block_pos part_offset first_block) in
  let? lines := list_entries max_entries 0 block in
  Exit0 {| ls_superblock := printed_sb; ls_root_number := root_inode;
           ls_root := root; ls_lines := lines |} d.

(** ** Well-formed volumes and the concrete volumes used below *)

Definition image_of {A : Type} (o : outcome A) : list (list Z) :=
  match o with
  | Exit0 _ d => d
  | Exit1 _ d => d
  | Unspecified => []
  end.

Definition report_of {A : Type} (o : outcome A) : option A :=
  match o with
  | Exit0 out _ => Some out
  | _ => None
  end.

Definition error_of {A : Type} (o : outcome A) : option error :=
  match o with
  | Exit1 e _ => Some e
  | _ => None
  end.

Definition bytes_of_string (s : string) : list Z :=
  map (fun a => Z.of_N (N_of_ascii a)) (list_ascii_of_string s).

Definition readable (d : list (list Z)) (part_offset block_num : Z) : bool :=
  bool_decide (is_Some (read_block d part_offset block_num)).

(** What every volume the formatter and the injector leave behind
    satisfies: the eleven metadata blocks are readable, block 0 starts
    with the magic, declares 256 inodes and has zero bytes at the start
    of the superblock's reserved area, and the root inode (index 1 of
    table block 2) points at block 10. *)
Definition volume_ok (d : list (list Z)) (part_lba : Z) : bool :=
  let part_offset := wrap32 (part_lba * SECTOR_SIZE) in
  negb (part_lba =? 0)
  && forallb (readable d part_offset) (seqZ 0 (MESAFS_DATA_START + 1))
  && match read_block d part_offset 0,
           read_block d part_offset MESAFS_INODE_TABLE_START with
     | Some block, Some root_inode_block =>
         (get_u32 block 0 =? MESAFS_MAGIC)
         && (sb_total_inodes (decode_superblock block) =? 256)
         && (byte_at block 36 =? 0) && (byte_at block 37 =? 0)
         && (get_u32 root_inode_block (1 * SIZEOF_INODE + 16) =? MESAFS_DATA_START)
     | _, _ => false
     end.

(** The blocks the payload loop writes, in order, [k] of them starting
    at file offset [offset]. *)
Fixpoint payload_blocks (file_data : list Z) (offset : Z) (k : nat) : list (list Z) :=
  match k with
  | O => []
  | S k' =>
      let chunk := payload_chunk (Z.of_nat (length file_data)) offset in
      payload_block file_data offset chunk
      :: payload_blocks file_data (wrap32 (offset + chunk)) k'
  end.

(** The image once the payload and the inode record are written: inode
    [new_inode] goes into table block [inode_table_block], read from the
    formatted volume. *)
Definition image_with_inode (d : list (list Z)) (part_offset : Z)
    (file_data : list Z) (new_inode : Z) (data_blocks inode_table_block : list Z)
    : list (list Z) :=
  write_block (write_payload d part_offset file_data 0 data_blocks) part_offset
    (MESAFS_INODE_TABLE_START + new_inode / 32)
    (overlay inode_table_block (Z.to_nat (new_inode mod 32) * SIZEOF_INODE)
       (encode_inode (file_inode_record new_inode
                        (Z.of_nat (length file_data)) data_blocks))).

(** The image a successful run leaves: directory block, block 0 and
    inode bitmap written on top of [image_with_inode]. *)
Definition image_with_entry (d2 : list (list Z)) (part_offset : Z)
    (dir_block : list Z) (free_slot : nat) (new_inode : Z) (filename : list Z)
    (block : list Z) (sb_copy : mesafs_superblock_t) (inode_bitmap : list Z)
    : list (list Z) :=
  write_block
    (write_block
       (write_block d2 part_offset MESAFS_DATA_START
          (insert_entry dir_block free_slot new_inode filename))
       part_offset 0 (overlay block 0 (encode_superblock sb_copy)))
    part_offset MESAFS_INODE_BITMAP_BLOCK inode_bitmap.

(** ** Reading the on-disk state of a volume *)

Definition disk_superblock (d : list (list Z)) (part_lba : Z)
    : option mesafs_superblock_t :=
  decode_superblock <$> read_block d (wrap32 (part_lba * SECTOR_SIZE)) 0.

(** Bit [n] of block 0 read as the block bitmap, the way the injector
    reads it. *)
Definition disk_block_bit (d : list (list Z)) (part_lba n : Z) : option bool :=
  block ← read_block d (wrap32 (part_lba * SECTOR_SIZE)) MESAFS_BLOCK_BITMAP_BLOCK;
  bitmap_test block n.

Definition disk_inode_bit (d : list (list Z)) (part_lba n : Z) : option bool :=
  ib ← read_block d (wrap32 (part_lba * SECTOR_SIZE)) MESAFS_INODE_BITMAP_BLOCK;
  bitmap_test ib n.

(** The record of inode [n], where the injector keeps it. *)
Definition disk_inode (d : list (list Z)) (part_lba n : Z) : option mesafs_inode_t :=
  (fun b => decode_inode b (Z.to_nat (snd (locate n))))
    <$> read_block d (wrap32 (part_lba * SECTOR_SIZE)) (fst (locate n)).

(** Slot [slot] of the root directory block (block 10). *)
Definition disk_dirent (d : list (list Z)) (part_lba : Z) (slot : nat)
    : option mesafs_dirent_t :=
  (fun b => decode_dirent b slot)
    <$> read_block d (wrap32 (part_lba * SECTOR_SIZE)) MESAFS_DATA_START.

(** The name in a slot as a C string. *)
Definition disk_entry_name (d : list (list Z)) (part_lba : Z) (slot : nat)
    : option (list Z) :=
  (fun e => c_string (de_name e)) <$> disk_dirent d part_lba slot.

(** The bytes of a file as its inode describes them: the direct blocks
    in order, cut to the recorded size. *)
Definition disk_file (d : list (list Z)) (part_lba n : Z) : option (list Z) :=
  ino ← disk_inode d part_lba n;
  blocks ← mapM (read_block d (wrap32 (part_lba * SECTOR_SIZE)))
             (take (Z.to_nat (ino_blocks_used ino)) (ino_direct_blocks ino));
  Some (take (Z.to_nat (ino_size ino)) (concat blocks)).

(** The inode the injector's scan would pick on the volume as it is on
    disk (0: none free). *)
Definition inode_picked (d : list (list Z)) (part_lba : Z) : option Z :=
  sb ← disk_superblock d part_lba;
  ib ← read_block d (wrap32 (part_lba * SECTOR_SIZE)) MESAFS_INODE_BITMAP_BLOCK;
  r ← alloc_inode ib sb;
  Some (fst (fst r)).

(** The 62 bytes the four stores of [insert_entry] put into a slot. *)
Definition entry_bytes (new_inode : Z) (filename : list Z) : list Z :=
  encode_u32 new_inode
  ++ [wrap8 MESAFS_TYPE_FILE; wrap8 (strlen filename)]
  ++ strncpy MESAFS_MAX_FILENAME filename.

(** The block the formatter leaves at index [k <= 10] of a volume. *)
Definition formatted_block (part_sectors k : Z) : list Z :=
  if k =? 0 then format_block0 (format_superblock (part_sectors / 8) 256)
  else if k =? 1 then format_inode_bitmap
  else if k =? 2 then format_inode_table0
  else zero_block.

(** Fields of the superblock copy that neither allocation scan touches. *)
Definition same_identity (a b : mesafs_superblock_t) : Prop :=
  sb_magic a = sb_magic b /\ sb_total_inodes a = sb_total_inodes b
  /\ sb_total_blocks a = sb_total_blocks b /\ sb_reserved a = sb_reserved b.

(** An empty image formatted for a partition at LBA 1 of 800 sectors
    (100 blocks). *)
Definition fresh_volume : list (list Z) := image_of (format [] 1 800).

(** The same with 88 sectors: 11 blocks, none left for file data. *)
Definition tiny_volume : list (list Z) := image_of (format [] 1 88).

Definition hello_volume : list (list Z) :=
  image_of (inject fresh_volume 1 [104; 105] (bytes_of_string "/hello.msa")).

(** Two injections in a row into the fresh volume. *)
Definition volume_a : list (list Z) :=
  image_of (inject fresh_volume 1 [1; 2; 3] (bytes_of_string "/a.msa")).

Definition volume_ab : list (list Z) :=
  image_of (inject volume_a 1 [9] (bytes_of_string "/b.msa")).

(** [n] one-byte files injected one after the other, named by a letter. *)
Fixpoint inject_many (n : nat) (d : list (list Z)) : list (list Z) :=
  match n with
  | O => d
  | S n' =>
      let d := inject_many n' d in
      image_of (inject d 1 [Z.of_nat n] [47; 65 + Z.of_nat n'])
  end.

(** The 100-block volume after 64 injections: its root directory has no
    free slot left. *)
Definition full_volume : list (list Z) := inject_many 64 fresh_volume.

(** A destination path of a slash and a hundred letters. *)
Definition long_path : list Z := 47 :: replicate 100 97.

(** A source file of 2^44 zero bytes (16 TiB). *)
Definition huge_size : nat := Z.to_nat (2 ^ 44).
Definition huge_file : list Z := replicate huge_size 0.

(** ** The partition scan

    Each of the three tools starts by reading the first 512 bytes of the
    image and scanning the four partition entries of the boot record for
    type 0x77.  The scan is a function of those 512 bytes. *)

(** [e[0] | (e[1] << 8) | (e[2] << 16) | (e[3] << 24)] stored in a
    [uint32_t]; the operands are promoted to [int], and the conversion of
    the result to 32 bits unsigned is the reduction modulo 2^32. *)
Definition mbr_u32 (mbr : list Z) (o : nat) : Z :=
  wrap32 (Z.lor (Z.lor (Z.lor (byte_at mbr o)
                               (Z.shiftl (byte_at mbr (o + 1)) 8))
                        (Z.shiftl (byte_at mbr (o + 2)) 16))
                 (Z.shiftl (byte_at mbr (o + 3)) 24)).

(** Type byte, start LBA and sector count of partition entry [i]. *)
Definition mbr_entry_type (mbr : list Z) (i : nat) : Z := byte_at mbr (446 + i * 16 + 4).
Definition mbr_entry_lba (mbr : list Z) (i : nat) : Z := mbr_u32 mbr (446 + i * 16 + 8).
Definition mbr_entry_sectors (mbr : list Z) (i : nat) : Z := mbr_u32 mbr (446 + i * 16 + 12).

(** The loop over the entries, [n] iterations from entry [i]; the pair is
    [(part_lba, part_sectors)], both 0 when the loop runs to its end. *)
Fixpoint find_partition_loop (n i : nat) (mbr : list Z) : Z * Z :=
  match n with
  | O => (0, 0)
  | S n' =>
      if mbr_entry_type mbr i =? 0x77
      then (mbr_entry_lba mbr i, mbr_entry_sectors mbr i)
      else find_partition_loop n' (S i) mbr
  end.

Definition find_partition (mbr : list Z) : Z * Z := find_partition_loop 4 0 mbr.

(** The tools from the boot record on. *)
Definition format_disk (mbr : list Z) (d : list (list Z)) : outcome unit :=
  format d (fst (find_partition mbr)) (snd (find_partition mbr)).

Definition inject_file (mbr : list Z) (d : list (list Z))
    (file_data dest_path : list Z) : outcome inject_report :=
  inject d (fst (find_partition mbr)) file_data dest_path.

Definition list_disk (mbr : list Z) (d : list (list Z)) : outcome listing :=
  mesafs_list d (fst (find_partition mbr)).

(** ** Volumes made by the tools *)

(** The images the formatter and successful runs of the injector make of
    a partition at [part_lba]: every run in the chain is a run whose
    partition scan returned [part_lba].  (The scan reads the first 512
    bytes of the image anew in every run; they stay as they are as long
    as no block written reaches byte 0, which the theorems about a later
    scan ask for.) *)
Inductive produced (part_lba : Z) : list (list Z) -> Prop :=
| produced_format (d : list (list Z)) (part_sectors : Z) :
    part_lba <> 0 ->
    produced part_lba (image_of (format d part_lba part_sectors))
| produced_inject (d : list (list Z)) (file_data dest_path : list Z)
    (r : inject_report) (d' : list (list Z)) :
    produced part_lba d ->
    inject d part_lba file_data dest_path = Exit0 r d' ->
    produced part_lba d'.

(** Block 0 of a volume: the superblock, zeros after it. *)
Definition block0_of (sb : mesafs_superblock_t) : list Z :=
  overlay zero_block 0 (encode_superblock sb).

(** What such a volume keeps besides being well formed: block 0 is a
    superblock with the magic, version 1 and a zero reserved area,
    followed by zeros, and the record of inode 0 in the inode table is
    zero. *)
Definition plain_volume (d : list (list Z)) (part_lba : Z) : Prop :=
  volume_ok d part_lba = true
  /\ exists sb itb,
       read_block d (wrap32 (part_lba * SECTOR_SIZE)) 0 = Some (block0_of sb)
       /\ sb_magic sb = MESAFS_MAGIC
       /\ sb_version sb = MESAFS_VERSION
       /\ sb_reserved sb = replicate 476 0
       /\ read_block d (wrap32 (part_lba * SECTOR_SIZE)) MESAFS_INODE_TABLE_START
          = Some itb
       /\ take SIZEOF_INODE itb = replicate SIZEOF_INODE 0.

(** A boot record whose second entry is the MesaFS partition: type 0x83
    at LBA 2048 first, then type 0x77 at LBA 1 with 800 sectors. *)
Definition sample_mbr : list Z :=
  replicate 446 0
  ++ [0; 0; 0; 0; 131; 0; 0; 0; 0; 8; 0; 0; 0; 16; 0; 0]
  ++ [0; 0; 0; 0; 119; 0; 0; 0; 1; 0; 0; 0; 32; 3; 0; 0]
  ++ replicate 32 0 ++ [85; 170].

(** ** msa-create.c

    The package builder walks a directory, records every directory and
    regular file it finds, and writes a header, the table of the
    records and the bytes of the regular files.  The walk itself
    ([opendir], [readdir], [stat], [fopen], [fread]) is the host's; the
    model takes its outcome, the entries in the order the recursive walk
    meets them. *)

Definition MSA_MAGIC : Z := 0x4153454D.
Definition MSA_VERSION : Z := 1.
Definition MSA_NAME_MAX : nat := 64.
Definition MSA_PATH_MAX : nat := 256.
Definition MSA_DESC_MAX : nat := 256.
Definition MSA_MAX_FILES : nat := 256.
Definition MSA_MAX_DEPS : nat := 16.

(** [sizeof] of the two packed structs. *)
Definition SIZEOF_MSA_HEADER : nat := 1578.
Definition SIZEOF_MSA_FILE_ENTRY : nat := 324.

(** [crc = (crc >> 1) ^ (0xEDB88320 & -(crc & 1))] on a [uint32_t]. *)
Definition crc32_shift (crc : Z) : Z :=
  Z.lxor (Z.shiftr crc 1) (Z.land 0xEDB88320 (wrap32 (- Z.land crc 1))).

(** The body of the outer loop: [crc ^= data[i]] and eight shifts. *)
Definition crc32_byte (crc b : Z) : Z := Nat.iter 8 crc32_shift (Z.lxor crc b).

Definition calculate_crc32 (data : list Z) : Z :=
  wrap32 (Z.lnot (foldl crc32_byte 0xFFFFFFFF data)).

(** A [char] array of [n] bytes, zeroed and then filled by
    [strncpy (field, s, n - 1)]. *)
Definition char_field (n : nat) (s : list Z) : list Z :=
  strncpy (n - 1) s ++ [0].

(** [msa_file_entry_t]; its 54 reserved bytes stay zero. *)
Record msa_file_entry_t := {
  fe_path : list Z;
  fe_size : Z;
  fe_offset : Z;
  fe_mode : Z;
  fe_type : Z;
  fe_executable : Z
}.

Definition encode_msa_file_entry (f : msa_file_entry_t) : list Z :=
  take MSA_PATH_MAX (fe_path f ++ replicate MSA_PATH_MAX 0)
  ++ encode_u32 (fe_size f) ++ encode_u32 (fe_offset f) ++ encode_u32 (fe_mode f)
  ++ [wrap8 (fe_type f)] ++ [wrap8 (fe_executable f)]
  ++ replicate 54 0.

(** What the walk meets, once [stat] has succeeded on it: a directory
    (with whether [opendir] on it succeeds), a regular file that could
    be read in full (with its bytes), or anything else (another kind of
    file, or a regular file that could not be opened or read). *)
Inductive found :=
| found_dir (install_path : list Z) (st_mode : Z) (opened : bool)
| found_file (install_path : list Z) (st_mode : Z) (data : list Z)
| found_other.

(** The record of a directory. *)
Definition dir_entry (install_path : list Z) (st_mode : Z) : msa_file_entry_t :=
  {| fe_path := char_field MSA_PATH_MAX install_path;
     fe_size := 0;
     fe_offset := 0;
     fe_mode := wrap32 (Z.land st_mode 511);
     fe_type := 1;
     fe_executable := 0 |}.

(** The record of a regular file: [st_size] is narrowed to 32 bits. *)
Definition file_entry (install_path : list Z) (st_mode : Z) (data : list Z)
    : msa_file_entry_t :=
  {| fe_path := char_field MSA_PATH_MAX install_path;
     fe_size := wrap32 (Z.of_nat (length data));
     fe_offset := 0;
     fe_mode := wrap32 (Z.land st_mode 511);
     fe_type := 0;
     fe_executable := if Z.land st_mode 64 =? 0 then 0 else 1 |}.

(** [scan_directory] over the entries met: [files] and [file_data] side
    by side, and [total_data_size].  [None] is the return value -1: the
    table is full when another entry arrives, or a directory cannot be
    opened. *)
Fixpoint scan_directory (items : list found)
    (files : list (msa_file_entry_t * option (list Z))) (total_data_size : Z)
    : option (list (msa_file_entry_t * option (list Z)) * Z) :=
  match items with
  | [] => Some (files, total_data_size)
  | item :: rest =>
      if decide (MSA_MAX_FILES <= length files)%nat then None else
      match item with
      | found_dir install_path st_mode opened =>
          if opened
          then scan_directory rest
                 (files ++ [(dir_entry install_path st_mode, None)]) total_data_size
          else None
      | found_file install_path st_mode data =>
          scan_directory rest
            (files ++ [(file_entry install_path st_mode data, Some data)])
            (wrap32 (total_data_size + Z.of_nat (length data)))
      | found_other => scan_directory rest files total_data_size
      end
  end.

(** The offset loop of [main]: regular files get consecutive offsets. *)
Fixpoint assign_offsets (files : list (msa_file_entry_t * option (list Z)))
    (current_offset : Z) : list (msa_file_entry_t * option (list Z)) :=
  match files with
  | [] => []
  | (f, data) :: rest =>
      if fe_type f =? 0
      then ({| fe_path := fe_path f; fe_size := fe_size f;
               fe_offset := current_offset; fe_mode := fe_mode f;
               fe_type := fe_type f; fe_executable := fe_executable f |}, data)
           :: assign_offsets rest (wrap32 (current_offset + fe_size f))
      else (f, data) :: assign_offsets rest current_offset
  end.

(** The command line, parsed: at most [MSA_MAX_DEPS] dependencies are
    kept. *)
Record msa_options := {
  opt_name : list Z;
  opt_version : list Z;
  opt_author : list Z;
  opt_description : list Z;
  opt_deps : list (list Z)
}.

Definition kept_deps (o : msa_options) : list (list Z) := take MSA_MAX_DEPS (opt_deps o).

(** [msa_header_t] as written: 1578 bytes. *)
Definition encode_msa_header (o : msa_options)
    (num_files total_size header_size checksum : Z) : list Z :=
  encode_u32 MSA_MAGIC ++ encode_u32 MSA_VERSION
  ++ char_field MSA_NAME_MAX (opt_name o)
  ++ char_field 16 (opt_version o)
  ++ char_field MSA_NAME_MAX (opt_author o)
  ++ char_field MSA_DESC_MAX (opt_description o)
  ++ encode_u32 num_files ++ encode_u32 total_size ++ encode_u32 header_size
  ++ encode_u16 (Z.of_nat (length (kept_deps o)))
  ++ take (MSA_MAX_DEPS * MSA_NAME_MAX)
       (flat_map (char_field MSA_NAME_MAX) (kept_deps o)
        ++ replicate (MSA_MAX_DEPS * MSA_NAME_MAX) 0)
  ++ encode_u32 checksum ++ replicate 128 0.

(** What the data loop writes for one record. *)
Definition file_bytes (f : msa_file_entry_t * option (list Z)) : list Z :=
  match f with
  | (e, Some data) => if fe_type e =? 0 then take (Z.to_nat (fe_size e)) data else []
  | (_, None) => []
  end.

Definition msa_header_size (file_count : nat) : Z :=
  wrap32 (Z.of_nat SIZEOF_MSA_HEADER
          + Z.of_nat file_count * Z.of_nat SIZEOF_MSA_FILE_ENTRY).

(** The output file for a given value of the header's checksum field. *)
Definition msa_package (o : msa_options)
    (files : list (msa_file_entry_t * option (list Z))) (total_data_size : Z)
    (checksum : Z) : list Z :=
  let header_size := msa_header_size (length files) in
  let files := assign_offsets files header_size in
  encode_msa_header o (Z.of_nat (length files)) total_data_size header_size checksum
  ++ flat_map (fun f => encode_msa_file_entry (fst f)) files
  ++ flat_map file_bytes files.

(** [main] from the scan on.  The output is written with a zero checksum
    first.  The stream is open for writing only, so the [fread] that
    should load the file back fails and leaves the fresh [malloc] buffer
    as it was; [heap] is what that buffer holds.  The checksum is taken
    over it and the header is written again.  [None]: the scan failed
    and nothing is written. *)
Definition msa_create (o : msa_options) (items : list found) (heap : list Z)
    : option (list Z) :=
  match scan_directory items [] 0 with
  | None => None
  | Some (files, total_data_size) =>
      let total_size := length (msa_package o files total_data_size 0) in
      Some (msa_package o files total_data_size
              (calculate_crc32 (take total_size heap)))
  end.

(** What the scan records for one entry met, and the bytes the entry
    adds to the package. *)
Definition record_of (item : found) : option (msa_file_entry_t * option (list Z)) :=
  match item with
  | found_dir install_path st_mode _ => Some (dir_entry install_path st_mode, None)
  | found_file install_path st_mode data =>
      Some (file_entry install_path st_mode data, Some data)
  | found_other => None
  end.

Definition found_bytes (item : found) : nat :=
  match item with
  | found_file _ _ data => length data
  | _ => 0%nat
  end.

Definition dir_opened (item : found) : bool :=
  match item with
  | found_dir _ _ opened => opened
  | _ => true
  end.

(** A record with the size of its data: what the scan leaves for every
    file below 4 GiB and for every directory. *)
Definition well_recorded (f : msa_file_entry_t * option (list Z)) : Prop :=
  match f with
  | (e, Some data) => fe_type e = 0 /\ fe_size e = Z.of_nat (length data)
  | (e, None) => fe_type e = 1
  end.

(** A small package: a directory, an executable of three bytes in it, a
    socket, and an empty file. *)
Definition sample_options : msa_options :=
  {| opt_name := bytes_of_string "hello";
     opt_version := bytes_of_string "0.1.0";
     opt_author := bytes_of_string "MesaOS User";
     opt_description := bytes_of_string "hello package for MesaOS";
     opt_deps := [] |}.

Definition sample_items : list found :=
  [ found_dir (bytes_of_string "/bin") 493 true;
    found_file (bytes_of_string "/bin/hello") 493 [127; 69; 76];
    found_other;
    found_file (bytes_of_string "/empty") 420 [] ].

Definition sample_package : list Z :=
  default [] (msa_create sample_options sample_items []).

(** ** Proof automation *)

(** * Properties *)

(** * Bits and bytes *)

Lemma land_bit_eqb (b k : Z) :
  0 <= k -> (Z.land b (Z.shiftl 1 k) =? 0) = negb (Z.testbit b k).
Proof.
  intros Hk. rewrite Z.shiftl_1_l.
  destruct (Z.testbit b k) eqn:Hb; simpl.
  - apply Z.eqb_neq. intros H0.
    assert (Z.testbit (Z.land b (2 ^ k)) k = true) as Ht
      by (rewrite Z.land_spec, Hb, Z.pow2_bits_true; auto).
    rewrite H0, Z.bits_0 in Ht. discriminate.
  - apply Z.eqb_eq. apply Z.bits_inj'. intros j Hj.
    rewrite Z.land_spec, Z.bits_0, Z.pow2_bits_eqb by lia.
    destruct (Z.eqb_spec k j) as [->|]; [rewrite Hb|]; auto using andb_false_r.
Qed.

Lemma bitmap_test_testbit (bitmap : list Z) (bit : Z) :
  bitmap_test bitmap bit
  = (fun b => Z.testbit b (bit mod 8)) <$> bitmap !! Z.to_nat (bit / 8).
Proof.
  unfold bitmap_test. destruct (bitmap !! _); simpl; [|done].
  rewrite land_bit_eqb, negb_involutive; [done|].
  apply Z.mod_pos_bound; lia.
Qed.

Lemma testbit_set_byte (b k j : Z) :
  0 <= k < 8 -> 0 <= j < 8 ->
  Z.testbit (wrap8 (Z.lor b (Z.shiftl 1 k))) j
  = if decide (k = j) then true else Z.testbit b j.
Proof.
  intros Hk Hj. unfold wrap8.
  rewrite Z.mod_pow2_bits_low, Z.lor_spec, Z.shiftl_1_l, Z.pow2_bits_eqb by lia.
  case_decide as E.
  - subst. rewrite Z.eqb_refl. apply orb_true_r.
  - destruct (Z.eqb_spec k j); [done|]. apply orb_false_r.
Qed.

Lemma length_bitmap_set (bitmap : list Z) (bit : Z) :
  length (bitmap_set bitmap bit) = length bitmap.
Proof. apply length_alter. Qed.

Lemma bit_index_inj (i j : Z) :
  0 <= i -> 0 <= j -> Z.to_nat (i / 8) = Z.to_nat (j / 8) -> i mod 8 = j mod 8 -> i = j.
Proof.
  intros Hi Hj Hd Hm.
  assert (i / 8 = j / 8) by (apply Z2Nat.inj; auto; apply Z.div_pos; lia).
  rewrite (Z.div_mod i 8), (Z.div_mod j 8) by lia. congruence.
Qed.

Lemma bitmap_test_set_same (bitmap : list Z) (bit : Z) :
  0 <= bit -> is_Some (bitmap_test bitmap bit) ->
  bitmap_test (bitmap_set bitmap bit) bit = Some true.
Proof.
  intros Hb. rewrite !bitmap_test_testbit. unfold bitmap_set.
  rewrite list_lookup_alter. case_decide; [|done].
  intros [x Hx]. destruct (bitmap !! _); [|done]. simpl.
  rewrite testbit_set_byte by (apply Z.mod_pos_bound; lia).
  by rewrite decide_True.
Qed.

Lemma bitmap_test_set_other (bitmap : list Z) (i j : Z) :
  0 <= i -> 0 <= j -> i <> j ->
  bitmap_test (bitmap_set bitmap i) j = bitmap_test bitmap j.
Proof.
  intros Hi Hj Hne. rewrite !bitmap_test_testbit. unfold bitmap_set.
  rewrite list_lookup_alter. case_decide as E; [|done].
  rewrite E. destruct (bitmap !! _); [|done]. simpl. f_equal.
  rewrite testbit_set_byte by (apply Z.mod_pos_bound; lia).
  case_decide as E'; [|done].
  exfalso. apply Hne. by apply bit_index_inj.
Qed.

(** Setting a bit changes no byte other than the one that holds it. *)
Lemma lookup_bitmap_set_ne (bitmap : list Z) (bit : Z) (k : nat) :
  Z.to_nat (bit / 8) <> k -> bitmap_set bitmap bit !! k = bitmap !! k.
Proof.
  intros. unfold bitmap_set. rewrite list_lookup_alter. by rewrite decide_False.
Qed.

(** * Buffers *)

Lemma length_encode_u32 v : length (encode_u32 v) = 4%nat.
Proof. done. Qed.

Lemma length_overlay (buf : list Z) (off : nat) (src : list Z) :
  (off + length src <= length buf)%nat ->
  length (overlay buf off src) = length buf.
Proof.
  intros. unfold overlay. rewrite !length_app, length_take, length_drop. lia.
Qed.

Lemma lookup_overlay (buf : list Z) (off : nat) (src : list Z) (i : nat) :
  (off <= length buf)%nat ->
  overlay buf off src !! i
  = if decide (i < off)%nat then buf !! i
    else if decide (i < off + length src)%nat then src !! (i - off)%nat
    else buf !! i.
Proof.
  intros Hoff. unfold overlay.
  case_decide as H1.
  - rewrite lookup_app_l by (rewrite length_take; lia).
    rewrite lookup_take. by rewrite decide_True.
  - rewrite lookup_app_r by (rewrite length_take; lia).
    rewrite length_take, Nat.min_l by lia.
    case_decide as H2.
    + rewrite lookup_app_l by lia. done.
    + rewrite lookup_app_r by lia. rewrite lookup_drop. f_equal. lia.
Qed.

Lemma byte_at_overlay (buf : list Z) (off : nat) (src : list Z) (i : nat) :
  (off <= length buf)%nat ->
  byte_at (overlay buf off src) i
  = if decide (off <= i < off + length src)%nat then byte_at src (i - off)
    else byte_at buf i.
Proof.
  intros. unfold byte_at. rewrite lookup_overlay by done.
  repeat case_decide; try done; lia.
Qed.

Lemma get_u32_overlay_out (buf : list Z) (off : nat) (src : list Z) (o : nat) :
  (off <= length buf)%nat ->
  (o + 4 <= off \/ off + length src <= o)%nat ->
  get_u32 (overlay buf off src) o = get_u32 buf o.
Proof.
  intros. unfold get_u32. rewrite !byte_at_overlay by done.
  repeat case_decide; try done; lia.
Qed.

Lemma get_u32_overlay_in (buf : list Z) (off : nat) (src : list Z) (o : nat) :
  (off <= length buf)%nat ->
  (off <= o /\ o + 4 <= off + length src)%nat ->
  get_u32 (overlay buf off src) o = get_u32 src (o - off).
Proof.
  intros. unfold get_u32. rewrite !byte_at_overlay by done.
  repeat case_decide; try lia.
  repeat f_equal; lia.
Qed.

Lemma overlay_0_app (buf src : list Z) :
  overlay buf 0 src = src ++ drop (length src) buf.
Proof. done. Qed.

Lemma take_drop_overlay (buf : list Z) (off : nat) (src : list Z) :
  (off <= length buf)%nat ->
  take (length src) (drop off (overlay buf off src)) = src.
Proof.
  intros. unfold overlay.
  rewrite drop_app_length' by (rewrite length_take; lia).
  by rewrite take_app_length.
Qed.

Lemma le_bytes_sum (v : Z) :
  v mod 256 + 256 * ((v / 256) mod 256) + 65536 * ((v / 65536) mod 256)
  + 16777216 * ((v / 16777216) mod 256) = v mod 4294967296.
Proof.
  assert (v mod 4294967296 = v mod 65536 + 65536 * ((v / 65536) mod 65536)) as H1
    by (exact (Z.rem_mul_r v 65536 65536 ltac:(lia) ltac:(lia))).
  assert (v mod 65536 = v mod 256 + 256 * ((v / 256) mod 256)) as H2
    by (exact (Z.rem_mul_r v 256 256 ltac:(lia) ltac:(lia))).
  assert ((v / 65536) mod 65536
          = (v / 65536) mod 256 + 256 * ((v / 65536 / 256) mod 256)) as H3
    by (exact (Z.rem_mul_r (v / 65536) 256 256 ltac:(lia) ltac:(lia))).
  assert (v / 65536 / 256 = v / 16777216) as H4
    by (rewrite Z.div_div by lia; reflexivity).
  rewrite H1, H2, H3, H4. lia.
Qed.

Lemma get_u32_encode_u32 (v : Z) (rest : list Z) :
  get_u32 (encode_u32 v ++ rest) 0 = wrap32 v.
Proof.
  unfold get_u32, byte_at, wrap32, encode_u32.
  cbn [app lookup list_lookup from_option id Nat.add].
  change (2 ^ 8) with 256. change (2 ^ 16) with 65536.
  change (2 ^ 24) with 16777216. change (2 ^ 32) with 4294967296.
  apply le_bytes_sum.
Qed.

(** * The disk image *)

Lemma wrap32_range (z : Z) : 0 <= wrap32 z < 2 ^ 32.
Proof. apply Z.mod_pos_bound. lia. Qed.

Lemma wrap32_small (z : Z) : 0 <= z < 2 ^ 32 -> wrap32 z = z.
Proof. apply Z.mod_small. Qed.

Lemma block_pos_wrap (po n : Z) :
  block_pos po n = wrap32 (po + n * MESAFS_BLOCK_SIZE).
Proof. unfold block_pos, wrap32. apply Z.add_mod_idemp_r. lia. Qed.

Lemma format_pos_block_pos (po k : Z) : format_pos po k = block_pos po k.
Proof. by rewrite block_pos_wrap. Qed.

(** The extent a block lands on: block numbers count modulo 2^20 from
    the extent of the partition start. *)
Lemma extent_block_pos (po n : Z) :
  0 <= po -> 0 <= n ->
  extent_of (block_pos po n) = Z.to_nat ((po / 4096 + n) mod 2 ^ 20).
Proof.
  intros Hpo Hn. rewrite block_pos_wrap.
  unfold extent_of, wrap32, MESAFS_BLOCK_SIZE. f_equal.
  pose proof (Z.div_mod (po + n * 4096) (2 ^ 32) ltac:(lia)) as H1.
  pose proof (Z.mod_pos_bound (po + n * 4096) (2 ^ 32) ltac:(lia)) as B1.
  pose proof (Z.div_mod po 4096 ltac:(lia)) as H2.
  pose proof (Z.mod_pos_bound po 4096 ltac:(lia)) as B2.
  pose proof (Z.div_mod (po / 4096 + n) (2 ^ 20) ltac:(lia)) as H3.
  pose proof (Z.mod_pos_bound (po / 4096 + n) (2 ^ 20) ltac:(lia)) as B3.
  symmetry. apply (Z.div_unique _ _ _ (po mod 4096)); lia.
Qed.

Lemma extent_block_pos_inj (po n m : Z) :
  0 <= po -> 0 <= n < 2 ^ 20 -> 0 <= m < 2 ^ 20 ->
  extent_of (block_pos po n) = extent_of (block_pos po m) -> n = m.
Proof.
  intros Hpo Hn Hm. rewrite !extent_block_pos by lia. intros H.
  apply Z2Nat.inj in H; try (apply Z.mod_pos_bound; lia).
  pose proof (Z.div_mod (po / 4096 + n) (2 ^ 20) ltac:(lia)).
  pose proof (Z.div_mod (po / 4096 + m) (2 ^ 20) ltac:(lia)).
  lia.
Qed.

Lemma pread_length (d : list (list Z)) (pos : Z) (b : list Z) :
  pread d pos = Some b -> Z.of_nat (length b) = MESAFS_BLOCK_SIZE.
Proof.
  unfold pread. destruct (d !! extent_of pos); [|discriminate].
  case_decide; congruence.
Qed.

Lemma read_block_length (d : list (list Z)) (po n : Z) (b : list Z) :
  read_block d po n = Some b -> Z.of_nat (length b) = MESAFS_BLOCK_SIZE.
Proof. apply pread_length. Qed.

Lemma length_grow (d : list (list Z)) (k : nat) :
  (k < length (grow d k))%nat.
Proof. unfold grow. rewrite length_app, length_replicate. lia. Qed.

Lemma pread_pwrite_eq (d : list (list Z)) (pos pos' : Z) (buf : list Z) :
  extent_of pos = extent_of pos' -> Z.of_nat (length buf) = MESAFS_BLOCK_SIZE ->
  pread (pwrite d pos buf) pos' = Some buf.
Proof.
  intros He Hlen. unfold pread, pwrite. rewrite <- He.
  rewrite list_lookup_insert_eq by apply length_grow.
  by rewrite decide_True.
Qed.

Lemma pread_pwrite_ne (d : list (list Z)) (pos pos' : Z) (buf b : list Z) :
  extent_of pos <> extent_of pos' -> pread d pos' = Some b ->
  pread (pwrite d pos buf) pos' = Some b.
Proof.
  intros Hne. unfold pread, pwrite.
  rewrite list_lookup_insert_ne by done.
  destruct (d !! extent_of pos') as [x|] eqn:Hx; [|discriminate].
  unfold grow. rewrite lookup_app_l by (eapply lookup_lt_Some, Hx).
  rewrite Hx. auto.
Qed.

Lemma read_write_eq (d : list (list Z)) (po n m : Z) (buf : list Z) :
  extent_of (block_pos po n) = extent_of (block_pos po m) ->
  Z.of_nat (length buf) = MESAFS_BLOCK_SIZE ->
  read_block (write_block d po n buf) po m = Some buf.
Proof. apply pread_pwrite_eq. Qed.

Lemma read_write_ne (d : list (list Z)) (po n m : Z) (buf b : list Z) :
  extent_of (block_pos po n) <> extent_of (block_pos po m) ->
  read_block d po m = Some b ->
  read_block (write_block d po n buf) po m = Some b.
Proof. apply pread_pwrite_ne. Qed.

(** * The formatter's image *)

Lemma length_encode_superblock (sb : mesafs_superblock_t) :
  length (encode_superblock sb) = (36 + length (sb_reserved sb))%nat.
Proof. unfold encode_superblock. rewrite !length_app. simpl. lia. Qed.

Lemma format_block0_split (total_blocks total_inodes : Z) :
  format_block0 (format_superblock total_blocks total_inodes)
  = encode_superblock (format_superblock total_blocks total_inodes)
    ++ drop 512 zero_block.
Proof.
  unfold format_block0. rewrite overlay_0_app, length_encode_superblock.
  apply (f_equal (fun t => _ ++ t)). by vm_compute.
Qed.

Lemma length_format_block0 (total_blocks total_inodes : Z) :
  Z.of_nat (length (format_block0 (format_superblock total_blocks total_inodes)))
  = MESAFS_BLOCK_SIZE.
Proof.
  rewrite format_block0_split, length_app, length_encode_superblock.
  by vm_compute.
Qed.

Lemma length_formatted_block (part_sectors k : Z) :
  Z.of_nat (length (formatted_block part_sectors k)) = MESAFS_BLOCK_SIZE.
Proof.
  unfold formatted_block.
  destruct (k =? 0); [apply length_format_block0|].
  destruct (k =? 1); [by vm_compute|].
  destruct (k =? 2); by vm_compute.
Qed.

Ltac extent_neq :=
  let H := fresh in
  intros H; rewrite ?format_pos_block_pos in H;
  apply extent_block_pos_inj in H;
  [ discriminate H || lia
  | apply wrap32_range
  | unfold MESAFS_BLOCK_BITMAP_BLOCK, MESAFS_INODE_BITMAP_BLOCK,
      MESAFS_INODE_TABLE_START, MESAFS_DATA_START in *; lia
  | unfold MESAFS_BLOCK_BITMAP_BLOCK, MESAFS_INODE_BITMAP_BLOCK,
      MESAFS_INODE_TABLE_START, MESAFS_DATA_START in *; lia ].

Lemma format_exit0 (d : list (list Z)) (part_lba part_sectors : Z) :
  part_lba <> 0 ->
  exists d', format d part_lba part_sectors = Exit0 tt d'.
Proof.
  intros Hlba. unfold format.
  destruct (Z.eqb_spec part_lba 0); [done|]. eauto.
Qed.

Lemma format_read (d : list (list Z)) (part_lba part_sectors k : Z) :
  part_lba <> 0 -> 0 <= k <= 10 ->
  read_block (image_of (format d part_lba part_sectors))
             (wrap32 (part_lba * SECTOR_SIZE)) k
  = Some (formatted_block part_sectors k).
Proof.
  intros Hlba Hk. unfold format.
  destruct (Z.eqb_spec part_lba 0); [done|].
  set (po := wrap32 (part_lba * SECTOR_SIZE)).
  change (seqZ 1 (MESAFS_INODE_TABLE_BLOCKS - 1)) with [1; 2; 3; 4; 5; 6; 7].
  cbn [foldl image_of]. unfold read_block.
  rewrite <- format_pos_block_pos.
  assert (k = 0 \/ k = 1 \/ k = 2 \/ k = 3 \/ k = 4 \/ k = 5 \/ k = 6
          \/ k = 7 \/ k = 8 \/ k = 9 \/ k = 10) as Hcases by lia.
  unfold MESAFS_BLOCK_BITMAP_BLOCK, MESAFS_INODE_BITMAP_BLOCK,
    MESAFS_INODE_TABLE_START, MESAFS_DATA_START.
  change (2 + 1) with 3. change (2 + 2) with 4. change (2 + 3) with 5.
  change (2 + 4) with 6. change (2 + 5) with 7. change (2 + 6) with 8.
  change (2 + 7) with 9.
  unfold formatted_block.
  repeat (destruct Hcases as [-> | Hcases]); try subst k;
    cbn [Z.eqb Pos.eqb];
    repeat lazymatch goal with
      | |- pread (pwrite _ ?p _) ?q = Some _ =>
          first
            [ constr_eq p q; apply pread_pwrite_eq;
              [ reflexivity
              | lazymatch goal with
                | |- Z.of_nat (length (format_block0 _)) = _ =>
                    apply length_format_block0
                | _ => by vm_compute
                end ]
            | apply pread_pwrite_ne; [subst po; extent_neq|] ]
      end.
Qed.

(** * The two allocation scans *)

Lemma bitmap_test_in_range (bitmap : list Z) (bit : Z) :
  0 <= bit < 8 * Z.of_nat (length bitmap) -> is_Some (bitmap_test bitmap bit).
Proof.
  intros H. unfold bitmap_test.
  destruct (lookup_lt_is_Some_2 bitmap (Z.to_nat (bit / 8))) as [x ->];
    [|by eexists].
  apply Nat2Z.inj_lt. rewrite Z2Nat.id by (apply Z.div_pos; lia).
  apply Z.div_lt_upper_bound; lia.
Qed.

Lemma alloc_inode_loop_spec (n : nat) (i : Z) (ib : list Z) (sb : mesafs_superblock_t) :
  0 <= i -> i + Z.of_nat n <= 8 * Z.of_nat (length ib) ->
  alloc_inode_loop n i ib sb = Some (0, ib, sb)
  \/ exists k, i <= k < i + Z.of_nat n /\ bitmap_test ib k = Some false
       /\ alloc_inode_loop n i ib sb
          = Some (k, bitmap_set ib k, dec_free_inodes sb).
Proof.
  revert i. induction n as [|n IH]; intros i Hi Hn; [by left|].
  cbn [alloc_inode_loop].
  destruct (bitmap_test_in_range ib i) as [b Hb]; [lia|]. rewrite Hb.
  destruct b.
  - destruct (IH (i + 1)) as [H | (k & Hk & Hf & H)]; [lia | lia | by left |].
    right. exists k. split; [lia|]. by split.
  - right. exists i. split; [lia|]. by split.
Qed.

(** Whatever the buffer, the inode the scan settles on tested free. *)
Lemma alloc_inode_loop_found (n : nat) (i : Z) (ib ib' : list Z)
    (sb sb' : mesafs_superblock_t) (k : Z) :
  alloc_inode_loop n i ib sb = Some (k, ib', sb') -> k <> 0 ->
  bitmap_test ib k = Some false /\ ib' = bitmap_set ib k
  /\ sb' = dec_free_inodes sb /\ i <= k < i + Z.of_nat n.
Proof.
  revert i. induction n as [|n IH]; intros i H Hk; cbn [alloc_inode_loop] in H.
  - congruence.
  - destruct (bitmap_test ib i) as [[]|] eqn:Hb; [|injection H as <- <- <-|discriminate].
    + destruct (IH _ H Hk) as (? & ? & ? & ?). repeat split; auto; lia.
    + repeat split; auto; lia.
Qed.

Lemma same_identity_refl (a : mesafs_superblock_t) : same_identity a a.
Proof. by repeat split. Qed.

Lemma same_identity_dec_free_blocks (a b : mesafs_superblock_t) :
  same_identity a (dec_free_blocks b) -> same_identity a b.
Proof. intros H. exact H. Qed.

Lemma alloc_blocks_loop_spec (n : nat) (i needed : Z) (bm : list Z)
    (sb : mesafs_superblock_t) (acc : list Z) :
  11 <= i ->
  128 <= Z.of_nat (length bm) ->
  needed - Z.of_nat (length acc) <= 298 - Z.max i 288 ->
  needed - Z.of_nat (length acc) <= 10 ->
  (forall j, Z.max i 288 <= j < 298 -> bitmap_test bm j = Some false) ->
  exists blocks bm' sb',
    alloc_blocks_loop n i needed bm sb acc = Some (acc ++ blocks, bm', sb')
    /\ Forall (fun b => i <= b < 298) blocks
    /\ NoDup blocks
    /\ length bm' = length bm
    /\ same_identity sb' sb
    /\ (Z.of_nat (length (acc ++ blocks)) <= needed \/ blocks = []).
Proof.
  revert i bm sb acc.
  induction n as [|n IH]; intros i bm sb acc Hi Hlen Hroom Hten Hclear.
  { exists [], bm, sb. rewrite app_nil_r.
    split_and!; auto using NoDup_nil_2, same_identity_refl. }
  cbn [alloc_blocks_loop].
  destruct (Z.ltb_spec (Z.of_nat (length acc)) needed) as [Hlt|Hge].
  2:{ exists [], bm, sb. rewrite app_nil_r.
      split_and!; auto using NoDup_nil_2, same_identity_refl. }
  assert (i < 298) as Hi' by lia.
  destruct (bitmap_test_in_range bm i) as [b Hb]; [lia|]. rewrite Hb.
  destruct b.
  - assert (i < 288) as Hlow.
    { destruct (Z_lt_le_dec i 288) as [|Hhigh]; [assumption|].
      rewrite Hclear in Hb by lia. discriminate. }
    destruct (IH (i + 1) bm sb acc)
      as (blocks & bm' & sb' & Heq & Hall & Hnd & Hl & Hid & Hcnt); try lia.
    { intros j Hj. apply Hclear. lia. }
    exists blocks, bm', sb'. split_and!; auto.
    eapply Forall_impl; [exact Hall|]. simpl. intros; lia.
  - destruct (IH (i + 1) (bitmap_set bm i) (dec_free_blocks sb) (acc ++ [i]))
      as (blocks & bm' & sb' & Heq & Hall & Hnd & Hl & Hid & Hcnt).
    { lia. }
    { by rewrite length_bitmap_set. }
    { rewrite length_app. simpl. lia. }
    { rewrite length_app. simpl. lia. }
    { intros j Hj. rewrite bitmap_test_set_other by lia. apply Hclear. lia. }
    exists (i :: blocks), bm', sb'. rewrite Heq, <- app_assoc. simpl.
    split_and!.
    + reflexivity.
    + constructor; [lia|]. eapply Forall_impl; [exact Hall|]. simpl. intros; lia.
    + constructor; [|assumption]. intros Hin.
      rewrite Forall_forall in Hall. specialize (Hall _ Hin). lia.
    + by rewrite Hl, length_bitmap_set.
    + by apply same_identity_dec_free_blocks.
    + left. destruct Hcnt as [Hcnt| ->].
      * by rewrite <- app_assoc in Hcnt.
      * rewrite length_app. simpl. lia.
Qed.

(** * Record sizes *)

Lemma length_direct_slots (blocks : list Z) : length (direct_slots blocks) = 10%nat.
Proof.
  unfold direct_slots. rewrite length_take, length_app, length_replicate. lia.
Qed.

Lemma length_flat_map_encode_u32 (l : list Z) :
  length (flat_map encode_u32 l) = (4 * length l)%nat.
Proof. induction l as [|x l IH]; simpl; [done|]. rewrite IH. lia. Qed.

Lemma length_encode_inode (ino : mesafs_inode_t) :
  length (encode_inode ino) = SIZEOF_INODE.
Proof.
  unfold encode_inode, encode_u64.
  rewrite !length_app, length_flat_map_encode_u32, length_direct_slots.
  reflexivity.
Qed.

(** * Reading back through the injector's writes *)

Lemma read_write_payload_ne (d : list (list Z)) (po : Z) (fd : list Z)
    (off : Z) (blocks : list Z) (k : Z) (x : list Z) :
  0 <= po -> 0 <= k < 2 ^ 20 ->
  Forall (fun b => 0 <= b < 2 ^ 20 /\ b <> k) blocks ->
  read_block d po k = Some x ->
  read_block (write_payload d po fd off blocks) po k = Some x.
Proof.
  intros Hpo Hk Hall. revert d off.
  induction Hall as [|b blocks [Hb Hne] _ IH]; intros d off Hx; [exact Hx|].
  cbn [write_payload]. apply IH. apply read_write_ne; [|exact Hx].
  intros He. apply extent_block_pos_inj in He; auto.
Qed.

Lemma locate_small (n : Z) :
  0 <= n < 256 ->
  locate n = (MESAFS_INODE_TABLE_START + n / 32, n mod 32)
  /\ 2 <= MESAFS_INODE_TABLE_START + n / 32 <= 9 /\ 0 <= n mod 32 < 32.
Proof.
  intros Hn. unfold locate, MESAFS_INODE_TABLE_START.
  assert (0 <= n / 32 <= 7).
  { split; [apply Z.div_pos; lia|].
    assert (n / 32 < 8) by (apply Z.div_lt_upper_bound; lia). lia. }
  rewrite wrap32_small by lia.
  split; [done|]. split; [lia|]. apply Z.mod_pos_bound. lia.
Qed.

Lemma volume_ok_facts (d : list (list Z)) (part_lba : Z) :
  volume_ok d part_lba = true ->
  part_lba <> 0
  /\ (forall k, 0 <= k <= 10 ->
        is_Some (read_block d (wrap32 (part_lba * SECTOR_SIZE)) k))
  /\ exists block root_inode_block,
       read_block d (wrap32 (part_lba * SECTOR_SIZE)) 0 = Some block
       /\ read_block d (wrap32 (part_lba * SECTOR_SIZE)) 2 = Some root_inode_block
       /\ get_u32 block 0 = MESAFS_MAGIC
       /\ sb_total_inodes (decode_superblock block) = 256
       /\ byte_at block 36 = 0 /\ byte_at block 37 = 0
       /\ get_u32 root_inode_block 128 = MESAFS_DATA_START.
Proof.
  unfold volume_ok. set (po := wrap32 (part_lba * SECTOR_SIZE)).
  intros H. apply andb_prop in H as [H H3]. apply andb_prop in H as [H1 H2].
  split; [by destruct (Z.eqb_spec part_lba 0)|].
  split.
  - intros k Hk. rewrite forallb_forall in H2.
    assert (readable d po k = true) as Hr.
    { apply H2, list_elem_of_In, elem_of_seqZ.
      unfold MESAFS_DATA_START. lia. }
    unfold readable in Hr. by apply bool_decide_eq_true in Hr.
  - change MESAFS_INODE_TABLE_START with 2 in H3.
    destruct (read_block d po 0) as [block|]; [|discriminate].
    destruct (read_block d po 2) as [rib|]; [|discriminate].
    exists block, rib.
    repeat (apply andb_prop in H3 as [H3 ?]).
    split_and!; auto; by apply Z.eqb_eq.
Qed.

Lemma inject_commit_ok (d : list (list Z)) (po file_size : Z)
    (filename block : list Z) (sb_copy : mesafs_superblock_t)
    (inode_bitmap : list Z) (n : Z) (data_blocks itb rib dir : list Z) :
  0 <= po -> 2 <= n < 256 ->
  read_block d po (MESAFS_INODE_TABLE_START + n / 32) = Some itb ->
  read_block d po MESAFS_INODE_TABLE_START = Some rib ->
  get_u32 rib 128 = MESAFS_DATA_START ->
  read_block d po MESAFS_DATA_START = Some dir ->
  inject_commit d po file_size filename block sb_copy inode_bitmap n data_blocks
  = let d2 :=
      write_block d po (MESAFS_INODE_TABLE_START + n / 32)
        (overlay itb (Z.to_nat (n mod 32) * SIZEOF_INODE)
           (encode_inode (file_inode_record n file_size data_blocks))) in
    match find_free_slot dir with
    | None => Exit1 DirectoryFull d2
    | Some free_slot =>
        Exit0 {| rp_inode := n; rp_blocks := Z.of_nat (length data_blocks);
                 rp_size := file_size |}
          (write_block
             (write_block
                (write_block d2 po MESAFS_DATA_START
                   (insert_entry dir free_slot n filename))
                po 0 (overlay block 0 (encode_superblock sb_copy)))
             po MESAFS_INODE_BITMAP_BLOCK inode_bitmap)
    end.
Proof.
  intros Hpo Hn Hitb Hrib Hroot Hdir.
  destruct (locate_small n) as (Hloc & Hblk & Hidx); [lia|].
  unfold inject_commit. rewrite Hloc. cbn [fst snd]. rewrite Hitb.
  pose proof (read_block_length _ _ _ _ Hitb) as Hlen.
  set (itb' := overlay itb _ _).
  assert ((Z.to_nat (n mod 32) * SIZEOF_INODE + SIZEOF_INODE <= length itb)%nat)
    as Hfit.
  { unfold SIZEOF_INODE, MESAFS_BLOCK_SIZE in *. lia. }
  assert (Z.of_nat (length itb') = MESAFS_BLOCK_SIZE) as Hlen'.
  { subst itb'. rewrite length_overlay; [done|]. by rewrite length_encode_inode. }
  assert (exists rib', read_block (write_block d po (MESAFS_INODE_TABLE_START + n / 32) itb')
                         po MESAFS_INODE_TABLE_START = Some rib'
                       /\ get_u32 rib' 128 = MESAFS_DATA_START) as (rib' & -> & Hroot').
  { destruct (Z.eq_dec (n / 32) 0) as [Hz|Hnz].
    - assert (n = n mod 32) as Hsmall
        by (pose proof (Z.div_mod n 32 ltac:(lia)); lia).
      exists itb'. rewrite Hz, Z.add_0_r in *. split.
      + by apply read_write_eq.
      + assert (rib = itb) as -> by congruence.
        subst itb'. unfold SIZEOF_INODE in *.
        rewrite get_u32_overlay_out; [done|lia|]. left. lia.
    - exists rib. split; [|done].
      apply read_write_ne; [|done].
      intros He. apply extent_block_pos_inj in He;
        unfold MESAFS_INODE_TABLE_START in *; lia. }
  change (1 * SIZEOF_INODE + 16)%nat with 128%nat. rewrite Hroot'.
  assert (read_block (write_block d po (MESAFS_INODE_TABLE_START + n / 32) itb')
            po MESAFS_DATA_START = Some dir) as ->.
  { apply read_write_ne; [|done].
    intros He. apply extent_block_pos_inj in He;
      unfold MESAFS_INODE_TABLE_START, MESAFS_DATA_START in *; lia. }
  reflexivity.
Qed.

Lemma blocks_needed_pos (file_size : Z) : 1 <= blocks_needed_of file_size.
Proof.
  unfold blocks_needed_of.
  pose proof (wrap32_range ((file_size + MESAFS_BLOCK_SIZE - 1) / MESAFS_BLOCK_SIZE)).
  destruct (Z.eqb_spec (wrap32 ((file_size + MESAFS_BLOCK_SIZE - 1) / MESAFS_BLOCK_SIZE)) 0);
    lia.
Qed.

Lemma bitmap_test_zero_byte (bitmap : list Z) (bit : Z) :
  0 <= bit -> 
  Z.of_nat (Z.to_nat (bit / 8)) < Z.of_nat (length bitmap) ->
  byte_at bitmap (Z.to_nat (bit / 8)) = 0 ->
  bitmap_test bitmap bit = Some false.
Proof.
  intros Hb Hlen Hz. rewrite bitmap_test_testbit. unfold byte_at in Hz.
  destruct (lookup_lt_is_Some_2 bitmap (Z.to_nat (bit / 8))) as [x Hx]; [lia|].
  rewrite Hx in *. simpl in *. subst x. by rewrite Z.bits_0.
Qed.

Lemma reserved_bits_clear (block : list Z) (j : Z) :
  Z.of_nat (length block) = MESAFS_BLOCK_SIZE ->
  byte_at block 36 = 0 -> byte_at block 37 = 0 ->
  288 <= j < 298 -> bitmap_test block j = Some false.
Proof.
  intros Hlen H36 H37 Hj. unfold MESAFS_BLOCK_SIZE in Hlen.
  assert (j / 8 = 36 \/ j / 8 = 37) as [E|E].
  { assert (36 <= j / 8) by (apply Z.div_le_lower_bound; lia).
    assert (j / 8 < 38) by (apply Z.div_lt_upper_bound; lia). lia. }
  - apply bitmap_test_zero_byte; rewrite ?E; [lia|simpl; lia|exact H36].
  - apply bitmap_test_zero_byte; rewrite ?E; [lia|simpl; lia|exact H37].
Qed.

Lemma same_identity_dec_free_inodes (a b : mesafs_superblock_t) :
  same_identity a (dec_free_inodes b) -> same_identity a b.
Proof. intros H. exact H. Qed.

(** The injector on a well-formed volume: which way it leaves, and with
    which image. *)
Lemma inject_on_volume (d : list (list Z)) (part_lba : Z) (file_data dest_path : list Z) :
  volume_ok d part_lba = true ->
  exists block ib dir,
    read_block d (wrap32 (part_lba * SECTOR_SIZE)) 0 = Some block
    /\ read_block d (wrap32 (part_lba * SECTOR_SIZE)) MESAFS_INODE_BITMAP_BLOCK = Some ib
    /\ read_block d (wrap32 (part_lba * SECTOR_SIZE)) MESAFS_DATA_START = Some dir
    /\ (MESAFS_DIRECT_BLOCKS < blocks_needed_of (Z.of_nat (length file_data))
        /\ inject d part_lba file_data dest_path = Exit1 FileTooLarge d
        \/ blocks_needed_of (Z.of_nat (length file_data)) <= MESAFS_DIRECT_BLOCKS
           /\ (inject d part_lba file_data dest_path = Exit1 InsufficientInodes d
               \/ exists n, 2 <= n < 256 /\ bitmap_test ib n = Some false
                  /\ inode_picked d part_lba = Some n
                  /\ (inject d part_lba file_data dest_path = Exit1 InsufficientBlocks d
                      \/ exists blocks block' sb' itb,
                           Forall (fun b => 11 <= b < 298) blocks
                           /\ NoDup blocks
                           /\ Z.of_nat (length blocks)
                              = blocks_needed_of (Z.of_nat (length file_data))
                           /\ length block' = length block
                           /\ same_identity sb' (decode_superblock block)
                           /\ read_block d (wrap32 (part_lba * SECTOR_SIZE))
                                (MESAFS_INODE_TABLE_START + n / 32) = Some itb
                           /\ inject d part_lba file_data dest_path
                              = (let d2 := image_with_inode d (wrap32 (part_lba * SECTOR_SIZE))
                                            file_data n blocks itb in
                                match find_free_slot dir with
                                | None => Exit1 DirectoryFull d2
                                | Some free_slot =>
                                    Exit0 {| rp_inode := n;
                                             rp_blocks := Z.of_nat (length blocks);
                                             rp_size := Z.of_nat (length file_data) |}
                                      (image_with_entry d2 (wrap32 (part_lba * SECTOR_SIZE))
                                         dir free_slot n (filename_of dest_path)
                                         block' sb' (bitmap_set ib n))
                                end)))).
Proof.
  intros Hok.
  destruct (volume_ok_facts _ _ Hok)
    as (Hlba & Hread & block & rib & Hb0 & Hb2 & Hmagic & Hinodes & H36 & H37 & Hroot).
  set (po := wrap32 (part_lba * SECTOR_SIZE)) in *.
  assert (0 <= po) as Hpo by apply wrap32_range.
  destruct (Hread 1 ltac:(lia)) as [ib Hib].
  destruct (Hread 10 ltac:(lia)) as [dir Hdir].
  exists block, ib, dir. split; [done|]. split; [done|]. split; [done|].
  pose proof (read_block_length _ _ _ _ Hb0) as Hlen0.
  pose proof (read_block_length _ _ _ _ Hib) as Hlen1.
  pose proof (blocks_needed_pos (Z.of_nat (length file_data))) as Hpos.
  unfold inject. destruct (Z.eqb_spec part_lba 0) as [|_]; [done|].
  fold po. rewrite Hb0, Hmagic, Z.eqb_refl. cbn [negb].
  change MESAFS_INODE_BITMAP_BLOCK with 1 in *. rewrite Hib.
  set (needed := blocks_needed_of (Z.of_nat (length file_data))) in *.
  destruct (Z.ltb_spec MESAFS_DIRECT_BLOCKS needed) as [Hbig|Hfits]; [by left|].
  right. split; [done|].
  unfold inject_alloc, alloc_inode. rewrite Hinodes.
  destruct (alloc_inode_loop_spec (Z.to_nat (256 - 2)) 2 ib (decode_superblock block))
    as [-> | (n & Hn & Hfree & Halloc)];
    [lia | unfold MESAFS_BLOCK_SIZE in *; lia | by left |].
  right. exists n. split; [lia|]. split; [done|].
  split.
  { unfold inode_picked, disk_superblock, alloc_inode. fold po.
    change MESAFS_INODE_BITMAP_BLOCK with 1. rewrite Hb0, Hib.
    cbn [fmap option_fmap option_map mbind option_bind]. rewrite Hinodes.
    destruct (alloc_inode_loop_spec (Z.to_nat (256 - 2)) 2 ib (decode_superblock block))
      as [E | (k & Hk & Hkfree & E)];
      [lia | unfold MESAFS_BLOCK_SIZE in *; lia
      | rewrite E in Halloc; injection Halloc as Hz _ _; lia |].
    rewrite E in Halloc. injection Halloc as <-. by rewrite E. }
  rewrite Halloc.
  destruct (Z.eqb_spec n 0) as [|_]; [lia|].
  unfold alloc_blocks.
  destruct (alloc_blocks_loop_spec
              (Z.to_nat (sb_total_blocks (dec_free_inodes (decode_superblock block))
                         - (MESAFS_DATA_START + 1)))
              (MESAFS_DATA_START + 1) needed block
              (dec_free_inodes (decode_superblock block)) [])
    as (blocks & block' & sb' & -> & Hall & Hnd & Hlen' & Hid & Hcnt).
  { unfold MESAFS_DATA_START. lia. }
  { unfold MESAFS_BLOCK_SIZE in *. lia. }
  { unfold MESAFS_DIRECT_BLOCKS, MESAFS_DATA_START in *. simpl length. lia. }
  { unfold MESAFS_DIRECT_BLOCKS in *. simpl length. lia. }
  { intros j Hj. apply reserved_bits_clear; auto;
      unfold MESAFS_DATA_START in *; lia. }
  cbn [app] in *.
  destruct (Z.ltb_spec (Z.of_nat (length blocks)) needed) as [Hshort|Hfull];
    [by left|].
  right.
  assert (Z.of_nat (length blocks) = needed) as Hcount.
  { destruct Hcnt as [Hc| ->]; [lia|]. simpl in Hfull. lia. }
  destruct (Hread (MESAFS_INODE_TABLE_START + n / 32)) as [itb Hitb].
  { destruct (locate_small n) as (_ & ? & _); lia. }
  exists blocks, block', sb', itb.
  split. { eapply Forall_impl; [exact Hall|]. simpl. unfold MESAFS_DATA_START. intros; lia. }
  split; [done|]. split; [done|]. split; [done|].
  split; [by apply same_identity_dec_free_inodes|].
  split; [done|].
  assert (forall k x, 0 <= k <= 10 -> read_block d po k = Some x ->
            read_block (write_payload d po file_data 0 blocks) po k = Some x)
    as Hkeep.
  { intros k x Hk Hx. apply read_write_payload_ne; auto; [lia|].
    eapply Forall_impl; [exact Hall|]. simpl. unfold MESAFS_DATA_START. intros; lia. }
  rewrite (inject_commit_ok _ po _ _ _ _ _ n blocks itb rib dir);
    [ reflexivity | exact Hpo | lia
    | apply Hkeep; [|exact Hitb]
    | apply Hkeep; [|exact Hb2]
    | exact Hroot
    | apply Hkeep; [|exact Hdir] ].
  - destruct (locate_small n) as (_ & ? & _); lia.
  - unfold MESAFS_INODE_TABLE_START. lia.
  - unfold MESAFS_DATA_START. lia.
Qed.

(** * Directory entries *)

Lemma overlay_overlay_adjacent (buf : list Z) (off : nat) (s1 s2 : list Z) :
  (off + length s1 <= length buf)%nat ->
  overlay (overlay buf off s1) (off + length s1) s2 = overlay buf off (s1 ++ s2).
Proof.
  intros H. apply list_eq. intros i.
  rewrite (lookup_overlay (overlay buf off s1)) by (rewrite length_overlay; lia).
  rewrite !lookup_overlay by lia. rewrite length_app.
  repeat case_decide; try lia; try reflexivity.
  - by rewrite lookup_app_l by lia.
  - rewrite lookup_app_r by lia. f_equal. lia.
Qed.

Lemma length_strncpy (n : nat) (src : list Z) : length (strncpy n src) = n.
Proof.
  unfold strncpy. rewrite length_take, length_app, length_replicate. lia.
Qed.

Lemma length_entry_bytes (n : Z) (f : list Z) : length (entry_bytes n f) = 62%nat.
Proof.
  unfold entry_bytes. rewrite !length_app, length_strncpy. reflexivity.
Qed.

Lemma insert_entry_overlay (dir : list Z) (slot : nat) (n : Z) (f : list Z) :
  (slot * SIZEOF_DIRENT + 62 <= length dir)%nat ->
  insert_entry dir slot n f = overlay dir (slot * SIZEOF_DIRENT) (entry_bytes n f).
Proof.
  intros H. unfold insert_entry, entry_bytes.
  set (o := (slot * SIZEOF_DIRENT)%nat) in *.
  change (o + 4)%nat with (o + length (encode_u32 n))%nat.
  rewrite overlay_overlay_adjacent by (simpl; lia).
  change (o + 5)%nat with (o + length (encode_u32 n ++ [wrap8 MESAFS_TYPE_FILE]))%nat.
  rewrite overlay_overlay_adjacent by (simpl; lia).
  change (o + 6)%nat
    with (o + length ((encode_u32 n ++ [wrap8 MESAFS_TYPE_FILE])
                      ++ [wrap8 (strlen f)]))%nat.
  rewrite overlay_overlay_adjacent by (simpl; lia).
  rewrite <- !app_assoc. reflexivity.
Qed.

Lemma find_free_slot_loop_spec (n i : nat) (dir : list Z) (slot : nat) :
  find_free_slot_loop n i dir = Some slot ->
  (i <= slot < i + n)%nat /\ get_u32 dir (slot * SIZEOF_DIRENT) = 0.
Proof.
  revert i. induction n as [|n IH]; intros i H; cbn [find_free_slot_loop] in H.
  - discriminate.
  - destruct (Z.eqb_spec (get_u32 dir (i * SIZEOF_DIRENT)) 0) as [E|E].
    + injection H as <-. split; [lia|exact E].
    + destruct (IH _ H). split; [lia|assumption].
Qed.

Lemma find_free_slot_loop_first (n i : nat) (dir : list Z) (slot : nat) :
  find_free_slot_loop n i dir = Some slot ->
  forall s, (i <= s < slot)%nat -> get_u32 dir (s * SIZEOF_DIRENT) <> 0.
Proof.
  revert i. induction n as [|n IH]; intros i H s Hs; cbn [find_free_slot_loop] in H.
  - discriminate.
  - destruct (Z.eqb_spec (get_u32 dir (i * SIZEOF_DIRENT)) 0) as [E|E].
    + injection H as <-. lia.
    + destruct (decide (s = i)) as [->|Hne]; [exact E|].
      apply (IH (S i)); [exact H|lia].
Qed.

Lemma find_free_slot_spec (dir : list Z) (slot : nat) :
  find_free_slot dir = Some slot ->
  (slot < 64)%nat /\ de_inode (decode_dirent dir slot) = 0.
Proof.
  intros H. apply find_free_slot_loop_spec in H as [H1 H2].
  change max_entries with 64%nat in H1. split; [lia|exact H2].
Qed.

Lemma decode_dirent_insert_entry (dir : list Z) (slot : nat) (n : Z) (f : list Z) :
  Z.of_nat (length dir) = MESAFS_BLOCK_SIZE -> (slot < 64)%nat ->
  let e := decode_dirent (insert_entry dir slot n f) slot in
  de_inode e = wrap32 n
  /\ de_type e = MESAFS_TYPE_FILE
  /\ de_name_len e = wrap8 (strlen f)
  /\ take MESAFS_MAX_FILENAME (de_name e) = strncpy MESAFS_MAX_FILENAME f.
Proof.
  intros Hlen Hslot. unfold MESAFS_BLOCK_SIZE in Hlen.
  assert (slot * SIZEOF_DIRENT + 62 <= length dir)%nat as Hfit
    by (unfold SIZEOF_DIRENT; lia).
  cbv zeta. rewrite insert_entry_overlay by exact Hfit.
  unfold decode_dirent. cbn [de_inode de_type de_name_len de_name].
  set (o := (slot * SIZEOF_DIRENT)%nat) in *.
  split_and!.
  - rewrite get_u32_overlay_in by (rewrite ?length_entry_bytes; lia).
    rewrite Nat.sub_diag. unfold entry_bytes. apply get_u32_encode_u32.
  - rewrite byte_at_overlay by lia.
    rewrite decide_True by (rewrite length_entry_bytes; lia).
    replace (o + 4 - o)%nat with 4%nat by lia. reflexivity.
  - rewrite byte_at_overlay by lia.
    rewrite decide_True by (rewrite length_entry_bytes; lia).
    replace (o + 5 - o)%nat with 5%nat by lia. reflexivity.
  - unfold DIRENT_NAME_SIZE, MESAFS_MAX_FILENAME.
    rewrite take_take. change (56 `min` 58)%nat with 56%nat.
    unfold entry_bytes. rewrite app_assoc.
    rewrite <- overlay_overlay_adjacent by (simpl; lia).
    change (length (encode_u32 n ++ [wrap8 MESAFS_TYPE_FILE; wrap8 (strlen f)]))
      with 6%nat.
    rewrite <- (length_strncpy 56 f) at 1.
    apply take_drop_overlay. rewrite length_overlay; simpl; lia.
Qed.

(** * Exits of the injector *)

Lemma inject_commit_exit1 (d d' : list (list Z)) (po fsz : Z) (fname block : list Z)
    (sb : mesafs_superblock_t) (ib : list Z) (n : Z) (blocks : list Z) (e : error) :
  inject_commit d po fsz fname block sb ib n blocks = Exit1 e d' -> e = DirectoryFull.
Proof.
  unfold inject_commit.
  destruct (read_block d po (fst (locate n))); [|discriminate].
  destruct (read_block _ po MESAFS_INODE_TABLE_START); [|discriminate].
  destruct (read_block _ po _); [|discriminate].
  destruct (find_free_slot _); [discriminate|]. congruence.
Qed.

(** Claim C4, as amended: when the injector leaves with
    [InsufficientBlocks], the image is exactly the image it started from.
    The inode its scan picked in memory (non-zero) still tests free in the
    inode bitmap on disk, and the superblock on disk still holds the
    free-inode count from before the decrement: nothing was written, so
    no inode slot is leaked. *)
Theorem inject_insufficient_blocks_writes_nothing
    (d : list (list Z)) (part_lba : Z) (file_data dest_path : list Z)
    (d' : list (list Z)) :
  inject d part_lba file_data dest_path = Exit1 InsufficientBlocks d' ->
  d' = d
  /\ exists sb ib n ib' sb',
       disk_superblock d' part_lba = Some sb
       /\ read_block d' (wrap32 (part_lba * SECTOR_SIZE)) MESAFS_INODE_BITMAP_BLOCK
          = Some ib
       /\ alloc_inode ib sb = Some (n, ib', sb')
       /\ n <> 0
       /\ sb_free_inodes sb' = wrap32 (sb_free_inodes sb - 1)
       /\ disk_inode_bit d' part_lba n = Some false.
Proof.
  unfold inject, disk_superblock, disk_inode_bit.
  destruct (part_lba =? 0); [discriminate|].
  set (po := wrap32 (part_lba * SECTOR_SIZE)).
  destruct (read_block d po 0) as [block|] eqn:Hb0; [|discriminate].
  destruct (negb _); [discriminate|].
  destruct (read_block d po MESAFS_INODE_BITMAP_BLOCK) as [ib|] eqn:Hib;
    [|discriminate].
  destruct (_ <? _); [discriminate|].
  unfold inject_alloc.
  destruct (alloc_inode ib (decode_superblock block)) as [[[n ib'] sb']|] eqn:Ha;
    [|discriminate].
  destruct (Z.eqb_spec n 0) as [|Hn]; [discriminate|].
  destruct (alloc_blocks _ _ _) as [[[blocks block'] sb'']|]; [|discriminate].
  destruct (_ <? _).
  - intros [= <-]. split; [reflexivity|].
    rewrite Hb0, Hib. cbn [fmap option_fmap option_map mbind option_bind].
    destruct (alloc_inode_loop_found _ _ _ _ _ _ _ Ha Hn) as (Hfree & -> & -> & _).
    exists (decode_superblock block), ib, n, (bitmap_set ib n),
      (dec_free_inodes (decode_superblock block)).
    split_and!; auto.
  - intros H. apply inject_commit_exit1 in H. discriminate.
Qed.

Lemma inject_insufficient_blocks_writes_nothing_witness :
  image_of (inject tiny_volume 1 [7] (bytes_of_string "/z")) = tiny_volume.
Proof.
  refine (proj1 (inject_insufficient_blocks_writes_nothing
                   tiny_volume 1 [7] (bytes_of_string "/z")
                   (image_of (inject tiny_volume 1 [7] (bytes_of_string "/z"))) _)).
  vm_compute. reflexivity.
Defined.

(** Claim C4 as stated fails: on the 11-block volume a one-byte
    injection picks inode 2, runs out of blocks, and afterwards bit 2 of
    the on-disk inode bitmap is clear and the on-disk free-inode count is
    still 254. *)
Lemma inject_insufficient_blocks_leaves_no_mark :
  inject tiny_volume 1 [7] (bytes_of_string "/z")
  = Exit1 InsufficientBlocks tiny_volume
  /\ inode_picked tiny_volume 1 = Some 2
  /\ disk_inode_bit tiny_volume 1 2 = Some false
  /\ (sb_free_inodes <$> disk_superblock tiny_volume 1) = Some 254.
Proof.
  split; [vm_compute; reflexivity|].
  split; [vm_compute; reflexivity|].
  split; vm_compute; reflexivity.
Qed.

Ltac unfold_layout :=
  unfold MESAFS_BLOCK_BITMAP_BLOCK, MESAFS_INODE_BITMAP_BLOCK,
    MESAFS_INODE_TABLE_START, MESAFS_DATA_START, MESAFS_BLOCK_SIZE,
    MESAFS_DIRECT_BLOCKS, SIZEOF_INODE, SIZEOF_DIRENT in *.

(** Two block numbers below 2^20 that differ sit on different extents. *)
Ltac extents_differ :=
  let He := fresh in
  intros He; apply extent_block_pos_inj in He;
  [ unfold_layout; first [discriminate He | lia]
  | first [assumption | apply wrap32_range]
  | unfold_layout; lia
  | unfold_layout; lia ].

Lemma length_insert_entry (dir : list Z) (slot : nat) (n : Z) (f : list Z) :
  Z.of_nat (length dir) = MESAFS_BLOCK_SIZE -> (slot < 64)%nat ->
  length (insert_entry dir slot n f) = length dir.
Proof.
  intros Hlen Hslot. unfold MESAFS_BLOCK_SIZE in Hlen.
  rewrite insert_entry_overlay by (unfold SIZEOF_DIRENT; lia).
  apply length_overlay. rewrite length_entry_bytes. unfold SIZEOF_DIRENT. lia.
Qed.

Lemma payload_chunk_le (file_size offset : Z) :
  payload_chunk file_size offset <= MESAFS_BLOCK_SIZE.
Proof.
  unfold payload_chunk.
  destruct (Z.ltb_spec MESAFS_BLOCK_SIZE (file_size - offset)); lia.
Qed.

Lemma length_payload_block (fd : list Z) (offset chunk : Z) :
  chunk <= MESAFS_BLOCK_SIZE ->
  Z.of_nat (length (payload_block fd offset chunk)) = MESAFS_BLOCK_SIZE.
Proof.
  intros H. unfold payload_block. rewrite overlay_0_app, length_app, length_drop.
  unfold zero_block. rewrite length_replicate.
  pose proof (length_take_le_bound fd) as _ || idtac.
  assert (length (take (Z.to_nat chunk) (drop (Z.to_nat offset) fd))
          <= Z.to_nat chunk)%nat by (rewrite length_take; lia).
  unfold MESAFS_BLOCK_SIZE in *. lia.
Qed.

Lemma length_payload_blocks (fd : list Z) (off : Z) (k : nat) :
  length (payload_blocks fd off k) = k.
Proof.
  revert off. induction k as [|k IH]; intros off; cbn [payload_blocks length];
    [reflexivity|]. by rewrite IH.
Qed.

Lemma read_write_payload_at (d : list (list Z)) (po : Z) (fd : list Z)
    (off : Z) (blocks : list Z) (j : nat) (b : Z) :
  0 <= po -> NoDup blocks -> Forall (fun b => 0 <= b < 2 ^ 20) blocks ->
  blocks !! j = Some b ->
  read_block (write_payload d po fd off blocks) po b
  = payload_blocks fd off (length blocks) !! j.
Proof.
  intros Hpo Hnd. revert d off j.
  induction Hnd as [|b0 blocks Hnotin Hnd IH]; intros d off j Hall Hj;
    [discriminate|].
  apply Forall_cons in Hall as [Hb0 Hall].
  cbn [write_payload payload_blocks length].
  destruct j as [|j]; cbn [lookup list_lookup] in *.
  - injection Hj as <-.
    apply read_write_payload_ne; auto.
    + apply Forall_forall. intros x Hx. split.
      * rewrite Forall_forall in Hall. by apply Hall.
      * intros ->. contradiction.
    + apply read_write_eq; [reflexivity|].
      apply length_payload_block, payload_chunk_le.
  - by apply IH.
Qed.


(** Whenever the injector leaves a well-formed volume with
    [DirectoryFull], block 0, the inode bitmap and the root directory
    block read as before and the picked inode still tests free on disk,
    but the record of the picked inode has been written into the inode
    table, naming as many data blocks as the file needs, and those
    blocks hold the payload. *)
Lemma inject_directory_full_leaves_orphan
    (d : list (list Z)) (part_lba : Z) (file_data dest_path : list Z)
    (d' : list (list Z)) :
  volume_ok d part_lba = true ->
  inject d part_lba file_data dest_path = Exit1 DirectoryFull d' ->
  let po := wrap32 (part_lba * SECTOR_SIZE) in
  read_block d' po MESAFS_BLOCK_BITMAP_BLOCK = read_block d po MESAFS_BLOCK_BITMAP_BLOCK
  /\ read_block d' po MESAFS_INODE_BITMAP_BLOCK = read_block d po MESAFS_INODE_BITMAP_BLOCK
  /\ read_block d' po MESAFS_DATA_START = read_block d po MESAFS_DATA_START
  /\ exists n data_blocks inode_block,
       inode_picked d part_lba = Some n /\ 2 <= n < 256
       /\ disk_inode_bit d' part_lba n = Some false
       /\ Z.of_nat (length data_blocks) = blocks_needed_of (Z.of_nat (length file_data))
       /\ Forall (fun b => MESAFS_DATA_START < b) data_blocks
       /\ read_block d' po (MESAFS_INODE_TABLE_START + n / 32) = Some inode_block
       /\ take SIZEOF_INODE (drop (Z.to_nat (n mod 32) * SIZEOF_INODE) inode_block)
          = encode_inode (file_inode_record n (Z.of_nat (length file_data)) data_blocks)
       /\ forall j b, data_blocks !! j = Some b ->
            read_block d' po b
            = payload_blocks file_data 0 (length data_blocks) !! j.
Proof.
  intros Hok Hrun po.
  destruct (inject_on_volume d part_lba file_data dest_path Hok)
    as (block & ib & dir & Hb0 & Hib & Hdir & Hcases).
  fold po in Hb0, Hib, Hdir, Hcases.
  assert (0 <= po) as Hpo by apply wrap32_range.
  destruct Hcases as [[_ H]|[_ [H|(n & Hn & Hfree & Hpick & [H|H])]]];
    try (rewrite H in Hrun; discriminate).
  destruct H as (blocks & block' & sb' & itb & Hall & Hnd & Hcount & Hlen' & Hid & Hitb & H).
  rewrite H in Hrun. cbv zeta in Hrun.
  destruct (find_free_slot dir) as [slot|] eqn:Hslot; [discriminate|].
  injection Hrun as <-.
  pose proof (read_block_length _ _ _ _ Hitb) as Hilen.
  destruct (locate_small n) as (_ & Hblk & Hidx); [lia|].
  assert (Forall (fun b => 0 <= b < 2 ^ 20) blocks) as Hrange.
  { eapply Forall_impl; [exact Hall|]. simpl. intros; lia. }
  assert (forall k x, 0 <= k <= 10 -> k <> MESAFS_INODE_TABLE_START + n / 32 ->
            read_block d po k = Some x ->
            read_block (image_with_inode d po file_data n blocks itb) po k = Some x)
    as Hkeep.
  { intros k x Hk Hne Hx. unfold image_with_inode.
    apply read_write_ne.
    { extents_differ. }
    apply read_write_payload_ne; auto; [lia|].
    eapply Forall_impl; [exact Hall|]. simpl. intros; lia. }
  unfold MESAFS_BLOCK_BITMAP_BLOCK, MESAFS_INODE_BITMAP_BLOCK, MESAFS_DATA_START in *.
  split_and!.
  - rewrite Hb0. apply Hkeep; [lia|lia|done].
  - rewrite Hib. apply Hkeep; [lia|lia|done].
  - rewrite Hdir. apply Hkeep; [lia|lia|done].
  - set (itb' := overlay itb (Z.to_nat (n mod 32) * SIZEOF_INODE)
                   (encode_inode (file_inode_record n
                      (Z.of_nat (length file_data)) blocks))).
    assert ((Z.to_nat (n mod 32) * SIZEOF_INODE + SIZEOF_INODE <= length itb)%nat)
      as Hfit by (unfold SIZEOF_INODE, MESAFS_BLOCK_SIZE in *; lia).
    exists n, blocks, itb'. split_and!.
    + exact Hpick.
    + lia.
    + lia.
    + unfold disk_inode_bit. fold po.
      change MESAFS_INODE_BITMAP_BLOCK with 1.
      rewrite (Hkeep 1 ib); [exact Hfree|lia|lia|done].
    + done.
    + eapply Forall_impl; [exact Hall|]. simpl. intros; lia.
    + unfold image_with_inode. apply read_write_eq; [reflexivity|].
      subst itb'. rewrite length_overlay; [done|]. by rewrite length_encode_inode.
    + subst itb'.
      rewrite <- (length_encode_inode
                    (file_inode_record n (Z.of_nat (length file_data)) blocks)) at 1.
      apply take_drop_overlay. lia.
    + intros j b Hj. unfold image_with_inode.
      assert (11 <= b < 298) as Hb.
      { rewrite Forall_forall in Hall. apply Hall. by eapply list_elem_of_lookup_2. }
      pose proof (read_write_payload_at d po file_data 0 blocks j b
                    Hpo Hnd Hrange Hj) as Hat.
      destruct (lookup_lt_is_Some_2 (payload_blocks file_data 0 (length blocks)) j)
        as [c Hc].
      { rewrite length_payload_blocks. by eapply lookup_lt_Some. }
      rewrite Hc in *. apply read_write_ne; [|exact Hat].
      extents_differ.
Qed.



(** Claim C6 at a failing input: on the well-formed volume whose 64
    directory slots are all taken, the injection of one byte ends with
    [DirectoryFull]; the scan had picked inode 66, whose record was empty
    before the run and afterwards is flagged used with one block,
    through which the injected byte reads back; the inode bitmap and the
    superblock on disk do not record it. *)
Theorem inject_into_full_directory_writes_inode_record :
  forallb (fun slot => negb (default 0 (de_inode <$> disk_dirent full_volume 1 slot) =? 0))
    (seq 0 64) = true
  /\ volume_ok full_volume 1 = true
  /\ error_of (inject full_volume 1 [7] (bytes_of_string "/z")) = Some DirectoryFull
  /\ inode_picked full_volume 1 = Some 66
  /\ (ino_flags <$> disk_inode full_volume 1 66) = Some 0
  /\ (ino_flags <$> disk_inode
        (image_of (inject full_volume 1 [7] (bytes_of_string "/z"))) 1 66)
     = Some MESAFS_FLAG_USED
  /\ (ino_blocks_used <$> disk_inode
        (image_of (inject full_volume 1 [7] (bytes_of_string "/z"))) 1 66)
     = Some 1
  /\ disk_file (image_of (inject full_volume 1 [7] (bytes_of_string "/z"))) 1 66
     = Some [7]
  /\ disk_inode_bit (image_of (inject full_volume 1 [7] (bytes_of_string "/z"))) 1 66
     = Some false
  /\ disk_superblock (image_of (inject full_volume 1 [7] (bytes_of_string "/z"))) 1
     = disk_superblock full_volume 1.
Proof.
  split; [vm_compute; reflexivity|].
  split; [vm_compute; reflexivity|].
  split; [vm_compute; reflexivity|].
  split; [vm_compute; reflexivity|].
  split; [vm_compute; reflexivity|].
  split; [vm_compute; reflexivity|].
  split; [vm_compute; reflexivity|].
  split; [vm_compute; reflexivity|].
  split; vm_compute; reflexivity.
Qed.

(** * The size limit *)

Lemma blocks_needed_exact (file_size : Z) :
  0 <= file_size <= 2 ^ 44 - 4096 ->
  blocks_needed_of file_size
  = Z.max 1 ((file_size + MESAFS_BLOCK_SIZE - 1) / MESAFS_BLOCK_SIZE).
Proof.
  intros H. unfold blocks_needed_of, MESAFS_BLOCK_SIZE.
  assert (0 <= (file_size + 4096 - 1) / 4096 < 2 ^ 32) as Hq.
  { split; [apply Z.div_pos; lia|]. apply Z.div_lt_upper_bound; lia. }
  rewrite wrap32_small by exact Hq.
  destruct (Z.eqb_spec ((file_size + 4096 - 1) / 4096) 0); lia.
Qed.

(** Below 2^44 - 4095 bytes, the check turns away every file longer than
    ten blocks, and the image stays as it was. *)
Lemma inject_rejects_large_file (d : list (list Z)) (part_lba : Z)
    (file_data dest_path block ib : list Z) :
  part_lba <> 0 ->
  read_block d (wrap32 (part_lba * SECTOR_SIZE)) 0 = Some block ->
  get_u32 block 0 = MESAFS_MAGIC ->
  read_block d (wrap32 (part_lba * SECTOR_SIZE)) MESAFS_INODE_BITMAP_BLOCK = Some ib ->
  MESAFS_DIRECT_BLOCKS * MESAFS_BLOCK_SIZE < Z.of_nat (length file_data) ->
  Z.of_nat (length file_data) <= 2 ^ 44 - 4096 ->
  inject d part_lba file_data dest_path = Exit1 FileTooLarge d.
Proof.
  intros Hlba Hb0 Hmagic Hib Hbig Hmax. unfold inject.
  destruct (Z.eqb_spec part_lba 0); [contradiction|].
  rewrite Hb0, Hmagic, Z.eqb_refl, Hib. cbn [negb].
  rewrite blocks_needed_exact by lia.
  unfold MESAFS_DIRECT_BLOCKS, MESAFS_BLOCK_SIZE in *.
  assert (11 <= (Z.of_nat (length file_data) + 4096 - 1) / 4096)
    by (apply Z.div_le_lower_bound; lia).
  destruct (Z.ltb_spec 10 (Z.max 1 ((Z.of_nat (length file_data) + 4096 - 1) / 4096)));
    [reflexivity|lia].
Qed.

Lemma exit0_report_exists {A : Type} (o : outcome A) (r : A) :
  report_of o = Some r -> exists d', o = Exit0 r d'.
Proof. destruct o; simpl; intros [= <-]; eauto. Qed.

(** On the fresh 100-block volume every source that needs one block goes
    into inode 2, whatever its bytes. *)
Lemma inject_fresh_one_block (file_data : list Z) :
  blocks_needed_of (Z.of_nat (length file_data)) = 1 ->
  report_of (inject fresh_volume 1 file_data (bytes_of_string "/big"))
  = Some {| rp_inode := 2; rp_blocks := 1; rp_size := Z.of_nat (length file_data) |}.
Proof.
  intros H. unfold inject. rewrite H. vm_compute. reflexivity.
Qed.

Lemma length_huge_file : Z.of_nat (length huge_file) = 2 ^ 44.
Proof.
  unfold huge_file. rewrite length_replicate. unfold huge_size.
  apply Z2Nat.id. apply Z.pow_nonneg. lia.
Qed.

(** Claim C7 at a failing input: the block count is narrowed to 32
    bits, so a source of 2^44 bytes counts as one block; the injector
    does not reject it but injects it as inode 2 with one data block. *)
Theorem inject_accepts_huge_file :
  MESAFS_DIRECT_BLOCKS * MESAFS_BLOCK_SIZE < Z.of_nat (length huge_file)
  /\ exists d',
       inject fresh_volume 1 huge_file (bytes_of_string "/big")
       = Exit0 {| rp_inode := 2; rp_blocks := 1; rp_size := 2 ^ 44 |} d'.
Proof.
  split.
  - rewrite length_huge_file. reflexivity.
  - apply exit0_report_exists. rewrite <- length_huge_file.
    apply inject_fresh_one_block. rewrite length_huge_file.
    vm_compute. reflexivity.
Qed.

(** Claim C8 at a failing input: the injector stores [strlen] of the
    name unclamped; a name of 100 letters gives an entry whose length
    byte is 100, above the 58-byte name buffer. *)
Theorem inject_long_name_length_over_buffer :
  report_of (inject fresh_volume 1 [1] long_path)
  = Some {| rp_inode := 2; rp_blocks := 1; rp_size := 1 |}
  /\ (de_name_len <$> disk_dirent (image_of (inject fresh_volume 1 [1] long_path)) 1 0)
     = Some 100
  /\ Z.of_nat DIRENT_NAME_SIZE < 100.
Proof.
  split; [vm_compute; reflexivity|]. split; vm_compute; reflexivity.
Qed.

(** The block and the index the injector computes for an inode number
    are the exact quotient and remainder by 32: the 32-bit sum does not
    wrap. *)
Lemma locate_arithmetic (n : Z) :
  0 <= n < 2 ^ 32 ->
  locate n = (MESAFS_INODE_TABLE_START + n / 32, n mod 32).
Proof.
  intros Hn. unfold locate, MESAFS_INODE_TABLE_START.
  assert (0 <= n / 32 < 2 ^ 27).
  { split; [apply Z.div_pos; lia|]. apply Z.div_lt_upper_bound; lia. }
  rewrite wrap32_small by lia. reflexivity.
Qed.

(** Claim C9 at a failing input: the second injection into the fresh
    volume gets inode 3, which the injector locates at table block
    2 + 3 / 32 with index 3 mod 32; but the records are 112 bytes long,
    not 128: the record of inode 3 starts at byte 336 of the block, and
    byte 384 holds one of its direct-block fields; on the fresh volume
    the root's record starts at byte 112 and byte 128 holds its first
    direct block, 10.  Thirty-two records fill 3584 bytes of a block. *)
Theorem inode_records_lie_112_bytes_apart :
  report_of (inject volume_a 1 [9] (bytes_of_string "/b.msa"))
  = Some {| rp_inode := 3; rp_blocks := 1; rp_size := 1 |}
  /\ locate 3 = (MESAFS_INODE_TABLE_START + 3 / 32, 3 mod 32)
  /\ (ino_inode_num <$> disk_inode volume_ab 1 3) = Some 3
  /\ ((fun b => get_u32 b (3 * 112)) <$> read_block volume_ab (wrap32 (1 * SECTOR_SIZE)) 2)
     = Some 3
  /\ ((fun b => get_u32 b (3 * 128)) <$> read_block volume_ab (wrap32 (1 * SECTOR_SIZE)) 2)
     = Some 0
  /\ ((fun b => get_u32 b (1 * 112)) <$> read_block fresh_volume (wrap32 (1 * SECTOR_SIZE)) 2)
     = Some 1
  /\ ((fun b => get_u32 b (1 * 128)) <$> read_block fresh_volume (wrap32 (1 * SECTOR_SIZE)) 2)
     = Some MESAFS_DATA_START
  /\ (32 * SIZEOF_INODE)%nat = 3584%nat
  /\ length (encode_inode (file_inode_record 3 1 [11])) = 112%nat.
Proof.
  split; [vm_compute; reflexivity|]. split; [vm_compute; reflexivity|].
  split; [vm_compute; reflexivity|]. split; [vm_compute; reflexivity|].
  split; [vm_compute; reflexivity|]. split; [vm_compute; reflexivity|].
  split; [vm_compute; reflexivity|]. split; vm_compute; reflexivity.
Qed.

(** Claim C2 at a failing input: two injections in a row into the
    fresh 100-block volume both succeed and both record data block 11 in
    their inode; after the first one bit 11 of the on-disk block bitmap
    is clear (the superblock copy overwrote it), and after the second
    one the first file reads back with the second file's byte. *)
Theorem second_injection_takes_block_11_again :
  report_of (inject fresh_volume 1 [1; 2; 3] (bytes_of_string "/a.msa"))
  = Some {| rp_inode := 2; rp_blocks := 1; rp_size := 3 |}
  /\ report_of (inject volume_a 1 [9] (bytes_of_string "/b.msa"))
     = Some {| rp_inode := 3; rp_blocks := 1; rp_size := 1 |}
  /\ (ino_direct_blocks <$> disk_inode volume_ab 1 2)
     = Some [11; 0; 0; 0; 0; 0; 0; 0; 0; 0]
  /\ (ino_direct_blocks <$> disk_inode volume_ab 1 3)
     = Some [11; 0; 0; 0; 0; 0; 0; 0; 0; 0]
  /\ disk_block_bit volume_a 1 11 = Some false
  /\ disk_file volume_a 1 2 = Some [1; 2; 3]
  /\ disk_file volume_ab 1 2 = Some [9; 0; 0].
Proof.
  split; [vm_compute; reflexivity|]. split; [vm_compute; reflexivity|].
  split; [vm_compute; reflexivity|]. split; [vm_compute; reflexivity|].
  split; [vm_compute; reflexivity|]. split; vm_compute; reflexivity.
Qed.

(** Claim C3 at a failing input: after format and the injection of
    "/hello.msa", slot 0 of the root directory holds "hello.msa" with
    inode 2 and the file reads back from disk; but the lister takes the
    root inode number from bytes 28..31 of the inode-table block (its
    superblock pointer aliases the reused buffer), lands on inode 0,
    reads block 0 as the directory and prints one entry with an empty
    name and the magic number as inode. *)
Theorem lister_reads_block_0_as_directory :
  report_of (inject fresh_volume 1 [104; 105] (bytes_of_string "/hello.msa"))
  = Some {| rp_inode := 2; rp_blocks := 1; rp_size := 2 |}
  /\ disk_entry_name hello_volume 1 0 = Some (bytes_of_string "hello.msa")
  /\ (de_inode <$> disk_dirent hello_volume 1 0) = Some 2
  /\ disk_file hello_volume 1 2 = Some [104; 105]
  /\ (ls_root_number <$> report_of (mesafs_list hello_volume 1)) = Some 0
  /\ (ls_lines <$> report_of (mesafs_list hello_volume 1))
     = Some [ {| ln_slot := 0; ln_inode := MESAFS_MAGIC; ln_type := 1; ln_name := [] |} ].
Proof.
  split; [vm_compute; reflexivity|]. split; [vm_compute; reflexivity|].
  split; [vm_compute; reflexivity|]. split; [vm_compute; reflexivity|].
  split; vm_compute; reflexivity.
Qed.

(** * Decoding what was encoded *)

Lemma get_u32_skip (l1 l2 : list Z) (o : nat) :
  get_u32 (l1 ++ l2) (length l1 + o) = get_u32 l2 o.
Proof.
  unfold get_u32, byte_at.
  rewrite !lookup_app_r by lia.
  repeat f_equal; lia.
Qed.

Lemma get_u32_after_u32 (v : Z) (rest : list Z) (o : nat) :
  get_u32 (encode_u32 v ++ rest) (4 + o) = get_u32 rest o.
Proof. apply (get_u32_skip (encode_u32 v)). Qed.

Lemma get_u32_flat_map_encode (vs : list Z) (k : nat) (rest : list Z) (v : Z) :
  vs !! k = Some v ->
  get_u32 (flat_map encode_u32 vs ++ rest) (4 * k) = wrap32 v.
Proof.
  revert k. induction vs as [|x vs IH]; intros k Hk; [discriminate|].
  cbn [flat_map]. rewrite <- app_assoc.
  destruct k as [|k]; cbn [lookup list_lookup] in Hk.
  - injection Hk as ->. apply get_u32_encode_u32.
  - replace (4 * S k)%nat with (4 + 4 * k)%nat by lia.
    rewrite get_u32_after_u32. by apply IH.
Qed.

Lemma encode_superblock_fields (sb : mesafs_superblock_t) :
  encode_superblock sb
  = flat_map encode_u32
      [sb_magic sb; sb_version sb; sb_block_size sb; sb_total_blocks sb;
       sb_free_blocks sb; sb_total_inodes sb; sb_free_inodes sb;
       sb_root_inode sb; sb_first_data_block sb]
    ++ sb_reserved sb.
Proof. unfold encode_superblock. cbn [flat_map]. by rewrite <- !app_assoc. Qed.

Lemma decode_encode_superblock (sb : mesafs_superblock_t) (rest : list Z) :
  let sb' := decode_superblock (encode_superblock sb ++ rest) in
  sb_magic sb' = wrap32 (sb_magic sb)
  /\ sb_version sb' = wrap32 (sb_version sb)
  /\ sb_block_size sb' = wrap32 (sb_block_size sb)
  /\ sb_total_blocks sb' = wrap32 (sb_total_blocks sb)
  /\ sb_free_blocks sb' = wrap32 (sb_free_blocks sb)
  /\ sb_total_inodes sb' = wrap32 (sb_total_inodes sb)
  /\ sb_free_inodes sb' = wrap32 (sb_free_inodes sb)
  /\ sb_root_inode sb' = wrap32 (sb_root_inode sb)
  /\ sb_first_data_block sb' = wrap32 (sb_first_data_block sb).
Proof.
  cbv zeta. rewrite encode_superblock_fields, <- app_assoc.
  unfold decode_superblock.
  cbn [sb_magic sb_version sb_block_size sb_total_blocks sb_free_blocks
       sb_total_inodes sb_free_inodes sb_root_inode sb_first_data_block].
  split_and!.
  - by apply (get_u32_flat_map_encode _ 0).
  - by apply (get_u32_flat_map_encode _ 1).
  - by apply (get_u32_flat_map_encode _ 2).
  - by apply (get_u32_flat_map_encode _ 3).
  - by apply (get_u32_flat_map_encode _ 4).
  - by apply (get_u32_flat_map_encode _ 5).
  - by apply (get_u32_flat_map_encode _ 6).
  - by apply (get_u32_flat_map_encode _ 7).
  - by apply (get_u32_flat_map_encode _ 8).
Qed.

(** * The formatted image *)

Lemma format_superblock_on_disk (d : list (list Z)) (part_lba part_sectors : Z) :
  part_lba <> 0 ->
  exists sb,
    disk_superblock (image_of (format d part_lba part_sectors)) part_lba = Some sb
    /\ sb_magic sb = MESAFS_MAGIC
    /\ sb_total_blocks sb = wrap32 (part_sectors / 8)
    /\ sb_free_blocks sb = wrap32 (part_sectors / 8 - 11)
    /\ sb_total_inodes sb = 256
    /\ sb_free_inodes sb = 254
    /\ sb_root_inode sb = 1
    /\ sb_first_data_block sb = MESAFS_DATA_START.
Proof.
  intros Hlba. unfold disk_superblock.
  rewrite format_read by (auto; lia).
  eexists. split; [reflexivity|].
  change (formatted_block part_sectors 0)
    with (format_block0 (format_superblock (part_sectors / 8) 256)).
  rewrite format_block0_split.
  destruct (decode_encode_superblock (format_superblock (part_sectors / 8) 256)
              (drop 512 zero_block))
    as (H1 & H2 & H3 & H4 & H5 & H6 & H7 & H8 & H9).
  rewrite H1, H4, H5, H6, H7, H8, H9.
  cbn [format_superblock sb_magic sb_total_blocks sb_free_blocks sb_total_inodes
       sb_free_inodes sb_root_inode sb_first_data_block].
  split_and!; try reflexivity.
  unfold wrap32, MESAFS_DATA_START. rewrite Z.mod_mod by lia. f_equal. lia.
Qed.

(** Claim C10: for every partition of fewer than 88 sectors the
    formatter succeeds, the superblock on disk holds a total of at most
    10 blocks and a free-block count of 2^32 + (total - 10 - 1), a value
    in the last eleven below 2^32. *)
Theorem format_small_partition_wraps_free_blocks
    (d : list (list Z)) (part_lba part_sectors : Z) :
  part_lba <> 0 -> 0 <= part_sectors < 88 ->
  exists d' sb,
    format d part_lba part_sectors = Exit0 tt d'
    /\ disk_superblock d' part_lba = Some sb
    /\ sb_total_blocks sb = part_sectors / 8
    /\ sb_total_blocks sb <= 10
    /\ sb_free_blocks sb = 2 ^ 32 + (sb_total_blocks sb - MESAFS_DATA_START - 1)
    /\ 2 ^ 32 - 11 <= sb_free_blocks sb < 2 ^ 32.
Proof.
  intros Hlba Hs.
  destruct (format_exit0 d part_lba part_sectors Hlba) as [d' Hd'].
  destruct (format_superblock_on_disk d part_lba part_sectors Hlba)
    as (sb & Hsb & _ & Htot & Hfree & _).
  rewrite Hd' in Hsb. cbn [image_of] in Hsb.
  exists d', sb. split; [exact Hd'|]. split; [exact Hsb|].
  assert (0 <= part_sectors / 8 <= 10) as Hb.
  { split; [apply Z.div_pos; lia|].
    assert (part_sectors / 8 < 11) by (apply Z.div_lt_upper_bound; lia). lia. }
  rewrite Htot, Hfree. rewrite (wrap32_small (part_sectors / 8)) by lia.
  assert (wrap32 (part_sectors / 8 - 11) = 2 ^ 32 + (part_sectors / 8 - 11)) as ->.
  { unfold wrap32. symmetry.
    apply (Z.mod_unique _ _ (-1)); lia. }
  unfold MESAFS_DATA_START. lia.
Qed.

Lemma format_small_partition_wraps_free_blocks_witness :
  exists d' sb,
    format [] 1 40 = Exit0 tt d'
    /\ disk_superblock d' 1 = Some sb
    /\ sb_total_blocks sb = 40 / 8
    /\ sb_total_blocks sb <= 10
    /\ sb_free_blocks sb = 2 ^ 32 + (sb_total_blocks sb - MESAFS_DATA_START - 1)
    /\ 2 ^ 32 - 11 <= sb_free_blocks sb < 2 ^ 32.
Proof. apply (format_small_partition_wraps_free_blocks [] 1 40); lia. Defined.

(** Claim C1 at a failing input, and at every other: on a freshly
    formatted volume, block 0 read as the block bitmap has bits 1 and 10
    clear and bit 12 set; the superblock copied over the start of the
    block replaced the eleven bits just set. *)
Theorem format_block_bitmap_holds_superblock_bytes
    (d : list (list Z)) (part_lba part_sectors : Z) :
  part_lba <> 0 ->
  let d' := image_of (format d part_lba part_sectors) in
  disk_block_bit d' part_lba 1 = Some false
  /\ disk_block_bit d' part_lba 10 = Some false
  /\ disk_block_bit d' part_lba 12 = Some true.
Proof.
  intros Hlba d'. subst d'. unfold disk_block_bit.
  change MESAFS_BLOCK_BITMAP_BLOCK with 0.
  rewrite format_read by (auto; lia).
  change (formatted_block part_sectors 0)
    with (format_block0 (format_superblock (part_sectors / 8) 256)).
  rewrite format_block0_split.
  cbn [mbind option_bind].
  split_and!; vm_compute; reflexivity.
Qed.

Lemma format_block_bitmap_holds_superblock_bytes_witness :
  disk_block_bit fresh_volume 1 1 = Some false
  /\ disk_block_bit fresh_volume 1 10 = Some false
  /\ disk_block_bit fresh_volume 1 12 = Some true.
Proof.
  apply (format_block_bitmap_holds_superblock_bytes [] 1 800). lia.
Defined.

(** * [volume_ok] is an invariant of the tools *)

Lemma volume_ok_intro (d : list (list Z)) (part_lba : Z) (block rib : list Z) :
  part_lba <> 0 ->
  (forall k, 0 <= k <= 10 ->
     is_Some (read_block d (wrap32 (part_lba * SECTOR_SIZE)) k)) ->
  read_block d (wrap32 (part_lba * SECTOR_SIZE)) 0 = Some block ->
  read_block d (wrap32 (part_lba * SECTOR_SIZE)) 2 = Some rib ->
  get_u32 block 0 = MESAFS_MAGIC ->
  sb_total_inodes (decode_superblock block) = 256 ->
  byte_at block 36 = 0 -> byte_at block 37 = 0 ->
  get_u32 rib 128 = MESAFS_DATA_START ->
  volume_ok d part_lba = true.
Proof.
  intros Hlba Hread Hb0 Hb2 Hmagic Hino H36 H37 Hroot. unfold volume_ok.
  change MESAFS_INODE_TABLE_START with 2. rewrite Hb0, Hb2.
  change (1 * SIZEOF_INODE + 16)%nat with 128%nat.
  rewrite Hmagic, Hino, H36, H37, Hroot. cbn [Z.eqb Pos.eqb andb].
  rewrite andb_true_r. apply andb_true_intro. split.
  - by destruct (Z.eqb_spec part_lba 0).
  - apply forallb_forall. intros k Hk.
    apply list_elem_of_In, elem_of_seqZ in Hk.
    unfold readable. apply bool_decide_eq_true. apply Hread.
    unfold MESAFS_DATA_START in Hk. lia.
Qed.

(** Every volume the formatter writes is well-formed. *)
Lemma format_volume_ok (d : list (list Z)) (part_lba part_sectors : Z) :
  part_lba <> 0 ->
  volume_ok (image_of (format d part_lba part_sectors)) part_lba = true.
Proof.
  intros Hlba.
  apply (volume_ok_intro _ _ (formatted_block part_sectors 0)
           (formatted_block part_sectors 2));
    [ exact Hlba
    | intros k Hk; rewrite format_read by auto; by eexists
    | apply format_read; auto; lia
    | apply format_read; auto; lia
    | vm_compute; reflexivity
    | vm_compute; reflexivity
    | vm_compute; reflexivity
    | vm_compute; reflexivity
    | vm_compute; reflexivity ].
Qed.

Lemma length_decoded_reserved (block : list Z) :
  Z.of_nat (length block) = MESAFS_BLOCK_SIZE ->
  length (sb_reserved (decode_superblock block)) = 476%nat.
Proof.
  intros H. unfold MESAFS_BLOCK_SIZE in H. cbn [decode_superblock sb_reserved].
  rewrite length_take, length_drop. lia.
Qed.

Lemma byte_at_app_r (l1 l2 : list Z) (i : nat) :
  (length l1 <= i)%nat -> byte_at (l1 ++ l2) i = byte_at l2 (i - length l1).
Proof. intros H. unfold byte_at. by rewrite lookup_app_r. Qed.

Lemma byte_at_app_l (l1 l2 : list Z) (i : nat) :
  (i < length l1)%nat -> byte_at (l1 ++ l2) i = byte_at l1 i.
Proof. intros H. unfold byte_at. by rewrite lookup_app_l. Qed.

Lemma byte_at_encode_superblock_reserved (sb : mesafs_superblock_t) (rest : list Z) (i : nat) :
  (i < length (sb_reserved sb))%nat ->
  byte_at (encode_superblock sb ++ rest) (36 + i) = byte_at (sb_reserved sb) i.
Proof.
  intros H. rewrite encode_superblock_fields, <- app_assoc.
  rewrite byte_at_app_r by (rewrite length_flat_map_encode_u32; simpl; lia).
  rewrite length_flat_map_encode_u32. cbn [length].
  replace (36 + i - 4 * 9)%nat with i by lia.
  by apply byte_at_app_l.
Qed.

(** A successful injection leaves a well-formed volume. *)
Lemma inject_volume_ok (d : list (list Z)) (part_lba : Z) (file_data dest_path : list Z)
    (r : inject_report) (d' : list (list Z)) :
  volume_ok d part_lba = true ->
  inject d part_lba file_data dest_path = Exit0 r d' ->
  volume_ok d' part_lba = true.
Proof.
  intros Hok Hrun.
  destruct (inject_on_volume d part_lba file_data dest_path Hok)
    as (block & ib & dir & Hb0 & Hib & Hdir & Hcases).
  destruct (volume_ok_facts _ _ Hok)
    as (Hlba & Hread & blk & rib & Hblk0 & Hb2 & Hmagic & Hinodes & H36 & H37 & Hroot).
  set (po := wrap32 (part_lba * SECTOR_SIZE)) in *.
  assert (blk = block) as -> by congruence.
  assert (0 <= po) as Hpo by apply wrap32_range.
  destruct Hcases as [[_ H]|[_ [H|(n & Hn & Hfree & Hpick & [H|H])]]];
    try (rewrite H in Hrun; discriminate).
  destruct H as (blocks & block' & sb' & itb & Hall & Hnd & Hcount & Hlen' & Hid & Hitb & H).
  rewrite H in Hrun. cbv zeta in Hrun.
  destruct (find_free_slot dir) as [slot|] eqn:Hslot; [|discriminate].
  injection Hrun as <- <-.
  destruct (find_free_slot_spec _ _ Hslot) as [Hlt _].
  destruct (locate_small n) as (_ & Hblk & Hidx); [lia|].
  pose proof (read_block_length _ _ _ _ Hb0) as Hlen0.
  pose proof (read_block_length _ _ _ _ Hib) as Hlen1.
  pose proof (read_block_length _ _ _ _ Hdir) as Hlen10.
  pose proof (read_block_length _ _ _ _ Hitb) as Hlenit.
  destruct Hid as (Hmag' & Hino' & _ & Hres').
  assert (length (encode_superblock sb') = 512%nat) as Henc.
  { rewrite length_encode_superblock, Hres', length_decoded_reserved by done.
    reflexivity. }
  set (itb' := overlay itb (Z.to_nat (n mod 32) * SIZEOF_INODE)
                 (encode_inode (file_inode_record n
                    (Z.of_nat (length file_data)) blocks))).
  assert ((Z.to_nat (n mod 32) * SIZEOF_INODE + SIZEOF_INODE <= length itb)%nat)
    as Hfit by (unfold SIZEOF_INODE, MESAFS_BLOCK_SIZE in *; lia).
  assert (Z.of_nat (length itb') = MESAFS_BLOCK_SIZE) as Hlenit'.
  { subst itb'. rewrite length_overlay; [done|]. by rewrite length_encode_inode. }
  set (block0' := overlay block' 0 (encode_superblock sb')).
  assert (Z.of_nat (length block0') = MESAFS_BLOCK_SIZE) as Hlen0'.
  { subst block0'. rewrite length_overlay; [congruence|].
    rewrite Henc, Hlen'. unfold MESAFS_BLOCK_SIZE in *. lia. }
  (* what each metadata block reads as afterwards *)
  assert (forall k x, 0 <= k <= 10 -> k <> MESAFS_INODE_TABLE_START + n / 32 ->
            read_block d po k = Some x ->
            read_block (image_with_inode d po file_data n blocks itb) po k = Some x)
    as Hkeep2.
  { intros k x Hk Hne Hx. unfold image_with_inode.
    apply read_write_ne; [extents_differ|].
    apply read_write_payload_ne; auto; [lia|].
    eapply Forall_impl; [exact Hall|]. simpl. intros; lia. }
  assert (read_block (image_with_inode d po file_data n blocks itb) po
            (MESAFS_INODE_TABLE_START + n / 32) = Some itb') as Hnew2.
  { unfold image_with_inode. by apply read_write_eq. }
  assert (forall k x, 2 <= k <= 9 ->
            read_block (image_with_inode d po file_data n blocks itb) po k = Some x ->
            read_block
              (image_with_entry (image_with_inode d po file_data n blocks itb) po
                 dir slot n (filename_of dest_path) block' sb' (bitmap_set ib n))
              po k = Some x) as Hkeep3.
  { intros k x Hk Hx. unfold image_with_entry.
    apply read_write_ne; [extents_differ|].
    apply read_write_ne; [extents_differ|].
    apply read_write_ne; [extents_differ|]. exact Hx. }
  assert (read_block
            (image_with_entry (image_with_inode d po file_data n blocks itb) po
               dir slot n (filename_of dest_path) block' sb' (bitmap_set ib n))
            po 0 = Some block0') as Hnew0.
  { unfold image_with_entry.
    apply read_write_ne; [extents_differ|].
    by apply read_write_eq. }
  assert (exists rib', read_block
            (image_with_entry (image_with_inode d po file_data n blocks itb) po
               dir slot n (filename_of dest_path) block' sb' (bitmap_set ib n))
            po 2 = Some rib' /\ get_u32 rib' 128 = MESAFS_DATA_START)
    as (rib' & Hnewrib & Hroot').
  { destruct (Z.eq_dec (n / 32) 0) as [Hz|Hnz].
    - assert (n = n mod 32) as Hsmall
        by (pose proof (Z.div_mod n 32 ltac:(lia)); lia).
      exists itb'. split.
      + apply Hkeep3; [lia|]. rewrite <- Hnew2. f_equal.
        unfold MESAFS_INODE_TABLE_START. lia.
      + assert (rib = itb) as ->.
        { unfold MESAFS_INODE_TABLE_START in Hitb.
          rewrite Hz, Z.add_0_r in Hitb. congruence. }
        subst itb'. unfold SIZEOF_INODE in *.
        rewrite get_u32_overlay_out; [done|lia|]. left. lia.
    - exists rib. split; [|done].
      apply Hkeep3; [lia|]. apply Hkeep2; [lia| |done].
      unfold MESAFS_INODE_TABLE_START. lia. }
  apply (volume_ok_intro _ _ block0' rib');
    [exact Hlba | | exact Hnew0 | exact Hnewrib | | | | | exact Hroot'].
  - intros k Hk. fold po.
    destruct (Z.eq_dec k 0) as [->|Hk0]; [by eexists|].
    destruct (Z.eq_dec k 1) as [->|Hk1].
    { unfold image_with_entry. eexists.
      apply read_write_eq; [reflexivity|]. by rewrite length_bitmap_set. }
    destruct (Z.eq_dec k 10) as [->|Hk10].
    { unfold image_with_entry. eexists.
      apply read_write_ne; [extents_differ|].
      apply read_write_ne; [extents_differ|].
      apply read_write_eq; [reflexivity|]. by rewrite length_insert_entry. }
    destruct (Z.eq_dec k (MESAFS_INODE_TABLE_START + n / 32)) as [->|Hkn].
    { eexists. apply Hkeep3; [lia|exact Hnew2]. }
    destruct (Hread k Hk) as [x Hx]. exists x.
    apply Hkeep3; [lia|]. by apply Hkeep2.
  - subst block0'. rewrite overlay_0_app.
    rewrite encode_superblock_fields, <- app_assoc.
    rewrite (get_u32_flat_map_encode _ 0 _ (sb_magic sb')) by reflexivity.
    rewrite Hmag'. cbn [decode_superblock sb_magic]. rewrite Hmagic. reflexivity.
  - subst block0'. rewrite overlay_0_app.
    destruct (decode_encode_superblock sb' (drop (length (encode_superblock sb')) block'))
      as (_ & _ & _ & _ & _ & -> & _).
    rewrite Hino', Hinodes. reflexivity.
  - subst block0'. rewrite overlay_0_app.
    rewrite (byte_at_encode_superblock_reserved sb' _ 0)
      by (rewrite Hres', length_decoded_reserved by done; lia).
    rewrite Hres'. cbn [decode_superblock sb_reserved].
    unfold byte_at in *. rewrite lookup_take, lookup_drop.
    rewrite decide_True by lia. exact H36.
  - subst block0'. rewrite overlay_0_app.
    rewrite (byte_at_encode_superblock_reserved sb' _ 1)
      by (rewrite Hres', length_decoded_reserved by done; lia).
    rewrite Hres'. cbn [decode_superblock sb_reserved].
    unfold byte_at in *. rewrite lookup_take, lookup_drop.
    rewrite decide_True by lia. exact H37.
Qed.

(** * What the two scans return *)

Lemma alloc_inode_loop_first_fit (n : nat) (i : Z) (ib ib' : list Z)
    (sb sb' : mesafs_superblock_t) (k : Z) :
  alloc_inode_loop n i ib sb = Some (k, ib', sb') -> 0 < i ->
  (k <> 0 -> forall j, i <= j < k -> bitmap_test ib j = Some true)
  /\ (k = 0 -> ib' = ib /\ sb' = sb
               /\ forall j, i <= j < i + Z.of_nat n -> bitmap_test ib j = Some true).
Proof.
  revert i. induction n as [|n IH]; intros i H Hi; cbn [alloc_inode_loop] in H.
  - injection H as <- <- <-. split; [congruence|].
    intros _. split_and!; auto. intros; lia.
  - destruct (bitmap_test ib i) as [[]|] eqn:Hb; [|injection H as <- <- <-|discriminate].
    + destruct (IH _ H ltac:(lia)) as [H1 H2]. split.
      * intros Hk j Hj. destruct (Z.eq_dec j i) as [->|]; [exact Hb|].
        apply H1; [exact Hk|lia].
      * intros Hk. destruct (H2 Hk) as (? & ? & H3). split_and!; auto.
        intros j Hj. destruct (Z.eq_dec j i) as [->|]; [exact Hb|].
        apply H3. lia.
    + split; [intros; lia|lia].
Qed.

Lemma iter_dec_free_blocks_fields (k : nat) (sb : mesafs_superblock_t) :
  sb_free_inodes (Nat.iter k dec_free_blocks sb) = sb_free_inodes sb
  /\ sb_total_blocks (Nat.iter k dec_free_blocks sb) = sb_total_blocks sb
  /\ sb_total_inodes (Nat.iter k dec_free_blocks sb) = sb_total_inodes sb
  /\ sb_magic (Nat.iter k dec_free_blocks sb) = sb_magic sb.
Proof. induction k as [|k IH]; [done|]. cbn [Nat.iter dec_free_blocks sb_free_inodes
  sb_total_blocks sb_total_inodes sb_magic]. exact IH. Qed.


Lemma alloc_blocks_loop_trace (n : nat) (i needed : Z) (bm : list Z)
    (sb : mesafs_superblock_t) (acc res bm' : list Z) (sb' : mesafs_superblock_t) :
  0 <= i ->
  alloc_blocks_loop n i needed bm sb acc = Some (res, bm', sb') ->
  exists blocks,
    res = acc ++ blocks
    /\ Forall (fun b => i <= b < i + Z.of_nat n /\ bitmap_test bm b = Some false) blocks
    /\ bm' = foldl bitmap_set bm blocks
    /\ sb' = Nat.iter (length blocks) dec_free_blocks sb.
Proof.
  revert i bm sb acc. induction n as [|n IH]; intros i bm sb acc Hi H;
    cbn [alloc_blocks_loop] in H.
  { injection H as <- <- <-. exists []. by rewrite app_nil_r. }
  destruct (Z.of_nat (length acc) <? needed).
  2:{ injection H as <- <- <-. exists []. by rewrite app_nil_r. }
  destruct (bitmap_test bm i) as [[]|] eqn:Hb; [| |discriminate].
  - destruct (IH (i + 1) _ _ _ ltac:(lia) H) as (blocks & -> & Hall & -> & ->).
    exists blocks. split_and!; auto.
    eapply Forall_impl; [exact Hall|]. simpl. intros b [? ?]. split; [lia|done].
  - destruct (IH (i + 1) _ _ _ ltac:(lia) H) as (blocks & -> & Hall & -> & ->).
    exists (i :: blocks). rewrite <- app_assoc. split_and!; auto.
    + constructor; [split; [lia|exact Hb]|].
      eapply Forall_impl; [exact Hall|]. simpl. intros b [? Hf]. split; [lia|].
      rewrite bitmap_test_set_other in Hf by lia. exact Hf.
    + cbn [length]. by rewrite Nat.iter_succ_r.
Qed.

(** The run of a successful injection, piece by piece. *)
Lemma inject_success_inv (d : list (list Z)) (part_lba : Z)
    (file_data dest_path : list Z) (r : inject_report) (d' : list (list Z)) :
  volume_ok d part_lba = true ->
  inject d part_lba file_data dest_path = Exit0 r d' ->
  exists block ib dir n blocks block' sb2 itb slot,
    read_block d (wrap32 (part_lba * SECTOR_SIZE)) 0 = Some block
    /\ read_block d (wrap32 (part_lba * SECTOR_SIZE)) 1 = Some ib
    /\ read_block d (wrap32 (part_lba * SECTOR_SIZE)) 10 = Some dir
    /\ read_block d (wrap32 (part_lba * SECTOR_SIZE)) (2 + n / 32) = Some itb
    /\ 2 <= n < 256
    /\ alloc_inode ib (decode_superblock block)
       = Some (n, bitmap_set ib n, dec_free_inodes (decode_superblock block))
    /\ alloc_blocks (blocks_needed_of (Z.of_nat (length file_data))) block
         (dec_free_inodes (decode_superblock block))
       = Some (blocks, block', sb2)
    /\ Z.of_nat (length blocks) = blocks_needed_of (Z.of_nat (length file_data))
    /\ blocks_needed_of (Z.of_nat (length file_data)) <= 10
    /\ Forall (fun b => 11 <= b < 298) blocks /\ NoDup blocks
    /\ length block' = length block
    /\ find_free_slot dir = Some slot
    /\ r = {| rp_inode := n; rp_blocks := Z.of_nat (length blocks);
              rp_size := Z.of_nat (length file_data) |}
    /\ d' = image_with_entry
              (image_with_inode d (wrap32 (part_lba * SECTOR_SIZE)) file_data n blocks itb)
              (wrap32 (part_lba * SECTOR_SIZE)) dir slot n (filename_of dest_path)
              block' sb2 (bitmap_set ib n).
Proof.
  intros Hok Hrun.
  destruct (volume_ok_facts _ _ Hok)
    as (Hlba & Hread & block & rib & Hb0 & Hb2 & Hmagic & Hinodes & H36 & H37 & Hroot).
  set (po := wrap32 (part_lba * SECTOR_SIZE)) in *.
  assert (0 <= po) as Hpo by apply wrap32_range.
  destruct (Hread 1 ltac:(lia)) as [ib Hib].
  destruct (Hread 10 ltac:(lia)) as [dir Hdir].
  pose proof (read_block_length _ _ _ _ Hb0) as Hlen0.
  pose proof (read_block_length _ _ _ _ Hib) as Hlen1.
  pose proof (blocks_needed_pos (Z.of_nat (length file_data))) as Hpos.
  unfold inject in Hrun. destruct (Z.eqb_spec part_lba 0) as [|_]; [done|].
  fold po in Hrun. rewrite Hb0, Hmagic, Z.eqb_refl in Hrun. cbn [negb] in Hrun.
  change MESAFS_INODE_BITMAP_BLOCK with 1 in *. rewrite Hib in Hrun.
  set (needed := blocks_needed_of (Z.of_nat (length file_data))) in *.
  destruct (Z.ltb_spec MESAFS_DIRECT_BLOCKS needed) as [Hbig|Hfits]; [discriminate|].
  unfold inject_alloc in Hrun.
  assert (alloc_inode ib (decode_superblock block)
          = Some (0, ib, decode_superblock block)
          \/ exists n, 2 <= n < 256
               /\ alloc_inode ib (decode_superblock block)
                  = Some (n, bitmap_set ib n, dec_free_inodes (decode_superblock block)))
    as [E | (n & Hn & Halloc)].
  { unfold alloc_inode. rewrite Hinodes.
    destruct (alloc_inode_loop_spec (Z.to_nat (256 - 2)) 2 ib (decode_superblock block))
      as [-> | (n & Hn & Hfree & ->)];
      [lia | unfold MESAFS_BLOCK_SIZE in *; lia | by left |].
    right. exists n. split; [lia|done]. }
  { rewrite E in Hrun. discriminate. }
  rewrite Halloc in Hrun.
  destruct (Z.eqb_spec n 0) as [|_]; [lia|].
  destruct (alloc_blocks needed block (dec_free_inodes (decode_superblock block)))
    as [[[blocks block'] sb2]|] eqn:Hblocks; [|discriminate].
  assert (Forall (fun b => 11 <= b < 298) blocks /\ NoDup blocks
          /\ length block' = length block
          /\ (Z.of_nat (length blocks) <= needed \/ blocks = [])) as (Hall & Hnd & Hlen' & Hcnt).
  { unfold alloc_blocks in Hblocks.
    destruct (alloc_blocks_loop_spec
                (Z.to_nat (sb_total_blocks (dec_free_inodes (decode_superblock block))
                           - (MESAFS_DATA_START + 1)))
                (MESAFS_DATA_START + 1) needed block
                (dec_free_inodes (decode_superblock block)) [])
      as (blocks0 & block0 & sb0 & E & Hall & Hnd & Hlen' & _ & Hcnt).
    { unfold MESAFS_DATA_START. lia. }
    { unfold MESAFS_BLOCK_SIZE in *. lia. }
    { unfold MESAFS_DIRECT_BLOCKS, MESAFS_DATA_START in *. simpl length. lia. }
    { unfold MESAFS_DIRECT_BLOCKS in *. simpl length. lia. }
    { intros j Hj. apply reserved_bits_clear; auto;
        unfold MESAFS_DATA_START in *; lia. }
    rewrite E in Hblocks. cbn [app] in *. injection Hblocks as <- <- <-.
    split_and!; [|exact Hnd|exact Hlen'|exact Hcnt].
    eapply Forall_impl; [exact Hall|]. simpl. unfold MESAFS_DATA_START. intros; lia. }
  destruct (Z.ltb_spec (Z.of_nat (length blocks)) needed) as [Hshort|Hfull];
    [discriminate|].
  assert (Z.of_nat (length blocks) = needed) as Hcount.
  { destruct Hcnt as [Hc| ->]; [lia|]. simpl in Hfull. lia. }
  destruct (Hread (MESAFS_INODE_TABLE_START + n / 32)) as [itb Hitb].
  { destruct (locate_small n) as (_ & ? & _); lia. }
  assert (forall k x, 0 <= k <= 10 -> read_block d po k = Some x ->
            read_block (write_payload d po file_data 0 blocks) po k = Some x)
    as Hkeep.
  { intros k x Hk Hx. apply read_write_payload_ne; auto; [lia|].
    eapply Forall_impl; [exact Hall|]. simpl. intros; lia. }
  rewrite (inject_commit_ok _ po _ _ _ _ _ n blocks itb rib dir) in Hrun;
    [ | exact Hpo | lia
    | apply Hkeep; [|exact Hitb]
    | apply Hkeep; [|exact Hb2]
    | exact Hroot
    | apply Hkeep; [|exact Hdir] ].
  2:{ destruct (locate_small n) as (_ & ? & _); lia. }
  2:{ unfold MESAFS_INODE_TABLE_START. lia. }
  2:{ unfold MESAFS_DATA_START. lia. }
  cbv zeta in Hrun.
  destruct (find_free_slot dir) as [slot|] eqn:Hslot; [|discriminate].
  injection Hrun as <- <-.
  exists block, ib, dir, n, blocks, block', sb2, itb, slot.
  split_and!; auto; try lia.
Qed.

(** * The inode record codec *)

Lemma byte_at_skip (l1 l2 : list Z) (o : nat) :
  byte_at (l1 ++ l2) (length l1 + o) = byte_at l2 o.
Proof.
  unfold byte_at. rewrite lookup_app_r by lia. do 2 f_equal. lia.
Qed.

Lemma length_encode_u16 v : length (encode_u16 v) = 2%nat.
Proof. done. Qed.

Lemma u16_bytes_sum (v : Z) :
  v mod 256 + 2 ^ 8 * ((v / 2 ^ 8) mod 256) = wrap16 v.
Proof.
  unfold wrap16. change (2 ^ 16) with (256 * 256). change (2 ^ 8) with 256.
  rewrite (Z.rem_mul_r v 256 256) by lia. reflexivity.
Qed.

(** Decoding the record at index 0 of an encoded inode gives back every
    field, reduced to the width of its C type. *)
Lemma decode_encode_inode (ino : mesafs_inode_t) (rest : list Z) :
  decode_inode (encode_inode ino ++ rest) 0
  = {| ino_inode_num := wrap32 (ino_inode_num ino);
       ino_type := wrap8 (ino_type ino);
       ino_flags := wrap8 (ino_flags ino);
       ino_links := wrap16 (ino_links ino);
       ino_size := wrap32 (ino_size ino);
       ino_blocks_used := wrap32 (ino_blocks_used ino);
       ino_direct_blocks := map wrap32 (direct_slots (ino_direct_blocks ino));
       ino_indirect_block := wrap32 (ino_indirect_block ino);
       ino_created := wrap32 (ino_created ino)
                      + 2 ^ 32 * wrap32 (ino_created ino / 2 ^ 32);
       ino_modified := wrap32 (ino_modified ino)
                       + 2 ^ 32 * wrap32 (ino_modified ino / 2 ^ 32) |}.
Proof.
  unfold decode_inode, encode_inode, encode_u64. rewrite <- !app_assoc.
  change (0 * SIZEOF_INODE)%nat with 0%nat. cbn [Nat.add].
  set (slots := direct_slots (ino_direct_blocks ino)).
  assert (length slots = 10%nat) as Hslots by apply length_direct_slots.
  (* the direct-block area, 40 bytes from offset 16 *)
  set (tail := encode_u32 (ino_indirect_block ino) ++ _).
  set (pre16 := fun t : list Z =>
         encode_u32 (ino_inode_num ino) ++ [wrap8 (ino_type ino)]
         ++ [wrap8 (ino_flags ino)] ++ encode_u16 (ino_links ino)
         ++ encode_u32 (ino_size ino) ++ encode_u32 (ino_blocks_used ino) ++ t).
  assert (forall (t : list Z) (o : nat),
            get_u32 (pre16 t) (16 + o) = get_u32 t o) as Hskip16.
  { intros t o. unfold pre16.
    rewrite (get_u32_after_u32 _ _ (12 + o)).
    change (12 + o)%nat with (length [wrap8 (ino_type ino)] + (11 + o))%nat.
    rewrite get_u32_skip.
    change (11 + o)%nat with (length [wrap8 (ino_flags ino)] + (10 + o))%nat.
    rewrite get_u32_skip.
    change (10 + o)%nat with (length (encode_u16 (ino_links ino)) + (8 + o))%nat.
    rewrite get_u32_skip.
    change (8 + o)%nat with (4 + (4 + o))%nat.
    by rewrite !get_u32_after_u32. }
  assert (forall (t : list Z) (o : nat),
            get_u32 (flat_map encode_u32 slots ++ t) (40 + o) = get_u32 t o)
    as Hskip40.
  { intros t o.
    replace (40 + o)%nat with (length (flat_map encode_u32 slots) + o)%nat
      by (rewrite length_flat_map_encode_u32; lia).
    apply get_u32_skip. }
  fold (pre16 (flat_map encode_u32 slots ++ tail)).
  f_equal.
  - unfold pre16. apply get_u32_encode_u32.
  - unfold pre16, byte_at. cbn [encode_u32 encode_u16 app lookup list_lookup from_option id].
    apply u16_bytes_sum.
  - unfold pre16.
    rewrite (get_u32_after_u32 _ _ 4).
    rewrite (get_u32_skip [wrap8 (ino_type ino)] _ 3).
    rewrite (get_u32_skip [wrap8 (ino_flags ino)] _ 2).
    rewrite (get_u32_skip (encode_u16 (ino_links ino)) _ 0).
    apply get_u32_encode_u32.
  - unfold pre16.
    rewrite (get_u32_after_u32 _ _ 8).
    rewrite (get_u32_skip [wrap8 (ino_type ino)] _ 7).
    rewrite (get_u32_skip [wrap8 (ino_flags ino)] _ 6).
    rewrite (get_u32_skip (encode_u16 (ino_links ino)) _ 4).
    rewrite (get_u32_after_u32 _ _ 0).
    apply get_u32_encode_u32.
  - apply list_eq. intros k.
    rewrite !list_lookup_fmap.
    destruct (decide (k < 10)%nat) as [Hk|Hk].
    + rewrite lookup_seq_lt by lia. cbn [fmap option_fmap option_map Nat.add].
      destruct (lookup_lt_is_Some_2 slots k ltac:(lia)) as [v Hv].
      rewrite Hv. cbn [fmap option_fmap option_map]. f_equal.
      rewrite (Hskip16 _ (4 * k)%nat). by apply get_u32_flat_map_encode.
    + rewrite lookup_seq_ge by lia.
      rewrite (lookup_ge_None_2 slots k) by lia. reflexivity.
  - rewrite (Hskip16 _ 40%nat), (Hskip40 _ 0%nat).
    unfold tail. apply get_u32_encode_u32.
  - rewrite (Hskip16 _ 44%nat), (Hskip16 _ 48%nat).
    rewrite (Hskip40 _ 4%nat), (Hskip40 _ 8%nat). unfold tail.
    rewrite (get_u32_after_u32 _ _ 0), (get_u32_after_u32 _ _ 4).
    rewrite (get_u32_after_u32 _ _ 0), !get_u32_encode_u32. reflexivity.
  - rewrite (Hskip16 _ 52%nat), (Hskip16 _ 56%nat).
    rewrite (Hskip40 _ 12%nat), (Hskip40 _ 16%nat). unfold tail.
    rewrite (get_u32_after_u32 _ _ 8), (get_u32_after_u32 _ _ 12).
    rewrite (get_u32_after_u32 _ _ 4), (get_u32_after_u32 _ _ 8).
    rewrite (get_u32_after_u32 _ _ 0), (get_u32_after_u32 _ _ 4).
    rewrite (get_u32_after_u32 _ _ 0), !get_u32_encode_u32. reflexivity.
Qed.

Lemma byte_at_drop (buf : list Z) (n i : nat) :
  byte_at (drop n buf) i = byte_at buf (n + i).
Proof. unfold byte_at. by rewrite lookup_drop. Qed.

Lemma get_u32_drop (buf : list Z) (n o : nat) :
  get_u32 (drop n buf) o = get_u32 buf (n + o).
Proof.
  unfold get_u32. rewrite !byte_at_drop, !Nat.add_assoc. reflexivity.
Qed.

Lemma decode_inode_drop (buf : list Z) (idx : nat) :
  decode_inode buf idx = decode_inode (drop (idx * SIZEOF_INODE) buf) 0.
Proof.
  unfold decode_inode. change (0 * SIZEOF_INODE)%nat with 0%nat.
  cbn [Nat.add]. rewrite !get_u32_drop, !byte_at_drop.
  rewrite Nat.add_0_r. f_equal.
  apply map_ext. intros k. rewrite get_u32_drop. f_equal. lia.
Qed.

Lemma drop_overlay (buf : list Z) (off : nat) (src : list Z) :
  (off <= length buf)%nat ->
  drop off (overlay buf off src) = src ++ drop (off + length src) buf.
Proof.
  intros H. unfold overlay. by rewrite drop_app_length' by (rewrite length_take; lia).
Qed.

(** The record the injector stores at index [idx] of a table block is
    what reading that index gives back. *)
Lemma decode_inode_overlay (itb : list Z) (idx : nat) (ino : mesafs_inode_t) :
  (idx * SIZEOF_INODE <= length itb)%nat ->
  decode_inode (overlay itb (idx * SIZEOF_INODE) (encode_inode ino)) idx
  = decode_inode (encode_inode ino ++ []) 0.
Proof.
  intros H. rewrite decode_inode_drop, drop_overlay by done.
  rewrite !decode_encode_inode. reflexivity.
Qed.

Lemma iter_dec_free_blocks_reserved (k : nat) (sb : mesafs_superblock_t) :
  sb_reserved (Nat.iter k dec_free_blocks sb) = sb_reserved sb.
Proof. induction k as [|k IH]; [done|]. simpl. exact IH. Qed.

(** * What a successful injection leaves on the volume *)

Lemma inject_success_reads (d : list (list Z)) (part_lba : Z)
    (file_data dest_path : list Z) (r : inject_report) (d' : list (list Z)) :
  volume_ok d part_lba = true ->
  inject d part_lba file_data dest_path = Exit0 r d' ->
  exists block ib dir itb n blocks slot,
    read_block d (wrap32 (part_lba * SECTOR_SIZE)) 0 = Some block
    /\ read_block d (wrap32 (part_lba * SECTOR_SIZE)) 1 = Some ib
    /\ read_block d (wrap32 (part_lba * SECTOR_SIZE)) 10 = Some dir
    /\ read_block d (wrap32 (part_lba * SECTOR_SIZE)) (2 + n / 32) = Some itb
    /\ 2 <= n < 256
    /\ (forall j, 2 <= j < n -> bitmap_test ib j = Some true)
    /\ bitmap_test ib n = Some false
    /\ Z.of_nat (length blocks) = blocks_needed_of (Z.of_nat (length file_data))
    /\ blocks_needed_of (Z.of_nat (length file_data)) <= 10
    /\ Forall (fun b => 11 <= b < 298
                        /\ b < sb_total_blocks (decode_superblock block)
                        /\ bitmap_test block b = Some false) blocks
    /\ NoDup blocks
    /\ find_free_slot dir = Some slot
    /\ r = {| rp_inode := n; rp_blocks := Z.of_nat (length blocks);
              rp_size := Z.of_nat (length file_data) |}
    /\ read_block d' (wrap32 (part_lba * SECTOR_SIZE)) 0
       = Some (overlay (foldl bitmap_set block blocks) 0
                 (encode_superblock
                    (Nat.iter (length blocks) dec_free_blocks
                       (dec_free_inodes (decode_superblock block)))))
    /\ read_block d' (wrap32 (part_lba * SECTOR_SIZE)) 1 = Some (bitmap_set ib n)
    /\ read_block d' (wrap32 (part_lba * SECTOR_SIZE)) 10
       = Some (insert_entry dir slot n (filename_of dest_path))
    /\ read_block d' (wrap32 (part_lba * SECTOR_SIZE)) (2 + n / 32)
       = Some (overlay itb (Z.to_nat (n mod 32) * SIZEOF_INODE)
                 (encode_inode (file_inode_record n
                    (Z.of_nat (length file_data)) blocks)))
    /\ (forall j b, blocks !! j = Some b ->
          read_block d' (wrap32 (part_lba * SECTOR_SIZE)) b
          = payload_blocks file_data 0 (length blocks) !! j)
    /\ (forall k x, 0 <= k < 2 ^ 20 ->
          k <> 0 -> k <> 1 -> k <> 10 -> k <> 2 + n / 32 -> k ∉ blocks ->
          read_block d (wrap32 (part_lba * SECTOR_SIZE)) k = Some x ->
          read_block d' (wrap32 (part_lba * SECTOR_SIZE)) k = Some x)
    /\ alloc_blocks (blocks_needed_of (Z.of_nat (length file_data))) block
         (dec_free_inodes (decode_superblock block))
       = Some (blocks, foldl bitmap_set block blocks,
               Nat.iter (length blocks) dec_free_blocks
                 (dec_free_inodes (decode_superblock block))).
Proof.
  intros Hok Hrun.
  destruct (inject_success_inv _ _ _ _ _ _ Hok Hrun)
    as (block & ib & dir & n & blocks & block' & sb2 & itb & slot & Hb0 & Hib & Hdir
        & Hitb & Hn & Hai & Hab & Hcount & Hten & Hall & Hnd & Hlen' & Hslot & Hr & Hd').
  set (po := wrap32 (part_lba * SECTOR_SIZE)) in *.
  assert (0 <= po) as Hpo by apply wrap32_range.
  pose proof (read_block_length _ _ _ _ Hb0) as Hlen0.
  pose proof (read_block_length _ _ _ _ Hib) as Hlen1.
  pose proof (read_block_length _ _ _ _ Hdir) as Hlen10.
  pose proof (read_block_length _ _ _ _ Hitb) as Hlenit.
  destruct (find_free_slot_spec _ _ Hslot) as [Hlt _].
  (* the inode scan *)
  unfold alloc_inode in Hai.
  destruct (alloc_inode_loop_found _ _ _ _ _ _ n Hai ltac:(lia)) as (Hfree & _).
  destruct (alloc_inode_loop_first_fit _ 2 _ _ _ _ n Hai ltac:(lia)) as (Hfirst & _).
  (* the block scan *)
  pose proof Hab as Hab'. unfold alloc_blocks in Hab.
  destruct (alloc_blocks_loop_trace _ (MESAFS_DATA_START + 1) _ _ _ _ _ _ _
              ltac:(unfold MESAFS_DATA_START; lia) Hab)
    as (blocks0 & Eb & Htr & Ebm & Esb).
  cbn [app] in Eb. subst blocks0.
  cbn [dec_free_inodes sb_total_blocks] in Htr.
  assert (length (encode_superblock sb2) = 512%nat) as Henc.
  { rewrite length_encode_superblock, Esb, iter_dec_free_blocks_reserved.
    cbn [dec_free_inodes sb_reserved].
    change (sb_reserved (decode_superblock block))
      with (sb_reserved (decode_superblock block)).
    by rewrite length_decoded_reserved. }
  assert (Z.of_nat (length (overlay block' 0 (encode_superblock sb2)))
          = MESAFS_BLOCK_SIZE) as Hlen0'.
  { rewrite length_overlay; [congruence|].
    rewrite Henc, Hlen'. unfold MESAFS_BLOCK_SIZE in *. lia. }
  assert (2 <= 2 + n / 32 <= 9) as Hloc.
  { destruct (locate_small n) as (_ & ? & _); [lia|].
    unfold MESAFS_INODE_TABLE_START in *. lia. }
  assert (0 <= n mod 32 < 32) as Hidx by (apply Z.mod_pos_bound; lia).
  set (itb' := overlay itb (Z.to_nat (n mod 32) * SIZEOF_INODE)
                 (encode_inode (file_inode_record n
                    (Z.of_nat (length file_data)) blocks))) in *.
  assert (Z.of_nat (length itb') = MESAFS_BLOCK_SIZE) as Hlenit'.
  { subst itb'. rewrite length_overlay; [done|]. rewrite length_encode_inode.
    unfold SIZEOF_INODE, MESAFS_BLOCK_SIZE in *. lia. }
  assert (Forall (fun b => 0 <= b < 2 ^ 20) blocks) as Hsmall.
  { eapply Forall_impl; [exact Hall|]. simpl. intros; lia. }
  exists block, ib, dir, itb, n, blocks, slot.
  split_and!; try assumption; try lia.
  - intros j Hj. apply Hfirst; lia.
  - rewrite Forall_forall in Hall, Htr |- *. intros b Hb.
    destruct (Hall b Hb), (Htr b Hb) as [? ?].
    unfold MESAFS_DATA_START in *. split_and!; [lia..|done].
  - subst d'. unfold image_with_entry. rewrite <- Ebm, <- Esb.
    apply read_write_ne; [extents_differ|]. by apply read_write_eq.
  - subst d'. unfold image_with_entry.
    apply read_write_eq; [reflexivity|]. by rewrite length_bitmap_set.
  - subst d'. unfold image_with_entry.
    apply read_write_ne; [extents_differ|].
    apply read_write_ne; [extents_differ|].
    apply read_write_eq; [reflexivity|]. by rewrite length_insert_entry.
  - subst d'. unfold image_with_entry, image_with_inode.
    change MESAFS_INODE_TABLE_START with 2.
    apply read_write_ne; [extents_differ|].
    apply read_write_ne; [extents_differ|].
    apply read_write_ne; [extents_differ|].
    by apply read_write_eq.
  - intros j b Hj. subst d'. unfold image_with_entry, image_with_inode.
    assert (11 <= b < 298) as Hb.
    { rewrite Forall_forall in Hall. apply Hall. by eapply list_elem_of_lookup_2. }
    assert (is_Some (payload_blocks file_data 0 (length blocks) !! j)) as [x Hx].
    { apply lookup_lt_is_Some_2. rewrite length_payload_blocks.
      by eapply lookup_lt_Some. }
    rewrite Hx.
    change MESAFS_INODE_TABLE_START with 2.
    apply read_write_ne; [extents_differ|].
    apply read_write_ne; [extents_differ|].
    apply read_write_ne; [extents_differ|].
    apply read_write_ne; [extents_differ|].
    rewrite <- Hx. by apply read_write_payload_at.
  - intros k x Hk H0 H1 H10 Hnt Hnotin Hx. subst d'.
    unfold image_with_entry, image_with_inode.
    change MESAFS_INODE_TABLE_START with 2.
    apply read_write_ne; [extents_differ|].
    apply read_write_ne; [extents_differ|].
    apply read_write_ne; [extents_differ|].
    apply read_write_ne; [extents_differ|].
    apply read_write_payload_ne; auto.
    rewrite Forall_forall in Hsmall |- *. intros b Hb. split; [by apply Hsmall|].
    intros ->. by apply Hnotin.
  - by rewrite <- Ebm, <- Esb.
Qed.

(** * Bitmaps and block I/O *)

(** [bitmap_set] followed by [bitmap_test]: inside the array, setting a
    bit makes its test true, changes the test of no other bit and keeps
    the array's size. *)
Theorem bitmap_set_sets_only_its_bit (bitmap : list Z) (bit : Z) :
  0 <= bit < 8 * Z.of_nat (length bitmap) ->
  bitmap_test (bitmap_set bitmap bit) bit = Some true
  /\ length (bitmap_set bitmap bit) = length bitmap
  /\ forall other, 0 <= other -> other <> bit ->
       bitmap_test (bitmap_set bitmap bit) other = bitmap_test bitmap other.
Proof.
  intros H. split_and!.
  - apply bitmap_test_set_same; [lia|]. by apply bitmap_test_in_range.
  - apply length_bitmap_set.
  - intros other Ho Hne. apply bitmap_test_set_other; lia.
Qed.

Lemma bitmap_set_sets_only_its_bit_witness :
  bitmap_test (bitmap_set [0; 5] 9) 9 = Some true
  /\ length (bitmap_set [0; 5] 9) = length [0; 5]
  /\ forall other, 0 <= other -> other <> 9 ->
       bitmap_test (bitmap_set [0; 5] 9) other = bitmap_test [0; 5] other.
Proof. apply (bitmap_set_sets_only_its_bit [0; 5] 9). simpl. lia. Defined.

(** [write_block] followed by [read_block]: a block number below 2^20
    reads back the 4096 bytes just written, and every other block number
    below 2^20 that could be read before still reads the same. *)
Theorem write_block_then_read_block (d : list (list Z)) (part_offset n : Z)
    (buf : list Z) :
  0 <= part_offset -> 0 <= n < 2 ^ 20 ->
  Z.of_nat (length buf) = MESAFS_BLOCK_SIZE ->
  read_block (write_block d part_offset n buf) part_offset n = Some buf
  /\ forall m x, 0 <= m < 2 ^ 20 -> m <> n ->
       read_block d part_offset m = Some x ->
       read_block (write_block d part_offset n buf) part_offset m = Some x.
Proof.
  intros Hpo Hn Hlen. split.
  - by apply read_write_eq.
  - intros m x Hm Hne Hx. apply read_write_ne; [|exact Hx].
    intros He. apply extent_block_pos_inj in He; auto.
Qed.

Lemma write_block_then_read_block_witness :
  read_block (write_block [] 512 3 zero_block) 512 3 = Some zero_block
  /\ forall m x, 0 <= m < 2 ^ 20 -> m <> 3 ->
       read_block [] 512 m = Some x ->
       read_block (write_block [] 512 3 zero_block) 512 m = Some x.
Proof.
  apply (write_block_then_read_block [] 512 3 zero_block).
  - lia.
  - lia.
  - vm_compute. reflexivity.
Defined.

(** The seek position is computed in 32 bits: block numbers 2^20 apart
    (4 GiB of 4096-byte blocks) name the same bytes of the image, for
    reading and for writing. *)
Theorem block_numbers_wrap_at_2_20 (d : list (list Z)) (part_offset n : Z)
    (buf : list Z) :
  read_block d part_offset (n + 2 ^ 20) = read_block d part_offset n
  /\ write_block d part_offset (n + 2 ^ 20) buf = write_block d part_offset n buf.
Proof.
  assert (block_pos part_offset (n + 2 ^ 20) = block_pos part_offset n) as E.
  { rewrite !block_pos_wrap. unfold wrap32, MESAFS_BLOCK_SIZE.
    replace (part_offset + (n + 2 ^ 20) * 4096)
      with (part_offset + n * 4096 + 1 * 2 ^ 32) by lia.
    apply Z.mod_add. lia. }
  unfold read_block, write_block. by rewrite E.
Qed.

(** * The formatter *)

Lemma pread_pwrite_sector_ne (d : list (list Z)) (pos pos' : Z) (sector b : list Z) :
  extent_of pos <> extent_of pos' -> pread d pos' = Some b ->
  pread (pwrite_sector d pos sector) pos' = Some b.
Proof.
  intros Hne. unfold pread, pwrite_sector. cbv zeta.
  rewrite list_lookup_insert_ne by done.
  destruct (d !! extent_of pos') as [x|] eqn:Hx; [|discriminate].
  unfold grow. rewrite lookup_app_l by (eapply lookup_lt_Some, Hx).
  rewrite Hx. auto.
Qed.

Lemma byte_at_zero_block (i : nat) : byte_at zero_block i = 0.
Proof.
  unfold byte_at, zero_block.
  destruct (replicate (Z.to_nat MESAFS_BLOCK_SIZE) 0 !! i) as [x|] eqn:E; [|done].
  apply lookup_replicate in E as [-> _]. reflexivity.
Qed.

Lemma length_zero_block : Z.of_nat (length zero_block) = MESAFS_BLOCK_SIZE.
Proof. unfold zero_block. rewrite length_replicate. by vm_compute. Qed.

Lemma format_inode_bitmap_clear (j : Z) :
  2 <= j < 32768 -> bitmap_test format_inode_bitmap j = Some false.
Proof.
  intros Hj. unfold format_inode_bitmap.
  rewrite !bitmap_test_set_other by lia.
  pose proof length_zero_block as Hlen. unfold MESAFS_BLOCK_SIZE in Hlen.
  assert (0 <= j / 8 < 4096) as Hq.
  { split; [apply Z.div_pos; lia|apply Z.div_lt_upper_bound; lia]. }
  apply bitmap_test_zero_byte; [lia|lia|apply byte_at_zero_block].
Qed.

(** Whatever the image held and whatever the partition's size, the
    formatter succeeds on a partition that starts at a non-zero LBA and
    leaves a well-formed volume whose eleven metadata blocks depend on
    the sector count only. *)
Theorem format_gives_well_formed_volume (d : list (list Z))
    (part_lba part_sectors : Z) :
  part_lba <> 0 ->
  exists d',
    format d part_lba part_sectors = Exit0 tt d'
    /\ volume_ok d' part_lba = true
    /\ forall k, 0 <= k <= 10 ->
         read_block d' (wrap32 (part_lba * SECTOR_SIZE)) k
         = Some (formatted_block part_sectors k).
Proof.
  intros Hlba.
  pose proof (format_volume_ok d part_lba part_sectors Hlba) as Hok.
  pose proof (format_read d part_lba part_sectors) as Hread.
  destruct (format_exit0 d part_lba part_sectors Hlba) as [d' E].
  rewrite E in Hok, Hread. cbn [image_of] in Hok, Hread.
  exists d'. split_and!; [done|done|]. intros k Hk. by apply Hread.
Qed.

Lemma format_gives_well_formed_volume_witness :
  exists d',
    format [[1; 2; 3]] 63 20480 = Exit0 tt d'
    /\ volume_ok d' 63 = true
    /\ forall k, 0 <= k <= 10 ->
         read_block d' (wrap32 (63 * SECTOR_SIZE)) k
         = Some (formatted_block 20480 k).
Proof. apply (format_gives_well_formed_volume [[1; 2; 3]] 63 20480). lia. Defined.

(** A freshly formatted volume has an empty root directory: inode 1 is a
    directory of one block, block 10, all 64 slots of that block are
    free, the inode bitmap marks inodes 0 and 1 and nothing else, and
    the first injection will be given inode 2. *)
Theorem format_root_directory_is_empty (d : list (list Z))
    (part_lba part_sectors : Z) :
  part_lba <> 0 ->
  let d' := image_of (format d part_lba part_sectors) in
  (ino_type <$> disk_inode d' part_lba 1) = Some MESAFS_TYPE_DIR
  /\ (ino_blocks_used <$> disk_inode d' part_lba 1) = Some 1
  /\ (ino_direct_blocks <$> disk_inode d' part_lba 1)
     = Some (direct_slots [MESAFS_DATA_START])
  /\ (forall slot, (slot < 64)%nat ->
        (de_inode <$> disk_dirent d' part_lba slot) = Some 0)
  /\ disk_inode_bit d' part_lba 0 = Some true
  /\ disk_inode_bit d' part_lba 1 = Some true
  /\ (forall j, 2 <= j < 32768 -> disk_inode_bit d' part_lba j = Some false)
  /\ inode_picked d' part_lba = Some 2.
Proof.
  intros Hlba d'.
  pose proof (format_read d part_lba part_sectors) as Hread. fold d' in Hread.
  pose proof (format_volume_ok d part_lba part_sectors Hlba) as Hok. fold d' in Hok.
  destruct (volume_ok_facts _ _ Hok)
    as (_ & _ & block & rib & Hb0 & _ & _ & Hinodes & _).
  assert (disk_inode d' part_lba 1
          = Some (decode_inode format_inode_table0 1)) as Hino.
  { unfold disk_inode. change (fst (locate 1)) with 2.
    rewrite (Hread 2 Hlba) by lia. reflexivity. }
  assert (forall j, disk_inode_bit d' part_lba j = bitmap_test format_inode_bitmap j)
    as Hbit.
  { intros j. unfold disk_inode_bit. change MESAFS_INODE_BITMAP_BLOCK with 1.
    rewrite (Hread 1 Hlba) by lia. reflexivity. }
  split_and!.
  - rewrite Hino. vm_compute. reflexivity.
  - rewrite Hino. vm_compute. reflexivity.
  - rewrite Hino. vm_compute. reflexivity.
  - intros slot Hslot. unfold disk_dirent. change MESAFS_DATA_START with 10.
    rewrite (Hread 10 Hlba) by lia. change (formatted_block part_sectors 10) with zero_block.
    cbn [fmap option_fmap option_map decode_dirent de_inode].
    unfold get_u32. rewrite !byte_at_zero_block. reflexivity.
  - rewrite Hbit. vm_compute. reflexivity.
  - rewrite Hbit. vm_compute. reflexivity.
  - intros j Hj. rewrite Hbit. by apply format_inode_bitmap_clear.
  - unfold inode_picked, disk_superblock.
    change MESAFS_INODE_BITMAP_BLOCK with 1.
    rewrite Hb0, (Hread 1 Hlba) by lia.
    change (formatted_block part_sectors 1) with format_inode_bitmap.
    cbn [fmap option_fmap option_map mbind option_bind].
    unfold alloc_inode. rewrite Hinodes.
    change (Z.to_nat (256 - 2)) with (S 253). cbn [alloc_inode_loop].
    rewrite format_inode_bitmap_clear by lia. reflexivity.
Qed.

Lemma format_root_directory_is_empty_witness :
  (ino_type <$> disk_inode fresh_volume 1 1) = Some MESAFS_TYPE_DIR
  /\ (ino_blocks_used <$> disk_inode fresh_volume 1 1) = Some 1
  /\ (ino_direct_blocks <$> disk_inode fresh_volume 1 1)
     = Some (direct_slots [MESAFS_DATA_START])
  /\ (forall slot, (slot < 64)%nat ->
        (de_inode <$> disk_dirent fresh_volume 1 slot) = Some 0)
  /\ disk_inode_bit fresh_volume 1 0 = Some true
  /\ disk_inode_bit fresh_volume 1 1 = Some true
  /\ (forall j, 2 <= j < 32768 -> disk_inode_bit fresh_volume 1 j = Some false)
  /\ inode_picked fresh_volume 1 = Some 2.
Proof. apply (format_root_directory_is_empty [] 1 800). lia. Defined.

(** The formatter writes blocks 0 to 10 of the partition and nothing
    else: every other block below 2^20 that could be read before reads
    the same afterwards, so the data of earlier files stays on the
    image. *)
Theorem format_keeps_other_blocks (d : list (list Z))
    (part_lba part_sectors k : Z) (x : list Z) :
  11 <= k < 2 ^ 20 ->
  read_block d (wrap32 (part_lba * SECTOR_SIZE)) k = Some x ->
  read_block (image_of (format d part_lba part_sectors))
    (wrap32 (part_lba * SECTOR_SIZE)) k = Some x.
Proof.
  intros Hk Hx. unfold format.
  destruct (Z.eqb_spec part_lba 0); [exact Hx|].
  set (po := wrap32 (part_lba * SECTOR_SIZE)) in *.
  assert (0 <= po) as Hpo by apply wrap32_range.
  change (seqZ 1 (MESAFS_INODE_TABLE_BLOCKS - 1)) with [1; 2; 3; 4; 5; 6; 7].
  cbn [foldl image_of]. unfold read_block in *.
  rewrite !format_pos_block_pos.
  assert (forall m, 0 <= m <= 10 ->
            extent_of (block_pos po m) <> extent_of (block_pos po k)) as Hne.
  { intros m Hm He. apply extent_block_pos_inj in He; lia. }
  unfold MESAFS_BLOCK_BITMAP_BLOCK, MESAFS_INODE_BITMAP_BLOCK,
    MESAFS_INODE_TABLE_START, MESAFS_DATA_START.
  repeat (apply pread_pwrite_ne; [apply Hne; lia|]).
  apply pread_pwrite_sector_ne; [|exact Hx].
  replace po with (block_pos po 0) at 1; [apply Hne; lia|].
  rewrite block_pos_wrap, Z.add_0_r. apply wrap32_small.
  subst po. apply wrap32_range.
Qed.

Lemma format_keeps_other_blocks_witness :
  read_block (image_of (format hello_volume 1 800)) (wrap32 (1 * SECTOR_SIZE)) 11
  = Some (payload_block [104; 105] 0 2).
Proof.
  apply (format_keeps_other_blocks hello_volume 1 800 11).
  - lia.
  - vm_compute. reflexivity.
Defined.

(** * The injector: how it fails *)

(** Every error exit of the injector other than the full root directory
    leaves the image exactly as it found it. *)
Theorem inject_failure_keeps_image (d : list (list Z)) (part_lba : Z)
    (file_data dest_path : list Z) (e : error) (d' : list (list Z)) :
  inject d part_lba file_data dest_path = Exit1 e d' ->
  e <> DirectoryFull ->
  d' = d.
Proof.
  unfold inject.
  destruct (part_lba =? 0); [by intros [= _ <-]|].
  set (po := wrap32 (part_lba * SECTOR_SIZE)).
  destruct (read_block d po 0) as [block|]; [|by intros [= _ <-]].
  destruct (negb _); [by intros [= _ <-]|].
  destruct (read_block d po MESAFS_INODE_BITMAP_BLOCK) as [ib|]; [|by intros [= _ <-]].
  destruct (_ <? _); [by intros [= _ <-]|].
  unfold inject_alloc.
  destruct (alloc_inode ib (decode_superblock block)) as [[[n ib'] sb']|];
    [|discriminate].
  destruct (n =? 0); [by intros [= _ <-]|].
  destruct (alloc_blocks _ _ _) as [[[blocks block'] sb'']|]; [|discriminate].
  destruct (_ <? _); [by intros [= _ <-]|].
  intros H Hne. apply inject_commit_exit1 in H. contradiction.
Qed.

Lemma inject_failure_keeps_image_witness :
  image_of (inject fresh_volume 1 (replicate (Z.to_nat 40961) 7) (bytes_of_string "/big"))
  = fresh_volume.
Proof.
  apply (inject_failure_keeps_image fresh_volume 1 (replicate (Z.to_nat 40961) 7)
           (bytes_of_string "/big") FileTooLarge).
  - vm_compute. reflexivity.
  - discriminate.
Defined.

(** On a well-formed volume the injector always comes to an exit whose
    result the image determines: it succeeds, or it stops with one of
    four errors (file too large, no free inode, not enough free blocks,
    root directory full).  No run reads a block that is not there or
    probes a bitmap outside its array. *)
Theorem inject_exits_on_volume (d : list (list Z)) (part_lba : Z)
    (file_data dest_path : list Z) :
  volume_ok d part_lba = true ->
  (exists r d', inject d part_lba file_data dest_path = Exit0 r d')
  \/ (exists e d', inject d part_lba file_data dest_path = Exit1 e d'
        /\ In e [FileTooLarge; InsufficientInodes; InsufficientBlocks; DirectoryFull]).
Proof.
  intros Hok.
  destruct (inject_on_volume d part_lba file_data dest_path Hok)
    as (block & ib & dir & _ & _ & _ & Hcases).
  destruct Hcases as [[_ H]|[_ [H|(n & _ & _ & _ & [H|H])]]].
  - right. exists FileTooLarge, d. split; [exact H|simpl; auto].
  - right. exists InsufficientInodes, d. split; [exact H|simpl; auto].
  - right. exists InsufficientBlocks, d. split; [exact H|simpl; auto].
  - destruct H as (blocks & block' & sb' & itb & _ & _ & _ & _ & _ & _ & H).
    cbv zeta in H. destruct (find_free_slot dir) as [slot|].
    + left. eauto.
    + right. eexists DirectoryFull, _. split; [exact H|simpl; auto].
Qed.

Lemma inject_exits_on_volume_witness :
  (exists r d', inject fresh_volume 1 [104; 105] (bytes_of_string "/hello.msa")
                = Exit0 r d')
  \/ (exists e d', inject fresh_volume 1 [104; 105] (bytes_of_string "/hello.msa")
                   = Exit1 e d'
        /\ In e [FileTooLarge; InsufficientInodes; InsufficientBlocks; DirectoryFull]).
Proof.
  apply (inject_exits_on_volume fresh_volume 1 [104; 105]
           (bytes_of_string "/hello.msa")).
  vm_compute. reflexivity.
Defined.

(** A source file of more than ten blocks (40960 bytes), up to
    2^44 - 4096 bytes, is refused on every well-formed volume, and the
    image stays as it was. *)
Theorem inject_refuses_more_than_ten_blocks (d : list (list Z)) (part_lba : Z)
    (file_data dest_path : list Z) :
  volume_ok d part_lba = true ->
  MESAFS_DIRECT_BLOCKS * MESAFS_BLOCK_SIZE < Z.of_nat (length file_data) ->
  Z.of_nat (length file_data) <= 2 ^ 44 - 4096 ->
  inject d part_lba file_data dest_path = Exit1 FileTooLarge d.
Proof.
  intros Hok Hbig Hmax.
  destruct (volume_ok_facts _ _ Hok)
    as (Hlba & Hread & block & rib & Hb0 & _ & Hmagic & _).
  destruct (Hread 1 ltac:(lia)) as [ib Hib].
  by apply (inject_rejects_large_file d part_lba file_data dest_path block ib).
Qed.

Lemma inject_refuses_more_than_ten_blocks_witness :
  inject fresh_volume 1 (replicate (Z.to_nat 40961) 7) (bytes_of_string "/big")
  = Exit1 FileTooLarge fresh_volume.
Proof.
  apply (inject_refuses_more_than_ten_blocks fresh_volume 1 (replicate (Z.to_nat 40961) 7)
           (bytes_of_string "/big")).
  - vm_compute. reflexivity.
  - vm_compute. reflexivity.
  - vm_compute. discriminate.
Defined.

(** The injector stops for want of an inode exactly when inodes 2 to 255
    are all marked in the inode bitmap (the file itself fitting in ten
    blocks). *)
Theorem inject_insufficient_inodes_iff (d : list (list Z)) (part_lba : Z)
    (file_data dest_path : list Z) :
  volume_ok d part_lba = true ->
  blocks_needed_of (Z.of_nat (length file_data)) <= MESAFS_DIRECT_BLOCKS ->
  inject d part_lba file_data dest_path = Exit1 InsufficientInodes d
  <-> forall j, 2 <= j < 256 -> disk_inode_bit d part_lba j = Some true.
Proof.
  intros Hok Hfits.
  destruct (volume_ok_facts _ _ Hok)
    as (Hlba & Hread & block & rib & Hb0 & _ & Hmagic & Hinodes & _).
  destruct (Hread 1 ltac:(lia)) as [ib Hib].
  pose proof (read_block_length _ _ _ _ Hib) as Hlen1.
  set (po := wrap32 (part_lba * SECTOR_SIZE)) in *.
  assert (forall j, disk_inode_bit d part_lba j = bitmap_test ib j) as Hbit.
  { intros j. unfold disk_inode_bit. fold po.
    change MESAFS_INODE_BITMAP_BLOCK with 1. rewrite Hib. reflexivity. }
  unfold inject. destruct (Z.eqb_spec part_lba 0) as [|_]; [done|].
  fold po. rewrite Hb0, Hmagic, Z.eqb_refl. cbn [negb].
  change MESAFS_INODE_BITMAP_BLOCK with 1. rewrite Hib.
  destruct (Z.ltb_spec MESAFS_DIRECT_BLOCKS
              (blocks_needed_of (Z.of_nat (length file_data)))) as [|_]; [lia|].
  unfold inject_alloc, alloc_inode. rewrite Hinodes.
  destruct (alloc_inode_loop (Z.to_nat (256 - 2)) 2 ib (decode_superblock block))
    as [[[n ib'] sb']|] eqn:Ha.
  2:{ destruct (alloc_inode_loop_spec (Z.to_nat (256 - 2)) 2 ib (decode_superblock block))
        as [E | (n & _ & _ & E)];
        [lia | unfold MESAFS_BLOCK_SIZE in *; lia | congruence | congruence]. }
  destruct (alloc_inode_loop_first_fit _ 2 _ _ _ _ n Ha ltac:(lia)) as (_ & Hnone).
  destruct (Z.eqb_spec n 0) as [Hz|Hnz].
  - split; [|done]. intros _ j Hj. rewrite Hbit.
    destruct (Hnone Hz) as (_ & _ & Hall). apply Hall. lia.
  - destruct (alloc_inode_loop_found _ _ _ _ _ _ n Ha Hnz) as (Hfree & _ & _ & Hrange).
    split.
    + intros H. exfalso.
      destruct (alloc_blocks _ _ _) as [[[blocks block'] sb'']|]; [|discriminate].
      destruct (_ <? _); [discriminate|].
      apply inject_commit_exit1 in H. discriminate.
    + intros Hall. exfalso.
      specialize (Hall n ltac:(lia)). rewrite Hbit in Hall. congruence.
Qed.

Lemma inject_insufficient_inodes_iff_witness :
  inject fresh_volume 1 [104; 105] (bytes_of_string "/hello.msa")
  = Exit1 InsufficientInodes fresh_volume
  <-> forall j, 2 <= j < 256 -> disk_inode_bit fresh_volume 1 j = Some true.
Proof.
  apply (inject_insufficient_inodes_iff fresh_volume 1 [104; 105]
           (bytes_of_string "/hello.msa")).
  - vm_compute. reflexivity.
  - vm_compute. discriminate.
Defined.

(** * The injector: what a successful run leaves *)

Lemma wrap32_idemp (z : Z) : wrap32 (wrap32 z) = wrap32 z.
Proof. apply wrap32_small, wrap32_range. Qed.

Lemma map_wrap32_direct_slots (blocks : list Z) :
  Forall (fun b => 0 <= b < 2 ^ 32) blocks ->
  map wrap32 (direct_slots blocks) = direct_slots blocks.
Proof.
  intros H. unfold direct_slots. rewrite <- (list_fmap_id (take 10 _)) at 2.
  apply Forall_fmap_ext_1. apply Forall_take, Forall_app. split.
  - eapply Forall_impl; [exact H|]. intros b Hb. by apply wrap32_small.
  - apply Forall_replicate. reflexivity.
Qed.

(** The file's inode record as it reads back from the inode table. *)
Lemma decode_file_inode_record (itb : list Z) (idx : nat) (n size : Z)
    (blocks : list Z) :
  (idx * SIZEOF_INODE <= length itb)%nat ->
  0 <= n < 2 ^ 32 -> (length blocks <= 10)%nat ->
  Forall (fun b => 0 <= b < 2 ^ 32) blocks ->
  decode_inode (overlay itb (idx * SIZEOF_INODE)
                  (encode_inode (file_inode_record n size blocks))) idx
  = {| ino_inode_num := n;
       ino_type := MESAFS_TYPE_FILE;
       ino_flags := MESAFS_FLAG_USED;
       ino_links := 1;
       ino_size := wrap32 size;
       ino_blocks_used := Z.of_nat (length blocks);
       ino_direct_blocks := direct_slots blocks;
       ino_indirect_block := 0;
       ino_created := 0;
       ino_modified := 0 |}.
Proof.
  intros Hfit Hn Hlen Hall.
  rewrite decode_inode_overlay by done. rewrite decode_encode_inode.
  cbn [file_inode_record ino_inode_num ino_type ino_flags ino_links ino_size
       ino_blocks_used ino_direct_blocks ino_indirect_block ino_created
       ino_modified].
  rewrite wrap32_idemp, (wrap32_small n) by done.
  rewrite (wrap32_small (Z.of_nat (length blocks))) by lia.
  rewrite map_wrap32_direct_slots by done.
  reflexivity.
Qed.

(** A successful injection keeps the volume well formed, so that the
    next injection finds what this one relied on. *)
Theorem inject_keeps_volume_well_formed (d : list (list Z)) (part_lba : Z)
    (file_data dest_path : list Z) (r : inject_report) (d' : list (list Z)) :
  volume_ok d part_lba = true ->
  inject d part_lba file_data dest_path = Exit0 r d' ->
  volume_ok d' part_lba = true.
Proof. apply inject_volume_ok. Qed.

Lemma inject_keeps_volume_well_formed_witness :
  volume_ok (image_of (inject volume_a 1 [9] (bytes_of_string "/b.msa"))) 1 = true.
Proof.
  apply (inject_keeps_volume_well_formed volume_a 1 [9] (bytes_of_string "/b.msa")
           {| rp_inode := 3; rp_blocks := 1; rp_size := 1 |}).
  - vm_compute. reflexivity.
  - vm_compute. reflexivity.
Defined.



(** The inode of a successful injection is the lowest-numbered inode
    from 2 on whose bit is clear in the inode bitmap; afterwards its bit
    is set and no other bit of the bitmap has changed. *)
Theorem inject_takes_lowest_free_inode (d : list (list Z)) (part_lba : Z)
    (file_data dest_path : list Z) (r : inject_report) (d' : list (list Z)) :
  volume_ok d part_lba = true ->
  inject d part_lba file_data dest_path = Exit0 r d' ->
  2 <= rp_inode r < 256
  /\ disk_inode_bit d part_lba (rp_inode r) = Some false
  /\ (forall j, 2 <= j < rp_inode r -> disk_inode_bit d part_lba j = Some true)
  /\ disk_inode_bit d' part_lba (rp_inode r) = Some true
  /\ (forall j, 0 <= j -> j <> rp_inode r ->
        disk_inode_bit d' part_lba j = disk_inode_bit d part_lba j).
Proof.
  intros Hok Hrun.
  destruct (inject_success_reads _ _ _ _ _ _ Hok Hrun)
    as (block & ib & dir & itb & n & blocks & slot & _ & Hib & _ & _ & Hn & Hfirst
        & Hfree & _ & _ & _ & _ & _ & -> & _ & Hn1 & _).
  unfold disk_inode_bit. change MESAFS_INODE_BITMAP_BLOCK with 1.
  rewrite Hib, Hn1. cbn [mbind option_bind rp_inode].
  split_and!; [lia|lia|exact Hfree|exact Hfirst| |].
  - apply bitmap_test_set_same; [lia|]. rewrite Hfree. by eexists.
  - intros j Hj Hne. apply bitmap_test_set_other; lia.
Qed.

Lemma inject_takes_lowest_free_inode_witness :
  2 <= rp_inode {| rp_inode := 3; rp_blocks := 1; rp_size := 1 |} < 256
  /\ disk_inode_bit volume_a 1
       (rp_inode {| rp_inode := 3; rp_blocks := 1; rp_size := 1 |}) = Some false
  /\ (forall j, 2 <= j < rp_inode {| rp_inode := 3; rp_blocks := 1; rp_size := 1 |} ->
        disk_inode_bit volume_a 1 j = Some true)
  /\ disk_inode_bit volume_ab 1
       (rp_inode {| rp_inode := 3; rp_blocks := 1; rp_size := 1 |}) = Some true
  /\ (forall j, 0 <= j -> j <> rp_inode {| rp_inode := 3; rp_blocks := 1; rp_size := 1 |} ->
        disk_inode_bit volume_ab 1 j = disk_inode_bit volume_a 1 j).
Proof.
  apply (inject_takes_lowest_free_inode volume_a 1 [9] (bytes_of_string "/b.msa")).
  - vm_compute. reflexivity.
  - vm_compute. reflexivity.
Defined.

(** * The injector: the file on the volume *)

Lemma take_direct_slots (blocks : list Z) :
  (length blocks <= 10)%nat ->
  take (length blocks) (direct_slots blocks) = blocks.
Proof.
  intros H. unfold direct_slots.
  rewrite take_take, Nat.min_l by done. by rewrite take_app_length.
Qed.

(** What the payload loop has written, cut to the file's size, is the
    file. *)
Lemma take_concat_payload_blocks (fd : list Z) (k : nat) (off : Z) :
  0 <= off <= Z.of_nat (length fd) ->
  Z.of_nat (length fd) < 2 ^ 32 ->
  Z.of_nat (length fd) - off <= MESAFS_BLOCK_SIZE * Z.of_nat k ->
  take (Z.to_nat (Z.of_nat (length fd) - off)) (concat (payload_blocks fd off k))
  = drop (Z.to_nat off) fd.
Proof.
  revert off. induction k as [|k IH]; intros off Hoff Hmax Hk.
  - replace (Z.of_nat (length fd) - off) with 0 by lia.
    rewrite drop_ge by lia. reflexivity.
  - cbn [payload_blocks concat]. unfold payload_chunk, payload_block.
    rewrite overlay_0_app.
    destruct (Z.ltb_spec MESAFS_BLOCK_SIZE (Z.of_nat (length fd) - off)) as [Hlt|Hge].
    + (* a full block, more to come *)
      unfold MESAFS_BLOCK_SIZE in *.
      assert (length (take (Z.to_nat 4096) (drop (Z.to_nat off) fd)) = Z.to_nat 4096)
        as Hfull by (rewrite length_take, length_drop; lia).
      rewrite Hfull.
      rewrite (drop_ge zero_block)
        by (unfold zero_block; rewrite length_replicate; unfold MESAFS_BLOCK_SIZE; lia).
      rewrite app_nil_r.
      rewrite (wrap32_small (off + 4096)) by lia.
      replace (Z.to_nat (Z.of_nat (length fd) - off))
        with (Z.to_nat 4096 + Z.to_nat (Z.of_nat (length fd) - (off + 4096)))%nat by lia.
      rewrite <- Hfull at 1. rewrite take_app_add.
      rewrite IH by lia.
      etransitivity; [|apply (take_drop (Z.to_nat 4096))].
      f_equal. rewrite drop_drop. f_equal. lia.
    + (* the last block holds the rest of the file *)
      rewrite (take_ge (drop (Z.to_nat off) fd)) by (rewrite length_drop; lia).
      rewrite <- !app_assoc. rewrite take_app_length'; [reflexivity|].
      rewrite length_drop. lia.
Qed.

(** The inode record of an injected file: it carries the inode's own
    number, type file, the used flag, one link, the size modulo 2^32 and
    the data blocks in the order they were taken; these are pairwise
    distinct, lie from block 11 up to the superblock's total, and each
    was clear in block 0 read as the block bitmap. *)
Theorem inject_writes_inode_record (d : list (list Z)) (part_lba : Z)
    (file_data dest_path : list Z) (r : inject_report) (d' : list (list Z)) :
  volume_ok d part_lba = true ->
  inject d part_lba file_data dest_path = Exit0 r d' ->
  exists blocks sb,
    disk_inode d' part_lba (rp_inode r)
    = Some {| ino_inode_num := rp_inode r;
              ino_type := MESAFS_TYPE_FILE;
              ino_flags := MESAFS_FLAG_USED;
              ino_links := 1;
              ino_size := wrap32 (Z.of_nat (length file_data));
              ino_blocks_used := rp_blocks r;
              ino_direct_blocks := direct_slots blocks;
              ino_indirect_block := 0;
              ino_created := 0;
              ino_modified := 0 |}
    /\ Z.of_nat (length blocks) = rp_blocks r
    /\ NoDup blocks
    /\ disk_superblock d part_lba = Some sb
    /\ Forall (fun b => MESAFS_DATA_START < b < sb_total_blocks sb
                        /\ disk_block_bit d part_lba b = Some false) blocks.
Proof.
  intros Hok Hrun.
  destruct (inject_success_reads _ _ _ _ _ _ Hok Hrun)
    as (block & ib & dir & itb & n & blocks & slot & Hb0 & _ & _ & Hitb & Hn & _
        & _ & Hcount & Hten & Hall & Hnd & _ & -> & _ & _ & _ & Hnt & _).
  pose proof (read_block_length _ _ _ _ Hitb) as Hlenit.
  destruct (locate_small n) as (Hloc & _ & Hidx); [lia|].
  exists blocks, (decode_superblock block). cbn [rp_inode rp_blocks].
  split_and!; [|reflexivity|exact Hnd| |].
  - unfold disk_inode. rewrite Hloc. cbn [fst snd].
    change MESAFS_INODE_TABLE_START with 2. rewrite Hnt.
    cbn [fmap option_fmap option_map]. f_equal.
    apply decode_file_inode_record.
    + unfold SIZEOF_INODE, MESAFS_BLOCK_SIZE in *. lia.
    + lia.
    + lia.
    + eapply Forall_impl; [exact Hall|]. simpl. intros; lia.
  - unfold disk_superblock. by rewrite Hb0.
  - eapply Forall_impl; [exact Hall|]. simpl. intros b (? & ? & Hbit).
    unfold disk_block_bit, MESAFS_DATA_START.
    change MESAFS_BLOCK_BITMAP_BLOCK with 0. rewrite Hb0.
    cbn [mbind option_bind]. split; [lia|exact Hbit].
Qed.

Lemma inject_writes_inode_record_witness :
  exists blocks sb,
    disk_inode (image_of (inject fresh_volume 1 (replicate (Z.to_nat 5000) 7)
                            (bytes_of_string "/two"))) 1
      (rp_inode {| rp_inode := 2; rp_blocks := 2; rp_size := 5000 |})
    = Some {| ino_inode_num := rp_inode {| rp_inode := 2; rp_blocks := 2; rp_size := 5000 |};
              ino_type := MESAFS_TYPE_FILE;
              ino_flags := MESAFS_FLAG_USED;
              ino_links := 1;
              ino_size := wrap32 (Z.of_nat (length (replicate (Z.to_nat 5000) 7)));
              ino_blocks_used := rp_blocks {| rp_inode := 2; rp_blocks := 2; rp_size := 5000 |};
              ino_direct_blocks := direct_slots blocks;
              ino_indirect_block := 0;
              ino_created := 0;
              ino_modified := 0 |}
    /\ Z.of_nat (length blocks)
       = rp_blocks {| rp_inode := 2; rp_blocks := 2; rp_size := 5000 |}
    /\ NoDup blocks
    /\ disk_superblock fresh_volume 1 = Some sb
    /\ Forall (fun b => MESAFS_DATA_START < b < sb_total_blocks sb
                        /\ disk_block_bit fresh_volume 1 b = Some false) blocks.
Proof.
  apply (inject_writes_inode_record fresh_volume 1 (replicate (Z.to_nat 5000) 7)
           (bytes_of_string "/two")).
  - vm_compute. reflexivity.
  - vm_compute. reflexivity.
Defined.

(** Reading an injected file back through its inode (the direct blocks
    in order, cut to the recorded size) gives the bytes of the source
    file, for every source of at most ten blocks. *)
Theorem inject_file_reads_back (d : list (list Z)) (part_lba : Z)
    (file_data dest_path : list Z) (r : inject_report) (d' : list (list Z)) :
  volume_ok d part_lba = true ->
  Z.of_nat (length file_data) <= MESAFS_DIRECT_BLOCKS * MESAFS_BLOCK_SIZE ->
  inject d part_lba file_data dest_path = Exit0 r d' ->
  disk_file d' part_lba (rp_inode r) = Some file_data.
Proof.
  intros Hok Hsize Hrun.
  destruct (inject_success_reads _ _ _ _ _ _ Hok Hrun)
    as (block & ib & dir & itb & n & blocks & slot & Hb0 & _ & _ & Hitb & Hn & _
        & _ & Hcount & Hten & Hall & Hnd & _ & -> & _ & _ & _ & Hnt & Hdata & _).
  pose proof (read_block_length _ _ _ _ Hitb) as Hlenit.
  destruct (locate_small n) as (Hloc & _ & Hidx); [lia|].
  unfold MESAFS_DIRECT_BLOCKS, MESAFS_BLOCK_SIZE in Hsize.
  assert (length blocks <= 10)%nat as Hlen10 by lia.
  rewrite blocks_needed_exact in Hcount by lia.
  unfold disk_file, disk_inode. cbn [rp_inode]. rewrite Hloc. cbn [fst snd].
  change MESAFS_INODE_TABLE_START with 2. rewrite Hnt.
  cbn [fmap option_fmap option_map mbind option_bind].
  rewrite decode_file_inode_record;
    [ | unfold SIZEOF_INODE, MESAFS_BLOCK_SIZE in *; lia | lia | lia
      | eapply Forall_impl; [exact Hall|]; simpl; intros; lia ].
  cbn [ino_blocks_used ino_direct_blocks ino_size].
  rewrite Nat2Z.id, take_direct_slots by lia.
  assert (mapM (read_block d' (wrap32 (part_lba * SECTOR_SIZE))) blocks
          = Some (payload_blocks file_data 0 (length blocks))) as ->.
  { apply mapM_Some. apply Forall2_same_length_lookup. split.
    - by rewrite length_payload_blocks.
    - intros j b x Hb Hx. rewrite (Hdata j b Hb). exact Hx. }
  cbn [mbind option_bind]. f_equal.
  rewrite wrap32_small by lia.
  pose proof (take_concat_payload_blocks file_data (length blocks) 0) as Htake.
  rewrite Z.sub_0_r in Htake. rewrite Htake; [reflexivity|lia|lia|].
  unfold MESAFS_BLOCK_SIZE in *.
  pose proof (Z.div_mod (Z.of_nat (length file_data) + 4096 - 1) 4096 ltac:(lia)).
  pose proof (Z.mod_pos_bound (Z.of_nat (length file_data) + 4096 - 1) 4096 ltac:(lia)).
  lia.
Qed.

Lemma inject_file_reads_back_witness :
  disk_file (image_of (inject fresh_volume 1 (replicate (Z.to_nat 5000) 7)
                         (bytes_of_string "/two"))) 1
    (rp_inode {| rp_inode := 2; rp_blocks := 2; rp_size := 5000 |})
  = Some (replicate (Z.to_nat 5000) 7).
Proof.
  apply (inject_file_reads_back fresh_volume 1 (replicate (Z.to_nat 5000) 7)
           (bytes_of_string "/two")).
  - vm_compute. reflexivity.
  - vm_compute. discriminate.
  - vm_compute. reflexivity.
Defined.

(** * The injector: the root directory *)

Lemma decode_dirent_insert_entry_other (dir : list Z) (slot s : nat) (n : Z)
    (f : list Z) :
  Z.of_nat (length dir) = MESAFS_BLOCK_SIZE -> (slot < 64)%nat -> (s < 64)%nat ->
  s <> slot ->
  decode_dirent (insert_entry dir slot n f) s = decode_dirent dir s.
Proof.
  intros Hlen Hslot Hs Hne. unfold MESAFS_BLOCK_SIZE in Hlen.
  rewrite insert_entry_overlay by (unfold SIZEOF_DIRENT; lia).
  pose proof (length_entry_bytes n f) as Hle.
  unfold decode_dirent, SIZEOF_DIRENT. f_equal.
  - apply get_u32_overlay_out; [lia|]. rewrite Hle. lia.
  - rewrite byte_at_overlay by lia. rewrite Hle. case_decide; [lia|done].
  - rewrite byte_at_overlay by lia. rewrite Hle. case_decide; [lia|done].
  - apply list_eq. intros i. rewrite !lookup_take, !lookup_drop.
    case_decide; [|done]. unfold DIRENT_NAME_SIZE in *.
    rewrite lookup_overlay by lia. rewrite Hle.
    repeat case_decide; try done; lia.
Qed.

Lemma c_string_app_nul (s rest : list Z) :
  c_string (c_string s ++ 0 :: rest) = c_string s.
Proof.
  induction s as [|c s IH]; [reflexivity|].
  cbn [c_string]. destruct (Z.eqb_spec c 0) as [E|E]; [reflexivity|].
  cbn [app c_string]. destruct (Z.eqb_spec c 0); [done|]. by rewrite IH.
Qed.

Lemma c_string_strncpy (n : nat) (f rest : list Z) :
  (length (c_string f) < n)%nat ->
  c_string (strncpy n f ++ rest) = c_string f.
Proof.
  intros H. unfold strncpy.
  rewrite take_app_ge by lia.
  destruct (n - length (c_string f))%nat as [|k] eqn:Hk; [lia|].
  rewrite take_replicate. rewrite Nat.min_l by lia.
  cbn [replicate]. rewrite <- app_assoc. cbn [app]. apply c_string_app_nul.
Qed.

(** The entry of an injected file goes into the first slot of the root
    directory block whose inode field is zero; it carries the file's
    inode number and type file, and the 63 other slots are left as they
    were. *)
Theorem inject_fills_first_free_slot (d : list (list Z)) (part_lba : Z)
    (file_data dest_path : list Z) (r : inject_report) (d' : list (list Z)) :
  volume_ok d part_lba = true ->
  inject d part_lba file_data dest_path = Exit0 r d' ->
  exists slot,
    (slot < 64)%nat
    /\ (de_inode <$> disk_dirent d part_lba slot) = Some 0
    /\ (forall s, (s < slot)%nat ->
          exists e, disk_dirent d part_lba s = Some e /\ de_inode e <> 0)
    /\ (de_inode <$> disk_dirent d' part_lba slot) = Some (rp_inode r)
    /\ (de_type <$> disk_dirent d' part_lba slot) = Some MESAFS_TYPE_FILE
    /\ (forall s, (s < 64)%nat -> s <> slot ->
          disk_dirent d' part_lba s = disk_dirent d part_lba s).
Proof.
  intros Hok Hrun.
  destruct (inject_success_reads _ _ _ _ _ _ Hok Hrun)
    as (block & ib & dir & itb & n & blocks & slot & _ & _ & Hdir & _ & Hn & _
        & _ & _ & _ & _ & _ & Hslot & -> & _ & _ & Hn10 & _).
  pose proof (read_block_length _ _ _ _ Hdir) as Hlen.
  destruct (find_free_slot_spec _ _ Hslot) as [Hlt Hzero].
  destruct (decode_dirent_insert_entry dir slot n (filename_of dest_path) Hlen Hlt)
    as (Hino & Hty & _).
  exists slot. unfold disk_dirent. change MESAFS_DATA_START with 10.
  rewrite Hdir, Hn10. cbn [fmap option_fmap option_map rp_inode].
  split_and!; [exact Hlt|by rewrite Hzero| | | |].
  - intros s Hs. eexists. split; [reflexivity|].
    cbn [decode_dirent de_inode].
    apply (find_free_slot_loop_first _ 0 _ _ Hslot). lia.
  - rewrite Hino. f_equal. apply wrap32_small. lia.
  - by rewrite Hty.
  - intros s Hs Hne. f_equal. by apply decode_dirent_insert_entry_other.
Qed.

Lemma inject_fills_first_free_slot_witness :
  exists slot,
    (slot < 64)%nat
    /\ (de_inode <$> disk_dirent volume_a 1 slot) = Some 0
    /\ (forall s, (s < slot)%nat ->
          exists e, disk_dirent volume_a 1 s = Some e /\ de_inode e <> 0)
    /\ (de_inode <$> disk_dirent volume_ab 1 slot)
       = Some (rp_inode {| rp_inode := 3; rp_blocks := 1; rp_size := 1 |})
    /\ (de_type <$> disk_dirent volume_ab 1 slot) = Some MESAFS_TYPE_FILE
    /\ (forall s, (s < 64)%nat -> s <> slot ->
          disk_dirent volume_ab 1 s = disk_dirent volume_a 1 s).
Proof.
  apply (inject_fills_first_free_slot volume_a 1 [9] (bytes_of_string "/b.msa")).
  - vm_compute. reflexivity.
  - vm_compute. reflexivity.
Defined.

(** A name shorter than 56 bytes reads back from the directory as it was
    given (less the one leading slash): the entry that carries the new
    inode number holds the name with its terminating NUL. *)
Theorem inject_short_name_reads_back (d : list (list Z)) (part_lba : Z)
    (file_data dest_path : list Z) (r : inject_report) (d' : list (list Z)) :
  volume_ok d part_lba = true ->
  strlen (filename_of dest_path) < Z.of_nat MESAFS_MAX_FILENAME ->
  inject d part_lba file_data dest_path = Exit0 r d' ->
  exists slot,
    (slot < 64)%nat
    /\ (de_inode <$> disk_dirent d' part_lba slot) = Some (rp_inode r)
    /\ (de_name_len <$> disk_dirent d' part_lba slot)
       = Some (strlen (filename_of dest_path))
    /\ disk_entry_name d' part_lba slot = Some (c_string (filename_of dest_path)).
Proof.
  intros Hok Hshort Hrun.
  destruct (inject_success_reads _ _ _ _ _ _ Hok Hrun)
    as (block & ib & dir & itb & n & blocks & slot & _ & _ & Hdir & _ & Hn & _
        & _ & _ & _ & _ & _ & Hslot & -> & _ & _ & Hn10 & _).
  pose proof (read_block_length _ _ _ _ Hdir) as Hlen.
  destruct (find_free_slot_spec _ _ Hslot) as [Hlt Hzero].
  destruct (decode_dirent_insert_entry dir slot n (filename_of dest_path) Hlen Hlt)
    as (Hino & _ & Hnl & Hname).
  unfold strlen, MESAFS_MAX_FILENAME in *.
  exists slot. unfold disk_entry_name, disk_dirent. change MESAFS_DATA_START with 10.
  rewrite Hn10. cbn [fmap option_fmap option_map rp_inode].
  split_and!; [exact Hlt| | |].
  - rewrite Hino. f_equal. apply wrap32_small. lia.
  - rewrite Hnl. f_equal. unfold wrap8. apply Z.mod_small. lia.
  - f_equal.
    rewrite <- (take_drop 56 (de_name _)), Hname.
    apply c_string_strncpy. lia.
Qed.

Lemma inject_short_name_reads_back_witness :
  exists slot,
    (slot < 64)%nat
    /\ (de_inode <$> disk_dirent hello_volume 1 slot)
       = Some (rp_inode {| rp_inode := 2; rp_blocks := 1; rp_size := 2 |})
    /\ (de_name_len <$> disk_dirent hello_volume 1 slot)
       = Some (strlen (filename_of (bytes_of_string "/hello.msa")))
    /\ disk_entry_name hello_volume 1 slot
       = Some (c_string (filename_of (bytes_of_string "/hello.msa"))).
Proof.
  apply (inject_short_name_reads_back fresh_volume 1 [104; 105]
           (bytes_of_string "/hello.msa")).
  - vm_compute. reflexivity.
  - vm_compute. reflexivity.
  - vm_compute. reflexivity.
Defined.

(** A successful injection writes block 0, the inode bitmap (block 1),
    the root directory block (block 10), the one inode-table block that
    holds the new inode, and the data blocks listed in the new inode;
    every other block below 2^20 that could be read before reads the
    same afterwards. *)
Theorem inject_touches_only_its_blocks (d : list (list Z)) (part_lba : Z)
    (file_data dest_path : list Z) (r : inject_report) (d' : list (list Z)) :
  volume_ok d part_lba = true ->
  inject d part_lba file_data dest_path = Exit0 r d' ->
  exists blocks,
    (ino_direct_blocks <$> disk_inode d' part_lba (rp_inode r))
    = Some (direct_slots blocks)
    /\ Z.of_nat (length blocks) = rp_blocks r
    /\ forall k x, 0 <= k < 2 ^ 20 ->
         ~ In k [0; 1; 10; MESAFS_INODE_TABLE_START + rp_inode r / 32] ->
         ~ In k blocks ->
         read_block d (wrap32 (part_lba * SECTOR_SIZE)) k = Some x ->
         read_block d' (wrap32 (part_lba * SECTOR_SIZE)) k = Some x.
Proof.
  intros Hok Hrun.
  destruct (inject_success_reads _ _ _ _ _ _ Hok Hrun)
    as (block & ib & dir & itb & n & blocks & slot & _ & _ & _ & Hitb & Hn & _
        & _ & Hcount & Hten & Hall & _ & _ & -> & _ & _ & _ & Hnt & _ & Hkeep & _).
  pose proof (read_block_length _ _ _ _ Hitb) as Hlenit.
  destruct (locate_small n) as (Hloc & _ & Hidx); [lia|].
  exists blocks. cbn [rp_inode rp_blocks]. split_and!; [|reflexivity|].
  - unfold disk_inode. rewrite Hloc. cbn [fst snd].
    change MESAFS_INODE_TABLE_START with 2. rewrite Hnt.
    cbn [fmap option_fmap option_map]. f_equal.
    rewrite decode_file_inode_record;
      [ reflexivity | unfold SIZEOF_INODE, MESAFS_BLOCK_SIZE in *; lia | lia
      | | eapply Forall_impl; [exact Hall|]; simpl; intros; lia ].
    lia.
  - intros k x Hk Hmeta Hdata Hx. change MESAFS_INODE_TABLE_START with 2 in Hmeta.
    cbn [In] in Hmeta.
    apply Hkeep; auto; try (intros ->; apply Hmeta; auto).
    intros Hin. apply Hdata. by apply list_elem_of_In.
Qed.

Lemma inject_touches_only_its_blocks_witness :
  exists blocks,
    (ino_direct_blocks <$> disk_inode volume_ab 1
       (rp_inode {| rp_inode := 3; rp_blocks := 1; rp_size := 1 |}))
    = Some (direct_slots blocks)
    /\ Z.of_nat (length blocks)
       = rp_blocks {| rp_inode := 3; rp_blocks := 1; rp_size := 1 |}
    /\ forall k x, 0 <= k < 2 ^ 20 ->
         ~ In k [0; 1; 10; MESAFS_INODE_TABLE_START
                            + rp_inode {| rp_inode := 3; rp_blocks := 1; rp_size := 1 |} / 32] ->
         ~ In k blocks ->
         read_block volume_a (wrap32 (1 * SECTOR_SIZE)) k = Some x ->
         read_block volume_ab (wrap32 (1 * SECTOR_SIZE)) k = Some x.
Proof.
  apply (inject_touches_only_its_blocks volume_a 1 [9] (bytes_of_string "/b.msa")).
  - vm_compute. reflexivity.
  - vm_compute. reflexivity.
Defined.

(** * The lister *)

Lemma block_pos_0 (part_lba : Z) :
  block_pos (wrap32 (part_lba * SECTOR_SIZE)) 0 = wrap32 (part_lba * SECTOR_SIZE).
Proof.
  rewrite block_pos_wrap, Z.add_0_r. apply wrap32_idemp.
Qed.

(** The lister on the image the formatter leaves of a partition at
    [part_lba], its own partition scan apart. *)
Lemma mesafs_list_formatted (d : list (list Z)) (part_lba part_sectors : Z) :
  part_lba <> 0 ->
  let d' := image_of (format d part_lba part_sectors) in
  (ls_root_number <$> report_of (mesafs_list d' part_lba)) = Some 0
  /\ (ino_type <$> (ls_root <$> report_of (mesafs_list d' part_lba))) = Some 0
  /\ (ls_lines <$> report_of (mesafs_list d' part_lba))
     = Some [ {| ln_slot := 0; ln_inode := MESAFS_MAGIC; ln_type := 1; ln_name := [] |} ]
  /\ (sb_root_inode <$> (ls_superblock <$> report_of (mesafs_list d' part_lba)))
     = Some 1
  /\ forall slot, (slot < 64)%nat ->
       (de_inode <$> disk_dirent d' part_lba slot) = Some 0.
Proof.
  intros Hlba d'.
  pose proof (format_read d part_lba part_sectors) as Hread. fold d' in Hread.
  set (po := wrap32 (part_lba * SECTOR_SIZE)) in *.
  assert (mesafs_list d' part_lba
          = Exit0 {| ls_superblock := decode_superblock (formatted_block part_sectors 0);
                     ls_root_number := 0;
                     ls_root := decode_inode format_inode_table0 0;
                     ls_lines := [ {| ln_slot := 0; ln_inode := MESAFS_MAGIC;
                                      ln_type := 1; ln_name := [] |} ] |} d') as E.
  { unfold mesafs_list. destruct (Z.eqb_spec part_lba 0) as [|_]; [done|].
    fold po. rewrite format_pos_block_pos.
    assert (pread d' po = Some (formatted_block part_sectors 0)) as ->.
    { rewrite <- (Hread 0 Hlba) by lia. unfold read_block. subst po.
      by rewrite block_pos_0. }
    change (pread d' (block_pos po MESAFS_INODE_TABLE_START))
      with (read_block d' po 2).
    rewrite (Hread 2 Hlba) by lia.
    change (formatted_block part_sectors 2) with format_inode_table0.
    cbv zeta.
    assert (get_u32 (formatted_block part_sectors 0) 0 = MESAFS_MAGIC) as ->
      by (vm_compute; reflexivity).
    rewrite Z.eqb_refl. cbn [negb].
    assert (sb_root_inode (decode_superblock format_inode_table0) = 0) as ->
      by (vm_compute; reflexivity).
    change (negb (Z.of_nat SIZEOF_INODE * (0 + 1) <=? MESAFS_BLOCK_SIZE)) with false.
    cbv iota.
    assert (nth 0 (ino_direct_blocks (decode_inode format_inode_table0 (Z.to_nat 0))) 0
            = 0) as -> by (vm_compute; reflexivity).
    change (pread d' (block_pos po 0)) with (read_block d' po 0).
    rewrite (Hread 0 Hlba) by lia.
    assert (list_entries max_entries 0 (formatted_block part_sectors 0)
            = Some [ {| ln_slot := 0; ln_inode := MESAFS_MAGIC;
                        ln_type := 1; ln_name := [] |} ]) as ->
      by (vm_compute; reflexivity).
    reflexivity. }
  rewrite E. cbn [report_of fmap option_fmap option_map ls_root_number ls_root
                  ls_lines ls_superblock].
  split_and!; [reflexivity|vm_compute; reflexivity|reflexivity
              |vm_compute; reflexivity|].
  intros slot Hslot. unfold disk_dirent. change MESAFS_DATA_START with 10.
  fold po. rewrite (Hread 10 Hlba) by lia.
  change (formatted_block part_sectors 10) with zero_block.
  cbn [fmap option_fmap option_map decode_dirent de_inode].
  unfold get_u32. rewrite !byte_at_zero_block. reflexivity.
Qed.

(** Formatter, then lister, both from the boot record on.  When the
    partition the boot record names starts past sector 0 and its eleven
    metadata blocks end below 4 GiB (so that no write of the formatter
    wraps round to the boot record, which the lister reads anew), the
    lister does not show the empty root directory of the fresh volume:
    it prints a superblock whose root inode is 1, then takes the root
    inode's number from the first inode-table block, gets 0, follows the
    zeroed record of inode 0 to block 0 and prints the superblock as one
    directory entry (inode number the magic, type 1, empty name). *)
Theorem lister_on_formatted_volume (mbr : list Z) (d : list (list Z)) :
  0 < fst (find_partition mbr) ->
  fst (find_partition mbr) * SECTOR_SIZE + 11 * MESAFS_BLOCK_SIZE <= 2 ^ 32 ->
  let d' := image_of (format_disk mbr d) in
  (ls_root_number <$> report_of (list_disk mbr d')) = Some 0
  /\ (ino_type <$> (ls_root <$> report_of (list_disk mbr d'))) = Some 0
  /\ (ls_lines <$> report_of (list_disk mbr d'))
     = Some [ {| ln_slot := 0; ln_inode := MESAFS_MAGIC; ln_type := 1; ln_name := [] |} ]
  /\ (sb_root_inode <$> (ls_superblock <$> report_of (list_disk mbr d')))
     = Some 1
  /\ forall slot, (slot < 64)%nat ->
       (de_inode <$> disk_dirent d' (fst (find_partition mbr)) slot) = Some 0.
Proof.
  intros Hlba _. unfold format_disk, list_disk.
  apply mesafs_list_formatted. lia.
Qed.

Lemma lister_on_formatted_volume_witness :
  (ls_root_number
     <$> report_of (list_disk sample_mbr (image_of (format_disk sample_mbr []))))
  = Some 0
  /\ (ino_type
        <$> (ls_root
               <$> report_of (list_disk sample_mbr
                                (image_of (format_disk sample_mbr [])))))
     = Some 0
  /\ (ls_lines
        <$> report_of (list_disk sample_mbr (image_of (format_disk sample_mbr []))))
     = Some [ {| ln_slot := 0; ln_inode := MESAFS_MAGIC; ln_type := 1; ln_name := [] |} ]
  /\ (sb_root_inode
        <$> (ls_superblock
               <$> report_of (list_disk sample_mbr
                                (image_of (format_disk sample_mbr [])))))
     = Some 1
  /\ forall slot, (slot < 64)%nat ->
       (de_inode
          <$> disk_dirent (image_of (format_disk sample_mbr []))
                (fst (find_partition sample_mbr)) slot) = Some 0.
Proof.
  apply (lister_on_formatted_volume sample_mbr []).
  - vm_compute. reflexivity.
  - vm_compute. discriminate.
Defined.

(** * Volumes made by the tools *)

Lemma length_block0_of (sb : mesafs_superblock_t) :
  length (sb_reserved sb) = 476%nat ->
  Z.of_nat (length (block0_of sb)) = MESAFS_BLOCK_SIZE.
Proof.
  intros H. unfold block0_of. rewrite length_overlay.
  - apply length_zero_block.
  - rewrite length_encode_superblock, H. pose proof length_zero_block.
    unfold MESAFS_BLOCK_SIZE in *. lia.
Qed.

Lemma drop_512_zero_block : drop 512 zero_block = replicate 3584 0.
Proof. by vm_compute. Qed.

Lemma block0_of_app (sb : mesafs_superblock_t) :
  length (sb_reserved sb) = 476%nat ->
  block0_of sb = encode_superblock sb ++ replicate 3584 0.
Proof.
  intros H. unfold block0_of. rewrite overlay_0_app. f_equal.
  rewrite length_encode_superblock, H. apply drop_512_zero_block.
Qed.

Lemma format_block0_plain (total_blocks total_inodes : Z) :
  format_block0 (format_superblock total_blocks total_inodes)
  = block0_of (format_superblock total_blocks total_inodes).
Proof.
  rewrite format_block0_split, block0_of_app by reflexivity.
  by rewrite drop_512_zero_block.
Qed.

Lemma decode_block0_of (sb : mesafs_superblock_t) :
  length (sb_reserved sb) = 476%nat ->
  sb_magic (decode_superblock (block0_of sb)) = wrap32 (sb_magic sb)
  /\ sb_version (decode_superblock (block0_of sb)) = wrap32 (sb_version sb)
  /\ sb_reserved (decode_superblock (block0_of sb)) = sb_reserved sb.
Proof.
  intros H. rewrite block0_of_app by done.
  destruct (decode_encode_superblock sb (replicate 3584 0)) as (Hm & Hv & _).
  split_and!; [exact Hm|exact Hv|].
  cbn [decode_superblock sb_reserved].
  rewrite encode_superblock_fields, <- app_assoc.
  rewrite drop_app_length' by (rewrite length_flat_map_encode_u32; reflexivity).
  apply take_app_length'. by rewrite H.
Qed.

Lemma iter_dec_free_blocks_version (k : nat) (sb : mesafs_superblock_t) :
  sb_version (Nat.iter k dec_free_blocks sb) = sb_version sb.
Proof. induction k as [|k IH]; [done|]. simpl. exact IH. Qed.

Lemma drop_bitmap_set (bm : list Z) (b : Z) (n : nat) :
  0 <= b < 8 * Z.of_nat n ->
  drop n (bitmap_set bm b) = drop n bm.
Proof.
  intros H. unfold bitmap_set. rewrite drop_alter.
  assert (b / 8 < Z.of_nat n) by (apply Z.div_lt_upper_bound; lia).
  assert (0 <= b / 8) by (apply Z.div_pos; lia).
  case_decide; [lia|done].
Qed.

Lemma drop_foldl_bitmap_set (blocks bm : list Z) (n : nat) :
  Forall (fun b => 0 <= b < 8 * Z.of_nat n) blocks ->
  drop n (foldl bitmap_set bm blocks) = drop n bm.
Proof.
  intros H. revert bm. induction H as [|b blocks Hb _ IH]; intros bm; [done|].
  cbn [foldl]. rewrite IH. by apply drop_bitmap_set.
Qed.

Lemma take_overlay_before (buf : list Z) (off k : nat) (src : list Z) :
  (k <= off <= length buf)%nat ->
  take k (overlay buf off src) = take k buf.
Proof.
  intros H. unfold overlay.
  rewrite take_app_le by (rewrite length_take; lia).
  rewrite take_take. f_equal. lia.
Qed.

Lemma plain_volume_format (d : list (list Z)) (part_lba part_sectors : Z) :
  part_lba <> 0 ->
  plain_volume (image_of (format d part_lba part_sectors)) part_lba.
Proof.
  intros Hlba. split; [by apply format_volume_ok|].
  exists (format_superblock (part_sectors / 8) 256), format_inode_table0.
  change MESAFS_INODE_TABLE_START with 2.
  rewrite !format_read by (done || lia).
  split_and!;
    [f_equal; apply format_block0_plain|reflexivity..|by vm_compute].
Qed.

Lemma plain_volume_inject (d : list (list Z)) (part_lba : Z)
    (file_data dest_path : list Z) (r : inject_report) (d' : list (list Z)) :
  plain_volume d part_lba ->
  inject d part_lba file_data dest_path = Exit0 r d' ->
  plain_volume d' part_lba.
Proof.
  intros (Hok & sb & itb0 & Hb0 & Hmagic & Hversion & Hres & Hitb0 & Hzero) Hrun.
  split; [by eapply inject_volume_ok|].
  destruct (inject_success_reads _ _ _ _ _ _ Hok Hrun)
    as (block & ib & dir & itb & n & blocks & slot & Hb0' & _ & _ & Hitb & Hn & _
        & _ & Hcount & Hten & Hall & _ & _ & _ & Hn0 & _ & _ & Hnt & _ & Hkeep & _).
  set (po := wrap32 (part_lba * SECTOR_SIZE)) in *.
  assert (block = block0_of sb) as -> by congruence.
  assert (length (sb_reserved sb) = 476%nat) as Hlres by (by rewrite Hres).
  destruct (decode_block0_of sb Hlres) as (Hdm & Hdv & Hdr).
  set (sb2 := Nat.iter (length blocks) dec_free_blocks
                (dec_free_inodes (decode_superblock (block0_of sb)))) in *.
  assert (sb_reserved sb2 = replicate 476 0) as Hres2.
  { subst sb2. rewrite iter_dec_free_blocks_reserved.
    cbn [dec_free_inodes sb_reserved]. by rewrite Hdr. }
  pose proof (read_block_length _ _ _ _ Hitb) as Hlenit.
  change MESAFS_INODE_TABLE_START with 2 in *.
  exists sb2.
  exists (if decide (n / 32 = 0)
          then overlay itb (Z.to_nat (n mod 32) * SIZEOF_INODE)
                 (encode_inode (file_inode_record n
                    (Z.of_nat (length file_data)) blocks))
          else itb0).
  split_and!.
  - rewrite Hn0. f_equal.
    rewrite (block0_of_app sb2) by (by rewrite Hres2).
    rewrite overlay_0_app. f_equal.
    rewrite length_encode_superblock, Hres2. cbn [length replicate Nat.add].
    change (36 + length (replicate 476 0))%nat with 512%nat.
    rewrite drop_foldl_bitmap_set.
    + rewrite (block0_of_app sb) by done.
      rewrite drop_app_length'; [done|].
      by rewrite length_encode_superblock, Hlres.
    + eapply Forall_impl; [exact Hall|]. simpl. intros; lia.
  - subst sb2.
    destruct (iter_dec_free_blocks_fields (length blocks)
                (dec_free_inodes (decode_superblock (block0_of sb))))
      as (_ & _ & _ & ->).
    cbn [dec_free_inodes sb_magic]. rewrite Hdm, Hmagic. reflexivity.
  - subst sb2. rewrite iter_dec_free_blocks_version.
    cbn [dec_free_inodes sb_version]. rewrite Hdv, Hversion. reflexivity.
  - exact Hres2.
  - case_decide as Hz.
    + rewrite <- Hnt. f_equal. lia.
    + apply Hkeep; [lia|lia|lia|lia|lia| |exact Hitb0].
      intros Hin. rewrite Forall_forall in Hall. destruct (Hall _ Hin). lia.
  - case_decide as Hz; [|exact Hzero].
    assert (itb = itb0) as ->.
    { rewrite Hz, Z.add_0_r in Hitb. congruence. }
    rewrite take_overlay_before; [exact Hzero|].
    assert (2 <= n mod 32 < 32) as Hidx.
    { pose proof (Z.div_mod n 32 ltac:(lia)).
      pose proof (Z.mod_pos_bound n 32 ltac:(lia)). lia. }
    unfold SIZEOF_INODE, MESAFS_BLOCK_SIZE in *. lia.
Qed.

Lemma produced_plain (part_lba : Z) (d : list (list Z)) :
  produced part_lba d -> plain_volume d part_lba.
Proof.
  induction 1 as [d s Hlba | d fd path r d' _ IH Hrun].
  - by apply plain_volume_format.
  - by eapply plain_volume_inject.
Qed.

Lemma byte_at_zero_prefix (buf : list Z) (k i : nat) :
  take k buf = replicate k 0 -> (i < k)%nat -> byte_at buf i = 0.
Proof.
  intros H Hi. unfold byte_at.
  assert (take k buf !! i = buf !! i) as <-
    by (rewrite lookup_take; by rewrite decide_True by lia).
  rewrite H. by rewrite lookup_replicate_2.
Qed.

Lemma get_u32_zero_prefix (buf : list Z) (k o : nat) :
  take k buf = replicate k 0 -> (o + 4 <= k)%nat -> get_u32 buf o = 0.
Proof.
  intros H Ho. unfold get_u32.
  rewrite !(byte_at_zero_prefix buf k) by (done || lia). reflexivity.
Qed.

(** Block 0 of a volume made by the tools, read as a bitmap and as a
    directory block. *)
Lemma plain_block0_reads (sb : mesafs_superblock_t) :
  sb_magic sb = MESAFS_MAGIC -> sb_version sb = MESAFS_VERSION ->
  sb_reserved sb = replicate 476 0 ->
  get_u32 (block0_of sb) 0 = MESAFS_MAGIC
  /\ bitmap_test (block0_of sb) 11 = Some false
  /\ list_entries max_entries 0 (block0_of sb)
     = Some [ {| ln_slot := 0; ln_inode := MESAFS_MAGIC; ln_type := 1; ln_name := [] |} ].
Proof.
  destruct sb as [m v bs tb fb ti fi ri fd res]. cbn. intros -> -> ->.
  split_and!; vm_compute; reflexivity.
Qed.

(** The lister on a volume made by the tools, its own partition scan
    apart. *)
Lemma mesafs_list_produced (part_lba : Z) (d : list (list Z)) :
  produced part_lba d ->
  (ls_root_number <$> report_of (mesafs_list d part_lba)) = Some 0
  /\ (ls_lines <$> report_of (mesafs_list d part_lba))
     = Some [ {| ln_slot := 0; ln_inode := MESAFS_MAGIC; ln_type := 1; ln_name := [] |} ].
Proof.
  intros Hp.
  destruct (produced_plain _ _ Hp)
    as (Hok & sb & itb & Hb0 & Hmagic & Hversion & Hres & Hitb & Hzero).
  destruct (volume_ok_facts _ _ Hok) as (Hlba & _).
  destruct (plain_block0_reads sb Hmagic Hversion Hres) as (Hm & _ & Hlines).
  set (po := wrap32 (part_lba * SECTOR_SIZE)) in *.
  assert (mesafs_list d part_lba
          = Exit0 {| ls_superblock := decode_superblock (block0_of sb);
                     ls_root_number := 0;
                     ls_root := decode_inode itb 0;
                     ls_lines := [ {| ln_slot := 0; ln_inode := MESAFS_MAGIC;
                                      ln_type := 1; ln_name := [] |} ] |} d) as E.
  { unfold mesafs_list. destruct (Z.eqb_spec part_lba 0) as [|_]; [done|].
    fold po. rewrite format_pos_block_pos.
    assert (pread d po = Some (block0_of sb)) as ->.
    { rewrite <- Hb0. unfold read_block. subst po. by rewrite block_pos_0. }
    change (pread d (block_pos po MESAFS_INODE_TABLE_START))
      with (read_block d po MESAFS_INODE_TABLE_START).
    rewrite Hitb. cbv zeta. rewrite Hm, Z.eqb_refl. cbn [negb].
    assert (sb_root_inode (decode_superblock itb) = 0) as ->.
    { cbn [decode_superblock sb_root_inode].
      apply (get_u32_zero_prefix itb SIZEOF_INODE); [exact Hzero|].
      unfold SIZEOF_INODE. lia. }
    change (negb (Z.of_nat SIZEOF_INODE * (0 + 1) <=? MESAFS_BLOCK_SIZE)) with false.
    cbv iota. change (Z.to_nat 0) with 0%nat.
    assert (nth 0 (ino_direct_blocks (decode_inode itb 0)) 0 = 0) as ->.
    { cbn [decode_inode ino_direct_blocks seq map nth].
      apply (get_u32_zero_prefix itb SIZEOF_INODE); [exact Hzero|].
      unfold SIZEOF_INODE. lia. }
    change (pread d (block_pos po 0)) with (read_block d po 0).
    rewrite Hb0, Hlines. reflexivity. }
  rewrite E. split; reflexivity.
Qed.

(** The lister, from the boot record on, over a volume made by the
    formatter and any number of successful injections into the partition
    the boot record names.  When that partition starts past sector 0 and
    its first 298 blocks end below 4 GiB (the tools write no block beyond
    them, so no write wraps round to the boot record, which the lister
    reads anew), the lister reports root inode 0 and prints exactly one
    entry, the superblock read as a directory slot (inode number the
    magic, type 1, empty name): none of the injected files is shown. *)
Theorem lister_shows_no_injected_file (mbr : list Z) (d : list (list Z)) :
  produced (fst (find_partition mbr)) d ->
  0 < fst (find_partition mbr) ->
  fst (find_partition mbr) * SECTOR_SIZE + 298 * MESAFS_BLOCK_SIZE <= 2 ^ 32 ->
  (ls_root_number <$> report_of (list_disk mbr d)) = Some 0
  /\ (ls_lines <$> report_of (list_disk mbr d))
     = Some [ {| ln_slot := 0; ln_inode := MESAFS_MAGIC; ln_type := 1; ln_name := [] |} ].
Proof.
  intros Hp _ _. unfold list_disk. by apply mesafs_list_produced.
Qed.

Lemma lister_shows_no_injected_file_witness :
  (ls_root_number <$> report_of (list_disk sample_mbr volume_ab)) = Some 0
  /\ (ls_lines <$> report_of (list_disk sample_mbr volume_ab))
     = Some [ {| ln_slot := 0; ln_inode := MESAFS_MAGIC; ln_type := 1; ln_name := [] |} ].
Proof.
  apply (lister_shows_no_injected_file sample_mbr volume_ab).
  - change (produced 1 volume_ab).
    apply (produced_inject 1 volume_a [9] (bytes_of_string "/b.msa")
             {| rp_inode := 3; rp_blocks := 1; rp_size := 1 |}).
    + apply (produced_inject 1 fresh_volume [1; 2; 3] (bytes_of_string "/a.msa")
               {| rp_inode := 2; rp_blocks := 1; rp_size := 3 |}).
      * apply (produced_format 1 [] 800). lia.
      * vm_compute. reflexivity.
    + vm_compute. reflexivity.
  - vm_compute. reflexivity.
  - vm_compute. discriminate.
Defined.

(** On every volume made by the formatter and any number of successful
    injections, a successful injection puts the first block of the file
    into block 11, and bit 11 of block 0 read as the block bitmap is
    clear again afterwards: each injected file starts where the one
    before it starts. *)
Theorem every_injection_starts_at_block_11 (part_lba : Z) (d : list (list Z))
    (file_data dest_path : list Z) (r : inject_report) (d' : list (list Z)) :
  produced part_lba d ->
  inject d part_lba file_data dest_path = Exit0 r d' ->
  exists rest,
    (ino_direct_blocks <$> disk_inode d' part_lba (rp_inode r))
    = Some (direct_slots (11 :: rest))
    /\ read_block d' (wrap32 (part_lba * SECTOR_SIZE)) 11
       = Some (payload_block file_data 0
                 (payload_chunk (Z.of_nat (length file_data)) 0))
    /\ disk_block_bit d' part_lba 11 = Some false.
Proof.
  intros Hp Hrun.
  pose proof (produced_inject _ _ _ _ _ _ Hp Hrun) as Hp'.
  destruct (produced_plain _ _ Hp)
    as (Hok & sb & itb0 & Hb0 & Hmagic & Hversion & Hres & _).
  destruct (produced_plain _ _ Hp')
    as (_ & sb' & itb0' & Hb0' & Hmagic' & Hversion' & Hres' & _).
  destruct (plain_block0_reads sb Hmagic Hversion Hres) as (_ & Hbit & _).
  destruct (plain_block0_reads sb' Hmagic' Hversion' Hres') as (_ & Hbit' & _).
  destruct (inject_success_reads _ _ _ _ _ _ Hok Hrun)
    as (block & ib & dir & itb & n & blocks & slot & Hblk & _ & _ & Hitb & Hn & _
        & _ & Hcount & Hten & Hall & _ & _ & -> & _ & _ & _ & Hnt & Hdata & _ & Halloc).
  set (po := wrap32 (part_lba * SECTOR_SIZE)) in *.
  assert (block = block0_of sb) as -> by congruence.
  pose proof (blocks_needed_pos (Z.of_nat (length file_data))) as Hpos.
  pose proof (read_block_length _ _ _ _ Hitb) as Hlenit.
  destruct (locate_small n) as (Hloc & _ & Hidx); [lia|].
  (* the first block the scan takes *)
  assert (exists rest, blocks = 11 :: rest) as [rest ->].
  { unfold alloc_blocks in Halloc. change (MESAFS_DATA_START + 1) with 11 in Halloc.
    destruct (Z.to_nat (sb_total_blocks _ - 11)) as [|k];
      cbn [alloc_blocks_loop] in Halloc.
    - injection Halloc as <-. simpl in Hcount. lia.
    - cbn [length] in Halloc.
      destruct (Z.ltb_spec (Z.of_nat 0)
                  (blocks_needed_of (Z.of_nat (length file_data)))) as [_|]; [|lia].
      rewrite Hbit in Halloc.
      apply alloc_blocks_loop_trace in Halloc as (rest & E & _); [|lia].
      exists rest. exact E. }
  exists rest. cbn [rp_inode]. split_and!.
  - unfold disk_inode. rewrite Hloc. cbn [fst snd].
    change MESAFS_INODE_TABLE_START with 2. fold po. rewrite Hnt.
    cbn [fmap option_fmap option_map]. f_equal.
    rewrite decode_file_inode_record;
      [ reflexivity | unfold SIZEOF_INODE, MESAFS_BLOCK_SIZE in *; lia | lia | lia
      | eapply Forall_impl; [exact Hall|]; simpl; intros; lia ].
  - rewrite (Hdata 0%nat 11) by reflexivity. reflexivity.
  - unfold disk_block_bit. change MESAFS_BLOCK_BITMAP_BLOCK with 0. fold po.
    rewrite Hb0'. exact Hbit'.
Qed.

Lemma every_injection_starts_at_block_11_witness :
  exists rest,
    (ino_direct_blocks <$> disk_inode volume_ab 1
       (rp_inode {| rp_inode := 3; rp_blocks := 1; rp_size := 1 |}))
    = Some (direct_slots (11 :: rest))
    /\ read_block volume_ab (wrap32 (1 * SECTOR_SIZE)) 11
       = Some (payload_block [9] 0 (payload_chunk (Z.of_nat (length [9])) 0))
    /\ disk_block_bit volume_ab 1 11 = Some false.
Proof.
  apply (every_injection_starts_at_block_11 1 volume_a [9] (bytes_of_string "/b.msa")).
  - apply (produced_inject 1 fresh_volume [1; 2; 3] (bytes_of_string "/a.msa")
             {| rp_inode := 2; rp_blocks := 1; rp_size := 3 |}).
    + apply (produced_format 1 [] 800). lia.
    + vm_compute. reflexivity.
  - vm_compute. reflexivity.
Defined.

(** * The partition scan *)

Lemma lor_shiftl_add (a b k : Z) :
  0 <= k -> 0 <= a < 2 ^ k -> 0 <= b ->
  Z.lor a (Z.shiftl b k) = a + b * 2 ^ k.
Proof.
  intros Hk Ha Hb. rewrite Z.shiftl_mul_pow2 by lia.
  assert (Z.land a (b * 2 ^ k) = 0) as Hdisj.
  { apply Z.bits_inj'. intros i Hi. rewrite Z.land_spec, Z.bits_0.
    destruct (Z.lt_ge_cases i k) as [Hlt|Hge].
    - rewrite Z.mul_pow2_bits_low by lia. apply andb_false_r.
    - destruct (Z.eq_dec a 0) as [->|Hne]; [by rewrite Z.bits_0|].
      rewrite (Z.bits_above_log2 a i); [reflexivity|lia|].
      apply Z.log2_lt_pow2; [lia|].
      pose proof (Z.pow_le_mono_r 2 k i ltac:(lia) Hge). lia. }
  rewrite <- Z.lxor_lor by exact Hdisj.
  symmetry. apply Z.add_nocarry_lxor. exact Hdisj.
Qed.

Lemma mbr_u32_get_u32 (mbr : list Z) (o : nat) :
  Forall (fun x => 0 <= x < 256) mbr ->
  mbr_u32 mbr o = get_u32 mbr o.
Proof.
  intros Hall.
  assert (forall i, 0 <= byte_at mbr i < 256) as Hb.
  { intros i. unfold byte_at. destruct (mbr !! i) as [x|] eqn:E; simpl; [|lia].
    rewrite Forall_forall in Hall. apply Hall. by eapply list_elem_of_lookup_2. }
  unfold mbr_u32, get_u32.
  pose proof (Hb o). pose proof (Hb (o + 1)%nat).
  pose proof (Hb (o + 2)%nat). pose proof (Hb (o + 3)%nat).
  rewrite (lor_shiftl_add _ _ 8) by lia.
  rewrite (lor_shiftl_add _ _ 16) by lia.
  rewrite (lor_shiftl_add _ _ 24) by lia.
  rewrite wrap32_small by lia. lia.
Qed.

Lemma find_partition_loop_first (n i k : nat) (mbr : list Z) :
  (i <= k < i + n)%nat ->
  (forall j, (i <= j < k)%nat -> mbr_entry_type mbr j <> 0x77) ->
  mbr_entry_type mbr k = 0x77 ->
  find_partition_loop n i mbr = (mbr_entry_lba mbr k, mbr_entry_sectors mbr k).
Proof.
  revert i. induction n as [|n IH]; intros i Hk Hbefore Hat; [lia|].
  cbn [find_partition_loop].
  destruct (Z.eqb_spec (mbr_entry_type mbr i) 0x77) as [E|E].
  - destruct (decide (i = k)) as [->|Hne]; [reflexivity|].
    exfalso. apply (Hbefore i); [lia|exact E].
  - destruct (decide (i = k)) as [->|Hne]; [contradiction|].
    apply IH; [lia| |exact Hat]. intros j Hj. apply Hbefore. lia.
Qed.

Lemma find_partition_loop_none (n i : nat) (mbr : list Z) :
  (forall j, (i <= j < i + n)%nat -> mbr_entry_type mbr j <> 0x77) ->
  find_partition_loop n i mbr = (0, 0).
Proof.
  revert i. induction n as [|n IH]; intros i Hnone; [reflexivity|].
  cbn [find_partition_loop].
  destruct (Z.eqb_spec (mbr_entry_type mbr i) 0x77) as [E|E].
  - exfalso. apply (Hnone i); [lia|exact E].
  - apply IH. intros j Hj. apply Hnone. lia.
Qed.

(** The partition the tools work on is the first of the four entries of
    the boot record whose type byte is 0x77; its start and its size are
    the little-endian 32-bit values at bytes 8..11 and 12..15 of that
    entry, later entries being ignored. *)
Theorem find_partition_takes_first_match (mbr : list Z) (k : nat) :
  Forall (fun x => 0 <= x < 256) mbr ->
  (k < 4)%nat ->
  (forall j, (j < k)%nat -> mbr_entry_type mbr j <> 0x77) ->
  mbr_entry_type mbr k = 0x77 ->
  find_partition mbr
  = (get_u32 mbr (446 + k * 16 + 8), get_u32 mbr (446 + k * 16 + 12)).
Proof.
  intros Hall Hk Hbefore Hat. unfold find_partition.
  rewrite (find_partition_loop_first 4 0 k) by (lia || (intros; apply Hbefore; lia) || done).
  unfold mbr_entry_lba, mbr_entry_sectors. by rewrite !mbr_u32_get_u32.
Qed.

Lemma find_partition_takes_first_match_witness :
  find_partition
    (replicate 446 0
     ++ [0; 0; 0; 0; 131; 0; 0; 0; 1; 0; 0; 0; 7; 0; 0; 0]
     ++ [0; 0; 0; 0; 119; 0; 0; 0; 8; 0; 0; 0; 32; 3; 0; 0]
     ++ replicate 34 0)
  = (get_u32
       (replicate 446 0
        ++ [0; 0; 0; 0; 131; 0; 0; 0; 1; 0; 0; 0; 7; 0; 0; 0]
        ++ [0; 0; 0; 0; 119; 0; 0; 0; 8; 0; 0; 0; 32; 3; 0; 0]
        ++ replicate 34 0) (446 + 1 * 16 + 8),
     get_u32
       (replicate 446 0
        ++ [0; 0; 0; 0; 131; 0; 0; 0; 1; 0; 0; 0; 7; 0; 0; 0]
        ++ [0; 0; 0; 0; 119; 0; 0; 0; 8; 0; 0; 0; 32; 3; 0; 0]
        ++ replicate 34 0) (446 + 1 * 16 + 12)).
Proof.
  apply (find_partition_takes_first_match _ 1).
  - repeat (apply Forall_app; split); try apply Forall_replicate; try lia.
    + repeat (apply Forall_cons; split; [lia|]). apply Forall_nil_2.
    + repeat (apply Forall_cons; split; [lia|]). apply Forall_nil_2.
  - lia.
  - intros j Hj. replace j with 0%nat by lia. vm_compute. discriminate.
  - vm_compute. reflexivity.
Defined.

(** The tools stop with "no partition" and leave the image alone when no
    entry has type 0x77, and also when the first entry of that type
    starts at LBA 0, whatever the entries after it hold. *)
Theorem tools_stop_without_partition (mbr : list Z) (d : list (list Z))
    (file_data dest_path : list Z) :
  (forall j, (j < 4)%nat -> mbr_entry_type mbr j <> 0x77)
  \/ (exists k, (k < 4)%nat
        /\ (forall j, (j < k)%nat -> mbr_entry_type mbr j <> 0x77)
        /\ mbr_entry_type mbr k = 0x77 /\ mbr_entry_lba mbr k = 0) ->
  format_disk mbr d = Exit1 NoPartitionFound d
  /\ inject_file mbr d file_data dest_path = Exit1 NoPartitionFound d
  /\ list_disk mbr d = Exit1 NoPartitionFound d.
Proof.
  intros H.
  assert (fst (find_partition mbr) = 0) as E.
  { unfold find_partition. destruct H as [Hnone|(k & Hk & Hbefore & Hat & Hzero)].
    - rewrite find_partition_loop_none; [reflexivity|]. intros j Hj. apply Hnone. lia.
    - rewrite (find_partition_loop_first 4 0 k);
        [exact Hzero|lia| |exact Hat]. intros j Hj. apply Hbefore. lia. }
  unfold format_disk, inject_file, list_disk. rewrite E.
  split_and!; reflexivity.
Qed.

Lemma tools_stop_without_partition_witness :
  format_disk
    (replicate 446 0
     ++ [0; 0; 0; 0; 119; 0; 0; 0; 0; 0; 0; 0; 7; 0; 0; 0]
     ++ [0; 0; 0; 0; 119; 0; 0; 0; 8; 0; 0; 0; 32; 3; 0; 0]
     ++ replicate 34 0) fresh_volume
  = Exit1 NoPartitionFound fresh_volume
  /\ inject_file
       (replicate 446 0
        ++ [0; 0; 0; 0; 119; 0; 0; 0; 0; 0; 0; 0; 7; 0; 0; 0]
        ++ [0; 0; 0; 0; 119; 0; 0; 0; 8; 0; 0; 0; 32; 3; 0; 0]
        ++ replicate 34 0) fresh_volume [1] [47; 97]
     = Exit1 NoPartitionFound fresh_volume
  /\ list_disk
       (replicate 446 0
        ++ [0; 0; 0; 0; 119; 0; 0; 0; 0; 0; 0; 0; 7; 0; 0; 0]
        ++ [0; 0; 0; 0; 119; 0; 0; 0; 8; 0; 0; 0; 32; 3; 0; 0]
        ++ replicate 34 0) fresh_volume
     = Exit1 NoPartitionFound fresh_volume.
Proof.
  apply tools_stop_without_partition. right. exists 0%nat.
  split_and!; [lia|intros; lia|vm_compute; reflexivity|vm_compute; reflexivity].
Defined.

(** * The package builder *)

Lemma length_char_field (n : nat) (s : list Z) :
  (0 < n)%nat -> length (char_field n s) = n.
Proof.
  intros H. unfold char_field. rewrite length_app, length_strncpy. cbn [length]. lia.
Qed.

Lemma length_encode_msa_file_entry (f : msa_file_entry_t) :
  length (encode_msa_file_entry f) = SIZEOF_MSA_FILE_ENTRY.
Proof.
  unfold encode_msa_file_entry.
  rewrite !length_app, length_take, length_app, !length_replicate, !length_encode_u32.
  unfold MSA_PATH_MAX, SIZEOF_MSA_FILE_ENTRY. cbn [length]. lia.
Qed.

Lemma length_encode_msa_header (o : msa_options) (a b c e : Z) :
  length (encode_msa_header o a b c e) = SIZEOF_MSA_HEADER.
Proof.
  unfold encode_msa_header.
  rewrite !length_app, length_take, length_app, !length_replicate,
    !length_encode_u32, length_encode_u16, !length_char_field
    by (unfold MSA_NAME_MAX, MSA_DESC_MAX; lia).
  unfold MSA_NAME_MAX, MSA_DESC_MAX, MSA_MAX_DEPS, SIZEOF_MSA_HEADER. lia.
Qed.

(** The scan, run to its end, has appended the records of the entries
    met, in order, and added up their sizes. *)
Lemma scan_directory_inv (items : list found)
    (files files' : list (msa_file_entry_t * option (list Z))) (total total' : Z) :
  0 <= total < 2 ^ 32 ->
  scan_directory items files total = Some (files', total') ->
  files' = files ++ omap record_of items
  /\ total' = wrap32 (total + Z.of_nat (sum_list (map found_bytes items)))
  /\ ((length files <= MSA_MAX_FILES)%nat -> (length files' <= MSA_MAX_FILES)%nat)
  /\ forallb dir_opened items = true.
Proof.
  revert files total. induction items as [|item items IH]; intros files total Ht H;
    cbn [scan_directory] in H.
  - injection H as <- <-. cbn. rewrite app_nil_r, Z.add_0_r, wrap32_small by done.
    split_and!; auto.
  - case_decide as Hfull; [discriminate|].
    destruct item as [p m opened|p m data|]; cbn [omap list_omap record_of map found_bytes
      sum_list forallb dir_opened].
    + destruct opened; [|discriminate].
      destruct (IH _ _ Ht H) as (E1 & E2 & Hlen & Hop).
      rewrite <- app_assoc in E1.
      split_and!; [exact E1|exact E2| |exact Hop].
      intros _. apply Hlen. rewrite length_app. cbn [length]. lia.
    + destruct (IH _ _ (wrap32_range _) H) as (E1 & E2 & Hlen & Hop).
      rewrite <- app_assoc in E1.
      split_and!; [exact E1| | |exact Hop].
      * rewrite E2. unfold wrap32. rewrite Zplus_mod_idemp_l. f_equal.
        unfold id. lia.
      * intros _. apply Hlen. rewrite length_app. cbn [length]. lia.
    + destruct (IH _ _ Ht H) as (E1 & E2 & Hlen & Hop).
      split_and!; auto.
Qed.

Lemma scan_directory_runs (items : list found)
    (files : list (msa_file_entry_t * option (list Z))) (total : Z) :
  (length files + length items <= MSA_MAX_FILES)%nat ->
  forallb dir_opened items = true ->
  is_Some (scan_directory items files total).
Proof.
  revert files total. induction items as [|item items IH]; intros files total Hlen Hop;
    cbn [scan_directory].
  - by eexists.
  - cbn [length] in Hlen. cbn [forallb] in Hop.
    apply andb_prop in Hop as [Hop1 Hop].
    rewrite decide_False by lia.
    destruct item as [p m opened|p m data|]; cbn [dir_opened] in Hop1.
    + rewrite Hop1. apply IH; [|done]. rewrite length_app. cbn [length]. lia.
    + apply IH; [|done]. rewrite length_app. cbn [length]. lia.
    + apply IH; [lia|done].
Qed.

Lemma well_recorded_omap (items : list found) :
  Z.of_nat (sum_list (map found_bytes items)) < 2 ^ 32 ->
  Forall well_recorded (omap record_of items).
Proof.
  induction items as [|item items IH]; intros H; [constructor|].
  change (sum_list (map found_bytes (item :: items)))
    with (found_bytes item + sum_list (map found_bytes items))%nat in H.
  destruct item as [p m opened|p m data|]; cbn [omap list_omap record_of found_bytes] in *.
  - constructor; [reflexivity|]. apply IH. lia.
  - constructor; [|apply IH; lia]. split; [reflexivity|].
    cbn [file_entry fe_size]. apply wrap32_small. lia.
  - apply IH. lia.
Qed.

Lemma length_file_bytes_omap (items : list found) :
  (length (flat_map file_bytes (omap record_of items))
   <= sum_list (map found_bytes items))%nat.
Proof.
  induction items as [|item items IH]; [reflexivity|].
  change (sum_list (map found_bytes (item :: items)))
    with (found_bytes item + sum_list (map found_bytes items))%nat.
  destruct item as [p m opened|p m data|]; cbn [omap list_omap record_of found_bytes flat_map
    file_bytes dir_entry file_entry fe_type fe_size app].
  - exact IH.
  - change (0 =? 0) with true. cbv iota.
    rewrite length_app, length_take. lia.
  - exact IH.
Qed.

Lemma length_omap_record_of (items : list found) :
  (length (omap record_of items) <= length items)%nat.
Proof.
  induction items as [|item items IH]; [reflexivity|].
  destruct item; cbn [omap list_omap record_of length]; lia.
Qed.

Lemma length_assign_offsets (files : list (msa_file_entry_t * option (list Z))) (c : Z) :
  length (assign_offsets files c) = length files.
Proof.
  revert c. induction files as [|[f dat] files IH]; intros c; [reflexivity|].
  cbn [assign_offsets]. destruct (fe_type f =? 0); cbn [length]; by rewrite IH.
Qed.

(** Inside the written file, every record's data lies at the record's
    offset, as long as no offset wraps. *)
Lemma assign_offsets_layout (files : list (msa_file_entry_t * option (list Z))) :
  forall (c : Z) (P Q : list Z) (k : nat) (e : msa_file_entry_t) (data : list Z),
    Forall well_recorded files ->
    Z.of_nat (length P) = c ->
    c + Z.of_nat (length (flat_map file_bytes files)) < 2 ^ 32 ->
    assign_offsets files c !! k = Some (e, Some data) ->
    fe_size e = Z.of_nat (length data)
    /\ take (length data)
         (drop (Z.to_nat (fe_offset e))
            (P ++ flat_map file_bytes (assign_offsets files c) ++ Q)) = data.
Proof.
  induction files as [|[f dat] files IH]; intros c P Q k e data Hok HP Hmax Hk;
    [discriminate|].
  apply Forall_cons in Hok as [Hf Hok].
  cbn [assign_offsets flat_map] in *.
  destruct dat as [d0|]; cbn [well_recorded] in Hf.
  - destruct Hf as [Hty Hsz]. rewrite Hty in *. change (0 =? 0) with true in *.
    cbv iota in *. cbn [file_bytes fe_type fe_size flat_map] in *.
    rewrite Hty in *. change (0 =? 0) with true in *. cbv iota in *.
    rewrite Hsz, Nat2Z.id, firstn_all in *.
    rewrite length_app in Hmax.
    destruct k as [|k]; cbn [lookup list_lookup] in Hk.
    + injection Hk as <- <-. cbn [fe_size fe_offset]. split; [reflexivity || exact Hsz|].
      rewrite <- HP, Nat2Z.id, drop_app_length, <- app_assoc.
      by rewrite take_app_length.
    + rewrite (wrap32_small (c + Z.of_nat (length d0))) in Hk |- * by lia.
      rewrite <- app_assoc.
      rewrite (app_assoc P d0).
      apply (IH _ _ _ k); [exact Hok|rewrite length_app; lia|lia|exact Hk].
  - rewrite Hf in *. change (1 =? 0) with false in *. cbv iota in *.
    cbn [file_bytes flat_map app] in *.
    destruct k as [|k]; cbn [lookup list_lookup] in Hk; [discriminate|].
    by apply (IH _ _ _ k).
Qed.

Lemma flat_map_fixed_lookup {A : Type} (g : A -> list Z) (m : nat) (l : list A)
    (R : list Z) (k : nat) (x : A) :
  (forall y, length (g y) = m) ->
  l !! k = Some x ->
  take m (drop (m * k) (flat_map g l ++ R)) = g x.
Proof.
  intros Hg. revert k. induction l as [|y l IH]; intros k Hk; [discriminate|].
  cbn [flat_map]. rewrite <- app_assoc.
  destruct k as [|k]; cbn [lookup list_lookup] in Hk.
  - injection Hk as ->. rewrite Nat.mul_0_r, drop_0.
    apply take_app_length'. by rewrite Hg.
  - replace (m * S k)%nat with (length (g y) + m * k)%nat by (rewrite Hg; lia).
    rewrite drop_app_add. by apply IH.
Qed.

Lemma get_u32_skip_n (l1 l2 : list Z) (n o : nat) :
  length l1 = n -> get_u32 (l1 ++ l2) (n + o) = get_u32 l2 o.
Proof. intros <-. apply get_u32_skip. Qed.

(** When the scan succeeds it has recorded the directories and regular
    files it met, in the order it met them, skipping everything else; it
    holds at most 256 records, every directory could be opened, and the
    total is the sum of the file sizes modulo 2^32. *)
Theorem scan_directory_records_in_order (items : list found)
    (files : list (msa_file_entry_t * option (list Z))) (total : Z) :
  scan_directory items [] 0 = Some (files, total) ->
  files = omap record_of items
  /\ total = wrap32 (Z.of_nat (sum_list (map found_bytes items)))
  /\ (length files <= MSA_MAX_FILES)%nat
  /\ forallb dir_opened items = true.
Proof.
  intros H. apply scan_directory_inv in H as (E1 & E2 & Hlen & Hop); [|lia].
  split_and!; [exact E1|exact E2| |exact Hop].
  apply Hlen. cbn [length]. lia.
Qed.

Lemma scan_directory_records_in_order_witness :
  omap record_of sample_items = omap record_of sample_items
  /\ wrap32 3 = wrap32 (Z.of_nat (sum_list (map found_bytes sample_items)))
  /\ (length (omap record_of sample_items) <= MSA_MAX_FILES)%nat
  /\ forallb dir_opened sample_items = true.
Proof.
  apply (scan_directory_records_in_order sample_items
           (omap record_of sample_items) (wrap32 3)).
  vm_compute. reflexivity.
Defined.

(** The scan succeeds whenever it meets at most 256 entries and can open
    every directory among them. *)
Theorem scan_directory_accepts_256_entries (items : list found) :
  (length items <= MSA_MAX_FILES)%nat ->
  forallb dir_opened items = true ->
  scan_directory items [] 0
  = Some (omap record_of items,
          wrap32 (Z.of_nat (sum_list (map found_bytes items)))).
Proof.
  intros Hlen Hop.
  destruct (scan_directory_runs items [] 0) as [[files total] E];
    [cbn [length]; lia|exact Hop|].
  rewrite E. apply scan_directory_inv in E as (-> & -> & _); [|lia].
  reflexivity.
Qed.

Lemma scan_directory_accepts_256_entries_witness :
  scan_directory sample_items [] 0
  = Some (omap record_of sample_items,
          wrap32 (Z.of_nat (sum_list (map found_bytes sample_items)))).
Proof.
  apply (scan_directory_accepts_256_entries sample_items).
  - vm_compute. lia.
  - vm_compute. reflexivity.
Defined.

(** The layout of the package file, for a tree whose package stays below
    4 GiB: the header names the number of records and the size of header
    and table; record [k] of the table sits at byte 1578 + 324 k; and the
    bytes of every regular file sit, in full, at the offset its record
    carries. *)
Theorem msa_package_layout (o : msa_options) (items : list found)
    (heap out : list Z) :
  msa_create o items heap = Some out ->
  Z.of_nat SIZEOF_MSA_HEADER
  + Z.of_nat SIZEOF_MSA_FILE_ENTRY * Z.of_nat (length items)
  + Z.of_nat (sum_list (map found_bytes items)) < 2 ^ 32 ->
  let files :=
    assign_offsets (omap record_of items)
      (msa_header_size (length (omap record_of items))) in
  get_u32 out 0 = MSA_MAGIC
  /\ get_u32 out 408 = Z.of_nat (length files)
  /\ get_u32 out 416
     = Z.of_nat SIZEOF_MSA_HEADER
       + Z.of_nat SIZEOF_MSA_FILE_ENTRY * Z.of_nat (length files)
  /\ forall k e data,
       files !! k = Some (e, data) ->
       take SIZEOF_MSA_FILE_ENTRY
         (drop (SIZEOF_MSA_HEADER + SIZEOF_MSA_FILE_ENTRY * k) out)
       = encode_msa_file_entry e
       /\ forall bytes, data = Some bytes ->
            fe_size e = Z.of_nat (length bytes)
            /\ take (length bytes) (drop (Z.to_nat (fe_offset e)) out) = bytes.
Proof.
  intros Hrun Hmax files. unfold msa_create in Hrun.
  destruct (scan_directory items [] 0) as [[recs total]|] eqn:Hscan; [|discriminate].
  apply scan_directory_inv in Hscan as (Hrecs & _ & _ & _); [|lia].
  cbn [app] in Hrecs. subst recs.
  set (crc := calculate_crc32 _) in Hrun. clearbody crc. injection Hrun as <-.
  pose proof (length_omap_record_of items) as Hn.
  pose proof (length_file_bytes_omap items) as Hbytes.
  unfold SIZEOF_MSA_HEADER, SIZEOF_MSA_FILE_ENTRY in *.
  assert (msa_header_size (length (omap record_of items))
          = 1578 + 324 * Z.of_nat (length (omap record_of items))) as Hhs.
  { unfold msa_header_size, SIZEOF_MSA_HEADER, SIZEOF_MSA_FILE_ENTRY.
    rewrite wrap32_small; lia. }
  unfold msa_package. cbv zeta. fold files.
  set (hdr := encode_msa_header o (Z.of_nat (length files)) total
                (msa_header_size (length (omap record_of items))) crc).
  assert (length hdr = 1578%nat) as Hlh by apply length_encode_msa_header.
  assert (length files = length (omap record_of items)) as Hlf
    by apply length_assign_offsets.
  split_and!.
  - unfold hdr, encode_msa_header. rewrite <- !app_assoc.
    apply get_u32_encode_u32.
  - unfold hdr, encode_msa_header. rewrite <- !app_assoc.
    rewrite (get_u32_after_u32 _ _ 404), (get_u32_after_u32 _ _ 400).
    rewrite (get_u32_skip_n (char_field MSA_NAME_MAX (opt_name o)) _ 64 336)
      by (apply length_char_field; unfold MSA_NAME_MAX; lia).
    rewrite (get_u32_skip_n (char_field 16 (opt_version o)) _ 16 320)
      by (apply length_char_field; lia).
    rewrite (get_u32_skip_n (char_field MSA_NAME_MAX (opt_author o)) _ 64 256)
      by (apply length_char_field; unfold MSA_NAME_MAX; lia).
    rewrite (get_u32_skip_n (char_field MSA_DESC_MAX (opt_description o)) _ 256 0)
      by (apply length_char_field; unfold MSA_DESC_MAX; lia).
    rewrite get_u32_encode_u32. apply wrap32_small. lia.
  - unfold hdr, encode_msa_header. rewrite <- !app_assoc.
    rewrite (get_u32_after_u32 _ _ 412), (get_u32_after_u32 _ _ 408).
    rewrite (get_u32_skip_n (char_field MSA_NAME_MAX (opt_name o)) _ 64 344)
      by (apply length_char_field; unfold MSA_NAME_MAX; lia).
    rewrite (get_u32_skip_n (char_field 16 (opt_version o)) _ 16 328)
      by (apply length_char_field; lia).
    rewrite (get_u32_skip_n (char_field MSA_NAME_MAX (opt_author o)) _ 64 264)
      by (apply length_char_field; unfold MSA_NAME_MAX; lia).
    rewrite (get_u32_skip_n (char_field MSA_DESC_MAX (opt_description o)) _ 256 8)
      by (apply length_char_field; unfold MSA_DESC_MAX; lia).
    rewrite (get_u32_after_u32 _ _ 4), (get_u32_after_u32 _ _ 0).
    rewrite get_u32_encode_u32, Hhs, Hlf. apply wrap32_small. lia.
  - intros k e data Hk. split.
    + rewrite <- Hlh, drop_app_add.
      apply (flat_map_fixed_lookup (fun f => encode_msa_file_entry (fst f)) 324
               files _ k (e, data)); [|exact Hk].
      intros y. apply length_encode_msa_file_entry.
    + intros bytes ->.
      rewrite (app_assoc hdr).
      rewrite <- (app_nil_r (flat_map file_bytes files)).
      apply (assign_offsets_layout (omap record_of items) _ _ [] k).
      * apply well_recorded_omap. lia.
      * rewrite length_app, Hlh, Hhs.
        rewrite (flat_map_constant_length (c := 324));
          [rewrite Hlf; lia|].
        intros y _. apply length_encode_msa_file_entry.
      * rewrite Hhs. lia.
      * exact Hk.
Qed.

Lemma msa_package_layout_witness :
  let files :=
    assign_offsets (omap record_of sample_items)
      (msa_header_size (length (omap record_of sample_items))) in
  get_u32 sample_package 0 = MSA_MAGIC
  /\ get_u32 sample_package 408 = Z.of_nat (length files)
  /\ get_u32 sample_package 416
     = Z.of_nat SIZEOF_MSA_HEADER
       + Z.of_nat SIZEOF_MSA_FILE_ENTRY * Z.of_nat (length files)
  /\ forall k e data,
       files !! k = Some (e, data) ->
       take SIZEOF_MSA_FILE_ENTRY
         (drop (SIZEOF_MSA_HEADER + SIZEOF_MSA_FILE_ENTRY * k) sample_package)
       = encode_msa_file_entry e
       /\ forall bytes, data = Some bytes ->
            fe_size e = Z.of_nat (length bytes)
            /\ take (length bytes)
                 (drop (Z.to_nat (fe_offset e)) sample_package) = bytes.
Proof.
  apply (msa_package_layout sample_options sample_items [] sample_package).
  - vm_compute. reflexivity.
  - vm_compute. reflexivity.
Defined.
